(** * Distrorun: rootfs mount lifecycle, initramfs patching, package lines

    Shallow embedding of the parts of the Go sources that the specification
    talks about:
    - [internal/sbom/sbom.go]      : [parseApkPackage]
    - [internal/rootfs/cleanup.go] : [Unmount], [Cleanup], [CleanupRootfs]
    - the command entry point      : [runBuild]
    - the rootfs package           : [downloadMinirootfs], [PatchInitramfs]
      and the shell script [customInit]; [Bootstrap] and its steps;
      [InstallPackages], [SetupUsers], [EnableServices]
    - [internal/config]            : [Validate], [LoadConfig]
    - [internal/sbom/sbom.go]      : [Generate]
    - the bootloader package       : [Setup], [findFile], [copyFile]
    - [internal/iso/build.go]      : [Build], [CheckHostDeps].

    Go strings are byte strings; they are modelled by [string], whose
    characters are the 256 byte values. *)

From Stdlib Require Import Ascii String List Arith Lia Bool ZArith Permutation Sorted.
From Stdlib Require Import DecimalString DecimalNat.
From stdpp Require Import base option list strings gmap fin_maps.

Local Open Scope string_scope.
Local Set Warnings "-register-all".

(** ** Go string primitives *)

Module GoString.

(** [len(s)] *)
Definition len (s : string) : nat := String.length s.

(** [s[i]] for [i < len(s)]; the zero byte stands for the run-time panic
    of an index out of range, which no caller below reaches. *)
Definition byteAt (s : string) (i : nat) : ascii :=
  match String.get i s with
  | Some c => c
  | None => Ascii.zero
  end.

(** [s[i:j]] *)
Definition slice (s : string) (i j : nat) : string := String.substring i (j - i) s.

(** [strings.HasPrefix(s, prefix)], which is
    [len(s) >= len(prefix) && s[:len(prefix)] == prefix], byte by byte. *)
Fixpoint HasPrefix (s prefix : string) {struct prefix} : bool :=
  match prefix with
  | EmptyString => true
  | String c p =>
      match s with
      | EmptyString => false
      | String d s' => Ascii.eqb c d && HasPrefix s' p
      end
  end.

(** Comparison of bytes and the operator [<] on strings: lexicographic on
    the bytes. *)
Definition byte_ltb (a b : ascii) : bool := (nat_of_ascii a <? nat_of_ascii b)%nat.

Fixpoint ltb (a b : string) : bool :=
  match a, b with
  | EmptyString, EmptyString => false
  | EmptyString, String _ _ => true
  | String _ _, EmptyString => false
  | String x a', String y b' =>
      if byte_ltb x y then true
      else if byte_ltb y x then false
      else ltb a' b'
  end.

Definition newline : ascii := "010"%char.

(** [strings.Split(s, sep)] for a separator of one byte: the pieces
    between the separators, always at least one piece. *)
Fixpoint splitOn (sep : ascii) (s : string) : list string :=
  match s with
  | EmptyString => [EmptyString]
  | String c s' =>
      if Ascii.eqb c sep then EmptyString :: splitOn sep s'
      else match splitOn sep s' with
           | h :: t => String c h :: t
           | [] => [String c EmptyString]
           end
  end.

(** [strings.Join(l, sep)] *)
Fixpoint joinWith (sep : ascii) (l : list string) : string :=
  match l with
  | [] => EmptyString
  | [x] => x
  | x :: t => x +:+ String sep (joinWith sep t)
  end.

(** [x] holds no separator byte. *)
Fixpoint sepFree (sep : ascii) (x : string) : bool :=
  match x with
  | EmptyString => true
  | String c r => negb (Ascii.eqb c sep) && sepFree sep r
  end.

(** The line feed, and [strings.Split(s, "\n")], [strings.Join(l, "\n")]. *)
Definition SplitNL (s : string) : list string := splitOn newline s.
Definition JoinNL (l : list string) : string := joinWith newline l.

(** Width in bytes of the white-space rune encoded at the start of [s],
    0 when there is none. [strings.Fields] separates at
    [unicode.IsSpace]: the ASCII bytes 09..0D and 20, and in UTF-8
    U+0085, U+00A0 (C2 85, C2 A0), U+1680 (E1 9A 80),
    U+2000..U+200A, U+2028, U+2029, U+202F (E2 80 xx), U+205F (E2 81 9F)
    and U+3000 (E3 80 80). The lead bytes C2, E1, E2, E3 are no
    continuation bytes, so each of these byte patterns starts a rune
    wherever it occurs, and the scan can go byte by byte. *)
Definition spaceWidth (s : string) : nat :=
  match s with
  | EmptyString => 0
  | String c r =>
      let n := nat_of_ascii c in
      if (((9 <=? n) && (n <=? 13)) || (n =? 32))%nat then 1
      else match r with
           | String d r' =>
               let m := nat_of_ascii d in
               if ((n =? 194) && ((m =? 133) || (m =? 160)))%nat then 2
               else match r' with
                    | String e _ =>
                        let k := nat_of_ascii e in
                        if ((n =? 225) && (m =? 154) && (k =? 128))%nat then 3
                        else if ((n =? 226) && (m =? 128) &&
                                 (((128 <=? k) && (k <=? 138)) || (k =? 168) || (k =? 169) || (k =? 175)))%nat
                             then 3
                        else if ((n =? 226) && (m =? 129) && (k =? 159))%nat then 3
                        else if ((n =? 227) && (m =? 128) && (k =? 128))%nat then 3
                        else 0
                    | EmptyString => 0
                    end
           | EmptyString => 0
           end
  end.

(** The scan of [strings.Fields]: [skip] counts the bytes still to drop
    of a white-space rune, [cur] is the field being read, if any. *)
Fixpoint fieldsLoop (skip : nat) (cur : option string) (s : string) : list string :=
  match s with
  | EmptyString => match cur with Some f => [f] | None => [] end
  | String c r =>
      match skip with
      | S k => fieldsLoop k cur r
      | O =>
          match spaceWidth s with
          | O => fieldsLoop 0 (Some (default EmptyString cur +:+ String c EmptyString)) r
          | S k =>
              match cur with
              | Some f => f :: fieldsLoop k None r
              | None => fieldsLoop k None r
              end
          end
      end
  end.

(** [strings.Fields(s)] *)
Definition Fields (s : string) : list string := fieldsLoop 0 None s.

(** [sort.Sort(sort.Reverse(sort.StringSlice(l)))]: [Less(i, j)] of the
    reversed slice is [l[j] < l[i]], so the result is in descending
    order. Equal strings are the same value, so the result does not
    depend on the sorting algorithm; insertion sort computes it. *)
Fixpoint insertReverse (x : string) (l : list string) : list string :=
  match l with
  | [] => [x]
  | y :: t => if ltb x y then y :: insertReverse x t else x :: y :: t
  end.

Definition sortReverse (l : list string) : list string := foldr insertReverse [] l.

(** Ascending order, as [os.ReadDir] and [filepath.Glob] return names. *)
Fixpoint insertAsc (x : string) (l : list string) : list string :=
  match l with
  | [] => [x]
  | y :: t => if ltb y x then y :: insertAsc x t else x :: y :: t
  end.

Definition sortAsc (l : list string) : list string := foldr insertAsc [] l.

(** [filepath.Clean(path)] on a Unix host: drops empty and [.] elements,
    resolves [..] against the element before it, keeps a leading [/]. *)
Definition cleanStep (rooted : bool) (stack : list string) (elem : string) : list string :=
  if String.eqb elem "" || String.eqb elem "." then stack
  else if String.eqb elem ".." then
    match stack with
    | [] => if rooted then [] else [".."]
    | top :: rest => if String.eqb top ".." then ".." :: stack else rest
    end
  else elem :: stack.

Definition Clean (path : string) : string :=
  let rooted := HasPrefix path "/" in
  let stack := foldl (cleanStep rooted) [] (splitOn "/" path) in
  let out := (if rooted then "/" else "") +:+ joinWith "/" (rev stack) in
  if String.eqb out "" then "." else out.

(** [filepath.Join(elem...)]: leading empty elements are skipped, the rest
    is joined by [/] and cleaned; no non-empty element gives [""]. *)
Fixpoint Join (elem : list string) : string :=
  match elem with
  | [] => ""
  | e :: rest => if String.eqb e "" then Join rest else Clean (joinWith "/" elem)
  end.

(** [strings.Contains(s, sub)] *)
Fixpoint Contains (s sub : string) : bool :=
  HasPrefix s sub ||
  match s with
  | EmptyString => false
  | String _ s' => Contains s' sub
  end.

(** Descending order. *)
Definition geq (a b : string) : Prop := ltb a b = false.

End GoString.

(** ** internal/sbom/sbom.go: parseApkPackage *)

Module Sbom.
Import GoString.

(** [c >= '0' && c <= '9'] *)
Definition isDigit (c : ascii) : bool :=
  negb (byte_ltb c "0") && negb (byte_ltb "9" c).

(** The condition of the [if] inside the loop, at index [i]. *)
Definition splitsAt (s : string) (i : nat) : bool :=
  Ascii.eqb (byteAt s i) "-" && (i + 1 <? len s)%nat && isDigit (byteAt s (i + 1)).

(** The loop [for i := len(s) - 1; i >= 0; i--], entered with [i = n - 1]:
    the first index, going down, at which the condition holds. *)
Fixpoint scanDown (s : string) (n : nat) : option nat :=
  match n with
  | O => None
  | S i => if splitsAt s i then Some i else scanDown s i
  end.

Definition parseApkPackage (s : string) : string * string :=
  match scanDown s (len s) with
  | Some i => (slice s 0 i, slice s (i + 1) (len s))
  | None => (s, "unknown")
  end.

(** The specification's words: index [i] of [s] holds a hyphen and the byte
    right after it is a decimal digit. *)
Definition hyphenBeforeDigit (s : string) (i : nat) : Prop :=
  String.get i s = Some "-"%char /\
  exists d, String.get (i + 1) s = Some d /\ (48 <= nat_of_ascii d <= 57)%nat.

End Sbom.

(** ** The host: file tree, mount table, external commands

    What the Go code reaches through [os], [os/exec] and [/proc/mounts].
    File contents are kept symbolic where a codec is involved: a gzip
    stream and a cpio archive are terms, since [compress/gzip] and the
    [cpio] and [find] commands are outside the repository. *)

Module Host.
Import GoString.

Inductive inode :=
| Dir (mode : N)
| Regular (mode : N) (content : data)
| Symlink (target : string)
with data :=
| Bytes (s : string)                       (* any other content *)
| Cpio (entries : list (string * inode))   (* a cpio archive: names and members *)
| Gzip (payload : data)                    (* a complete gzip stream *)
| GzipTruncated.                           (* a gzip header followed by a damaged stream *)

Record World := mkWorld {
  files : gmap string inode;      (* the stored files, by path *)
  mtab : string;                  (* what /proc/mounts reads as *)
  mtab_readable : bool;           (* whether /proc/mounts can be read *)
  mount_src : gmap string string; (* for a mount point, the directory that shows through it *)
  busy : string -> bool;          (* mount points that umount cannot detach *)
  stuck : string -> bool;         (* paths that cannot be unlinked *)
  umask : N;                      (* permission bits cleared at creation *)
  has_cpio : bool                 (* whether sh, find and cpio can be run *)
}.

Definition with_files (f : gmap string inode) (w : World) : World :=
  mkWorld f (mtab w) (mtab_readable w) (mount_src w) (busy w) (stuck w) (umask w) (has_cpio w).

Definition with_mtab (t : string) (w : World) : World :=
  mkWorld (files w) t (mtab_readable w) (mount_src w) (busy w) (stuck w) (umask w) (has_cpio w).

(** What the process does to the host, in order. *)
Inductive event :=
| EvUmount (mp : string) (ok : bool)             (* exec umount mp *)
| EvReadDir (path : string) (ok : bool)
| EvRemoveAll (path : string) (gone : list string). (* os.RemoveAll(path) unlinked [gone] *)

(** The mount point of one line of /proc/mounts: its second field. *)
Definition lineMountPoint (line : string) : option string :=
  match Fields line with
  | _ :: mp :: _ => Some mp
  | _ => None
  end.

Definition tableMountPoints (text : string) : list string :=
  omap lineMountPoint (SplitNL text).

Definition mountedAt (w : World) (mp : string) : bool :=
  bool_decide (mp ∈ tableMountPoints (mtab w)).

(** The kernel detaches the newest mount at [mp]: the last line of the
    table with that mount point goes. *)
Fixpoint dropFirstLine (mp : string) (ls : list string) : list string :=
  match ls with
  | [] => []
  | l :: t => if bool_decide (lineMountPoint l = Some mp) then t else l :: dropFirstLine mp t
  end.

Definition dropLastLine (mp : string) (ls : list string) : list string :=
  rev (dropFirstLine mp (rev ls)).

(** [exec.Command("umount", mp).Run()]: fails on a busy mount point and on
    a path where nothing is mounted. *)
Definition exec_umount (mp : string) (w : World) : bool * World :=
  if busy w mp || negb (mountedAt w mp) then (false, w)
  else (true, with_mtab (JoinNL (dropLastLine mp (SplitNL (mtab w)))) w).

(** [q] is [root] or lies below it. *)
Definition under (root q : string) : bool :=
  String.eqb q root || HasPrefix q (root +:+ "/").

(** Path lookup crosses the innermost active mount above the path. *)
Definition covering (w : World) (p : string) : list (string * string) :=
  List.filter (fun ms => mountedAt w (fst ms) && under (fst ms) p) (map_to_list (mount_src w)).

Definition innermost (l : list (string * string)) : option (string * string) :=
  foldr (fun x acc =>
           match acc with
           | Some y => if (len (fst y) <? len (fst x))%nat then Some x else acc
           | None => Some x
           end) None l.

Definition resolve (w : World) (p : string) : string :=
  match innermost (covering w p) with
  | Some (mp, src) => src +:+ slice p (len mp) (len p)
  | None => p
  end.

Definition paths (w : World) : list string := sortAsc (map fst (map_to_list (files w))).

Definition activeMounts (w : World) : list (string * string) :=
  List.filter (fun ms => mountedAt w (fst ms)) (map_to_list (mount_src w)).

(** [q] is stored below an active mount point and so out of sight. *)
Definition hidden (am : list (string * string)) (q : string) : bool :=
  existsb (fun ms => HasPrefix q (fst ms +:+ "/")) am.

(** [os.RemoveAll(p)] walks from [p]: it reaches what is stored below
    [target], the place [p] resolves to, and what shows through the
    active mounts [am] below [p]. *)
Definition reached (am : list (string * string)) (target p q : string) : bool :=
  (under target q && negb (hidden am q))
  || existsb (fun ms => under p (fst ms) && HasPrefix q (snd ms +:+ "/")) am.

(** [q] stays: something reached at or below it cannot be unlinked, or an
    active mount point sits at or below it. *)
Definition kept (w : World) (am : list (string * string)) (target p q : string) : bool :=
  existsb (fun r => reached am target p r && under q r && stuck w r) (paths w)
  || existsb (fun ms => under q (fst ms)) am.

(** [os.RemoveAll(p)]: removes what it can and reports whether anything
    stayed. *)
Definition RemoveAll (p : string) (w : World) : bool * list event * World :=
  let am := activeMounts w in
  let target := resolve w p in
  let found := List.filter (reached am target p) (paths w) in
  let gone := List.filter (fun q => negb (kept w am target p q)) found in
  let left := List.filter (kept w am target p) found in
  let fs := foldr (fun q m => delete q m) (files w) gone in
  (match left with [] => true | _ => false end, [EvRemoveAll p gone], with_files fs w).

(** Names directly inside directory [d] of the stored tree; [.] and [..]
    are no entries. *)
Definition childName (d q : string) : option string :=
  if HasPrefix q (d +:+ "/") then
    let name := slice q (len d + 1) (len q) in
    if String.eqb name "" || String.eqb name "." || String.eqb name ".." || Contains name "/"
    then None else Some name
  else None.

(** [os.ReadDir(p)]: the entry names, sorted, or an error. *)
Definition ReadDir (p : string) (w : World) : option (list string) :=
  let d := resolve w p in
  match files w !! d with
  | Some (Dir _) => Some (omap (childName d) (paths w))
  | _ => None
  end.

End Host.

(** ** internal/rootfs/cleanup.go *)

Module Rootfs.
Import GoString Host.

Record Rootfs := mkRootfs {
  Path : string;     (* absolute path to the rootfs directory *)
  WorkDir : string;  (* parent working directory *)
  arch : string
}.

(** The first loop of [Unmount], over the lines of /proc/mounts. *)
Definition collectMountPoints (r : Rootfs) (lines : list string) : list string :=
  foldl (fun mountPoints line =>
           match Fields line with
           | _ :: mp :: _ =>
               if HasPrefix mp (Path r +:+ "/") then (mountPoints ++ [mp])%list else mountPoints
           | _ => mountPoints
           end) [] lines.

(** The second loop of [Unmount]: a failed umount only prints a warning. *)
Fixpoint umountEach (mountPoints : list string) (w : World) : list event * World :=
  match mountPoints with
  | [] => ([], w)
  | mp :: rest =>
      let (ok, w1) := exec_umount mp w in
      let (tr, w2) := umountEach rest w1 in
      (EvUmount mp ok :: tr, w2)
  end.

Definition Unmount (r : Rootfs) (w : World) : list event * World :=
  if negb (mtab_readable w) then ([], w)
  else
    let mountPoints := collectMountPoints r (SplitNL (mtab w)) in
    umountEach (sortReverse mountPoints) w.

(** The live mounts that are strict descendants of the rootfs path, in the
    order of the mount table. *)
Definition descendantMounts (r : Rootfs) (w : World) : list string :=
  List.filter (fun mp => HasPrefix mp (Path r +:+ "/")) (tableMountPoints (mtab w)).

Definition umountOk (e : event) : bool :=
  match e with
  | EvUmount _ ok => ok
  | _ => true
  end.

(** The unmount commands a call issues, in order. *)
Definition umountsOf (tr : list event) : list string :=
  omap (fun e => match e with EvUmount mp _ => Some mp | _ => None end) tr.

Definition Cleanup (r : Rootfs) (removeWorkDir : bool) (w : World) : list event * World :=
  let (tr1, w1) := Unmount r w in
  if removeWorkDir then
    let '(_, tr2, w2) := RemoveAll (WorkDir r) w1 in ((tr1 ++ tr2)%list, w2)
  else (tr1, w1).

(** The loop of [CleanupRootfs] over the entries of [devPath]. *)
Fixpoint removeEntries (devPath : string) (entries : list string) (w : World)
  : list event * World :=
  match entries with
  | [] => ([], w)
  | e :: rest =>
      let '(_, tr1, w1) := RemoveAll (Join [devPath; e]) w in
      let (tr2, w2) := removeEntries devPath rest w1 in
      ((tr1 ++ tr2)%list, w2)
  end.

(** [CleanupRootfs] returns its error result last; [None] is [nil]. *)
Definition CleanupRootfs (r : Rootfs) (w : World) : list event * World * option string :=
  let cachePath := Join [Path r; "var"; "cache"; "apk"] in
  let '(_, tr1, w1) := RemoveAll cachePath w in
  let devPath := Join [Path r; "dev"] in
  let entries := default [] (ReadDir devPath w1) in
  let tr2 := [EvReadDir devPath (bool_decide (is_Some (ReadDir devPath w1)))] in
  let (tr3, w2) := removeEntries devPath entries w1 in
  ((tr1 ++ tr2 ++ tr3)%list, w2, None).

End Rootfs.

(** ** The command: runBuild *)

Module Main.
Import Host Rootfs.

(** The steps of [runBuild] that are taken here as given: each one either
    fails, or leaves the host in some state. *)
Inductive stage :=
| ParseArgs | CheckRoot | LoadConfig | CheckHostDeps | Bootstrap
| InstallPackages | SetupUsers | EnableServices | GenerateSBOM
| MkStaging | BootloaderSetup | IsoBuild.

Record Build := mkBuild {
  rfs : Rootfs;                              (* what rootfs.Bootstrap returns *)
  hasServices : bool;                        (* cfg.Services != nil *)
  sbomEnabled : bool;                        (* cfg.SBOMEnabled() *)
  runStage : stage -> World -> option World  (* None: the step fails *)
}.

Inductive action :=
| Done (s : stage)
| Fatal (s : stage)     (* fatal(...) or os.Exit(1): deferred calls do not run *)
| Os (e : event).

Definition outcome : Type := nat * list action * World.

(** One step followed by the rest of the function. *)
Definition attempt (b : Build) (s : stage) (w : World) (k : World -> outcome) : outcome :=
  match runStage b s w with
  | None => (1, [Fatal s], w)
  | Some w1 => let '(code, tr, w2) := k w1 in (code, Done s :: tr, w2)
  end.

Definition hostStep {A} (res : list event * World) (k : World -> nat * list action * A)
  : nat * list action * A :=
  let '(code, tr, w2) := k (snd res) in (code, (map Os (fst res) ++ tr)%list, w2).

Definition runBuild (b : Build) (w : World) : outcome :=
  attempt b ParseArgs w (fun w =>
  attempt b CheckRoot w (fun w =>
  attempt b LoadConfig w (fun w =>
  attempt b CheckHostDeps w (fun w =>
  attempt b Bootstrap w (fun w =>
  (* defer rfs.Cleanup(true) *)
  attempt b InstallPackages w (fun w =>
  attempt b SetupUsers w (fun w =>
  (if hasServices b then attempt b EnableServices w else fun k => k w) (fun w =>
  (if sbomEnabled b then attempt b GenerateSBOM w else fun k => k w) (fun w =>
  attempt b MkStaging w (fun w =>
  hostStep (Unmount (rfs b) w) (fun w =>
  hostStep (let '(tr, w1, _) := CleanupRootfs (rfs b) w in (tr, w1)) (fun w =>
  attempt b BootloaderSetup w (fun w =>
  attempt b IsoBuild w (fun w =>
  (* return: the deferred call runs *)
  hostStep (Cleanup (rfs b) true w) (fun w => (0, [], w)))))))))))))))).



End Main.

(** ** File operations of package [os] used by the rootfs package *)

Module HostFs.
Import GoString Host.

(** Results in Go style: a value or an error message. *)
Definition result (A : Type) : Type := string + A.

(** A command over the host that may stop with an error. *)
Definition M (A : Type) : Type := World -> result A * World.

Definition ret {A} (a : A) : M A := fun w => (inr a, w).
Definition fail {A} (msg : string) : M A := fun w => (inl msg, w).
Definition bind {A B} (c : M A) (k : A -> M B) : M B :=
  fun w => match c w with
           | (inl msg, w1) => (inl msg, w1)
           | (inr a, w1) => k a w1
           end.
Definition get : M World := fun w => (inr w, w).
Definition put (w : World) : M unit := fun _ => (inr tt, w).

(** [if err != nil { return fmt.Errorf(msg, err) }] around an operation. *)
Definition orFail {A} (msg : string) (c : M A) : M A :=
  fun w => match c w with
           | (inl _, w1) => (inl msg, w1)
           | ok => ok
           end.

Notation "'let*' x ':=' c 'in' k" := (bind c (fun x => k))
  (at level 10, x name, c at level 100, k at level 200).
Notation "'exec' c 'in' k" := (bind c (fun _ => k))
  (at level 10, c at level 100, k at level 200).

(** [perm] with the bits of the umask cleared. *)
Definition masked (w : World) (perm : N) : N := N.ldiff perm (umask w).

(** [filepath.Dir(p)]: the cleaned part of [p] up to its last slash. *)
Definition parentDir (p : string) : string :=
  match rev (splitOn "/" p) with
  | _ :: (_ :: _) as above => Clean (joinWith "/" (rev above) +:+ "/")
  | _ => "."
  end.

(** The file a path names, after the symbolic links at its end; [None]
    after 40 links, as the kernel gives up. *)
Fixpoint followLinks (fuel : nat) (w : World) (p : string) : option string :=
  match files w !! resolve w p with
  | Some (Symlink t) =>
      match fuel with
      | O => None
      | S n => followLinks n w (if HasPrefix t "/" then Clean t else Join [parentDir p; t])
      end
  | _ => Some p
  end.

Definition lookupPath (w : World) (p : string) : option inode :=
  match followLinks 40 w p with
  | Some q => files w !! resolve w q
  | None => None
  end.

Definition isDirectory (w : World) (p : string) : bool :=
  String.eqb p "/" || String.eqb p "." ||
  match lookupPath w p with Some (Dir _) => true | _ => false end.

(** [_, err := os.Stat(p); os.IsNotExist(err)]: the chain of links ends at a
    path where nothing is stored. *)
Definition statNotExist (p : string) : M bool :=
  fun w => (inr (match followLinks 40 w p with
                 | Some q => bool_decide (files w !! resolve w q = None)
                 | None => false
                 end), w).

(** [p] and the directories above it, outermost first. *)
Definition ancestors (p : string) : list string :=
  let rooted := HasPrefix p "/" in
  let elems := List.filter (fun c => negb (String.eqb c "")) (splitOn "/" (Clean p)) in
  snd (foldl (fun st c =>
                let nxt := if String.eqb (fst st) "" then (if rooted then "/" +:+ c else c)
                           else fst st +:+ "/" +:+ c in
                (nxt, (snd st ++ [nxt])%list)) ("", []) elems).

(** [os.MkdirAll(p, perm)] *)
Definition mkdirStep (perm : N) (acc : result unit * World) (d : string) : result unit * World :=
  match acc with
  | (inl e, w) => (inl e, w)
  | (inr _, w) =>
      match lookupPath w d with
      | Some (Dir _) => (inr tt, w)
      | Some _ => (inl "not a directory", w)
      | None =>
          if String.eqb d "." || String.eqb d ".." then (inr tt, w)
          else (inr tt, with_files (<[resolve w d := Dir (masked w perm)]> (files w)) w)
      end
  end.

Definition MkdirAll (p : string) (perm : N) : M unit :=
  fun w => foldl (mkdirStep perm) (inr tt, w) (ancestors p).

(** [os.ReadFile(p)] *)
Definition ReadFile (p : string) : M data :=
  fun w => match lookupPath w p with
           | Some (Regular _ d) => (inr d, w)
           | _ => (inl "read", w)
           end.

(** [os.Open(p)] of a regular file, giving what is then read from it. The
    paths opened below are regular files: each was read or created just
    before. *)
Definition Open (p : string) : M data :=
  fun w => match lookupPath w p with
           | Some (Regular _ d) => (inr d, w)
           | _ => (inl "open", w)
           end.

(** Opening [p] with [O_CREATE|O_TRUNC] and writing [d]: an existing file
    keeps its mode, a new one gets [perm] less the umask. This is what
    [os.Create] (with 0666) and [os.WriteFile] do: the permission argument
    counts only when the file is created. *)
Definition writeThrough (p : string) (d : data) (perm : N) : M unit :=
  fun w => match followLinks 40 w p with
           | None => (inl "too many links", w)
           | Some q =>
               match files w !! resolve w q with
               | Some (Regular m _) => (inr tt, with_files (<[resolve w q := Regular m d]> (files w)) w)
               | Some _ => (inl "is a directory", w)
               | None =>
                   if isDirectory w (parentDir q)
                   then (inr tt, with_files (<[resolve w q := Regular (masked w perm) d]> (files w)) w)
                   else (inl "no such directory", w)
               end
           end.

(** [os.Create(p)] *)
Definition Create (p : string) : M unit := writeThrough p (Bytes "") 438.

(** [os.WriteFile(p, d, perm)] *)
Definition WriteFile (p : string) (d : data) (perm : N) : M unit := writeThrough p d perm.

(** [filepath.Glob(dir + "/" + prefix + "*")], for a directory name free of
    pattern characters: the entries of [dir] that start with [prefix],
    sorted. *)
Definition Glob (dir pfx : string) : M (list string) :=
  fun w => (inr (map (fun n => dir +:+ "/" +:+ n)
                     (List.filter (fun n => HasPrefix n pfx) (default [] (ReadDir dir w)))), w).

(** [cpio -idm --quiet] run in [dir] on archive [d]: every member is
    created below [dir], with the directories leading to it. *)
Definition extractMember (dir : string) (acc : result unit * World) (member : string * inode)
  : result unit * World :=
  match acc with
  | (inl e, w) => (inl e, w)
  | (inr _, w) =>
      let target := Join [dir; fst member] in
      match MkdirAll (parentDir target) 511 w with
      | (inl e, w1) => (inl e, w1)
      | (inr _, w1) => (inr tt, with_files (<[resolve w1 target := snd member]> (files w1)) w1)
      end
  end.

Definition cpioExtract (dir : string) (d : data) : M unit :=
  fun w => if negb (has_cpio w) then (inl "cpio: not found", w)
           else match d with
                | Cpio members => foldl (extractMember dir) (inr tt, w) members
                | _ => (inl "cpio: malformed archive", w)
                end.

(** The name [find .] and [cpio -o] give to path [q] below [dir]. *)
Definition memberName (dir q : string) : option string :=
  if String.eqb q dir then Some "."
  else if HasPrefix q (dir +:+ "/") then Some (slice q (len dir + 1) (len q))
  else None.

(** [sh -c "cd dir && find . | cpio -o -H newc --quiet > out"] *)
Definition cpioPack (dir out : string) : M unit :=
  fun w => if negb (has_cpio w) then (inl "sh: not found", w)
           else if negb (isDirectory w dir) then (inl "cd: no such directory", w)
           else
             let members :=
               omap (fun q => match memberName (resolve w dir) q, files w !! q with
                              | Some n, Some i => Some (n, i)
                              | _, _ => None
                              end) (paths w) in
             writeThrough out (Cpio members) 438 w.

End HostFs.

(** ** The rootfs package: the live-boot init script and PatchInitramfs *)

Module Initramfs.
Import GoString Host HostFs Rootfs.

(** The double quote character, for the text of the script. *)
Definition dq : string := String (ascii_of_nat 34) EmptyString.

(** The lines of the constant [customInit]. *)
Definition customInitLines : list string :=
  [
    "#!/bin/sh";
    "# DistroRun Live CD Init";
    EmptyString;
    "# Install busybox symlinks (mount, sleep, modprobe, etc.)";
    "/bin/busybox --install -s";
    EmptyString;
    "export PATH=/usr/bin:/bin:/usr/sbin:/sbin";
    EmptyString;
    "# Mount essential virtual filesystems";
    "mount -t devtmpfs devtmpfs /dev";
    "mount -t proc proc /proc";
    "mount -t sysfs sysfs /sys";
    EmptyString;
    "# Load kernel modules for CD-ROM and squashfs";
    "for mod in loop squashfs isofs sr_mod cdrom ata_piix ahci virtio_blk virtio_pci virtio_scsi; do";
    "    modprobe $mod 2>/dev/null";
    "done";
    EmptyString;
    "# Wait for CD-ROM device to appear (up to 10 seconds)";
    "echo " +:+ dq +:+ "DistroRun: Waiting for CD-ROM..." +:+ dq;
    "i=0";
    "while [ ! -b /dev/sr0 ] && [ $i -lt 10 ]; do";
    "    sleep 1";
    "    i=$((i + 1))";
    "done";
    EmptyString;
    "if [ ! -b /dev/sr0 ]; then";
    "    echo " +:+ dq +:+ "ERROR: CD-ROM device /dev/sr0 not found" +:+ dq;
    "    echo " +:+ dq +:+ "Dropping to emergency shell..." +:+ dq;
    "    exec /bin/sh";
    "fi";
    EmptyString;
    "# Mount the CD-ROM (ISO9660)";
    "mkdir -p /media/cdrom";
    "mount -t iso9660 -o ro /dev/sr0 /media/cdrom";
    EmptyString;
    "if [ ! -f /media/cdrom/rootfs.squashfs ]; then";
    "    echo " +:+ dq +:+ "ERROR: rootfs.squashfs not found on CD" +:+ dq;
    "    echo " +:+ dq +:+ "Dropping to emergency shell..." +:+ dq;
    "    exec /bin/sh";
    "fi";
    EmptyString;
    "# Mount squashfs as read-only lower layer";
    "mkdir -p /lower";
    "mount -t squashfs -o ro,loop /media/cdrom/rootfs.squashfs /lower";
    EmptyString;
    "# Create tmpfs for writable upper layer";
    "mkdir -p /upper";
    "mount -t tmpfs tmpfs /upper";
    "mkdir -p /upper/upper /upper/work";
    EmptyString;
    "# Create overlay: writable root = tmpfs on top of squashfs";
    "mkdir -p /sysroot";
    "mount -t overlay overlay \";
    "    -o lowerdir=/lower,upperdir=/upper/upper,workdir=/upper/work \";
    "    /sysroot";
    EmptyString;
    "# Move virtual filesystems into the new root";
    "mkdir -p /sysroot/dev /sysroot/proc /sysroot/sys";
    "mount --move /dev /sysroot/dev";
    "mount --move /proc /sysroot/proc";
    "mount --move /sys /sysroot/sys";
    EmptyString;
    "echo " +:+ dq +:+ "DistroRun: Switching to root filesystem..." +:+ dq;
    "exec switch_root /sysroot /sbin/init"
  ].

(** [customInit]: every line ends with a line feed. *)
Definition customInit : string :=
  foldr (fun l rest => l +:+ String newline rest) EmptyString customInitLines.

(** [gzip.NewReader] reads the header; the stream is read by [io.Copy]. *)
Inductive gzipReader :=
| GzStream (payload : data)
| GzDamaged.

Definition gzipNewReader (d : data) : result gzipReader :=
  match d with
  | Gzip payload => inr (GzStream payload)
  | GzipTruncated => inr GzDamaged
  | _ => inl "gzip: invalid header"
  end.

(** [io.Copy(cpioFile, gz)] into the file just created at [dst] *)
Definition copyTo (dst : string) (gz : gzipReader) : M unit :=
  match gz with
  | GzStream payload => writeThrough dst payload 438
  | GzDamaged => fail "unexpected EOF"
  end.

(** [gzip.NewWriter(outFile)], [Write(cpioData)], [Close()] on the file just
    created at [dst] *)
Definition gzipTo (dst : string) (cpioData : data) : M unit :=
  writeThrough dst (Gzip cpioData) 438.

(** The search for the initramfs file. *)
Definition locateInitramfs (bootDir : string) : M string :=
  let initramfsPath := Join [bootDir; "initramfs-lts"] in
  let* missing := statNotExist initramfsPath in
  if (missing : bool) then
    let* matches := Glob bootDir "initramfs-" in
    match matches with
    | [] => fail ("initramfs not found in " +:+ bootDir)
    | first :: _ => ret first
    end
  else ret initramfsPath.

(** [PatchInitramfs] from the read of the file to the label [extractCpio]:
    the path of the cpio archive to extract. *)
Definition unpackSource (initramfsPath workDir : string) : M string :=
  let* compressedData := orFail "reading initramfs" (ReadFile initramfsPath) in
  let cpioPath := Join [workDir; "initramfs.cpio"] in
  let* gzFile := orFail "opening initramfs" (Open initramfsPath) in
  match gzipNewReader gzFile with
  | inl _ =>
      (* might not be gzip: try as raw cpio *)
      ret initramfsPath
  | inr gz =>
      exec orFail "creating cpio file" (Create cpioPath) in
      exec orFail "decompressing initramfs" (copyTo cpioPath gz) in
      ret cpioPath
  end.

(** [PatchInitramfs] from the label [extractCpio] to its last statement. *)
Definition repack (initramfsPath workDir cpioPath : string) : M unit :=
  let extractDir := Join [workDir; "extracted"] in
  exec orFail "creating extract dir" (MkdirAll extractDir 493) in
  let* cpioIn := orFail "opening cpio" (Open cpioPath) in
  exec orFail "extracting cpio" (cpioExtract extractDir cpioIn) in
  let initPath := Join [extractDir; "init"] in
  exec orFail "writing custom init" (WriteFile initPath (Bytes customInit) 493) in
  let newCpioPath := Join [workDir; "new-initramfs.cpio"] in
  exec orFail "creating new cpio" (cpioPack extractDir newCpioPath) in
  let* cpioData := orFail "reading new cpio" (ReadFile newCpioPath) in
  exec orFail "creating new initramfs" (Create initramfsPath) in
  exec orFail "compressing initramfs" (gzipTo initramfsPath cpioData) in
  ret tt.

(** Both parts; the deferred removal of [workDir] is in [PatchInitramfs]
    below. *)
Definition patchSteps (initramfsPath workDir : string) : M unit :=
  let* cpioPath := unpackSource initramfsPath workDir in
  repack initramfsPath workDir cpioPath.

(** [PatchInitramfs]: [None] is the [nil] error. *)
Definition PatchInitramfs (r : Rootfs) (w : World) : option string * World :=
  let bootDir := Join [Path r; "boot"] in
  match locateInitramfs bootDir w with
  | (inl e, w1) => (Some e, w1)
  | (inr initramfsPath, w1) =>
      let workDir := Join [WorkDir r; "initramfs-work"] in
      match orFail "creating initramfs work dir" (MkdirAll workDir 493) w1 with
      | (inl e, w2) => (Some e, w2)
      | (inr _, w2) =>
          let (res, w3) := patchSteps initramfsPath workDir w2 in
          (* defer os.RemoveAll(workDir) *)
          let '(_, _, w4) := RemoveAll workDir w3 in
          (match res with inl e => Some e | inr _ => None end, w4)
      end
  end.

End Initramfs.

(** ** The rootfs package: downloadMinirootfs *)

Module Download.
Import GoString Host HostFs Rootfs.

(** One entry of Alpine's latest-releases.yaml. *)
Record alpineRelease := mkRelease {
  Flavor : string;
  File : string
}.

Record response := mkResponse {
  StatusCode : nat;
  Body : option string   (* None: reading the body fails *)
}.

(** The network and the YAML decoder, as the function meets them. *)
Record Net := mkNet {
  httpGet : string -> option response;                    (* None: the request fails *)
  yamlUnmarshal : string -> option (list alpineRelease)   (* None: the document does not parse *)
}.

Definition StatusOK : nat := 200.

(** The loop over [releases]: the file of the first entry with the
    minirootfs flavor, [""] when there is none. *)
Fixpoint findMinirootfs (releases : list alpineRelease) : string :=
  match releases with
  | [] => ""
  | rel :: rest =>
      if String.eqb (Flavor rel) "alpine-minirootfs" then File rel
      else findMinirootfs rest
  end.

(** The result: the error ([None] is [nil]), the URLs requested in order,
    and the host afterwards. *)
Definition downloadMinirootfs (r : Rootfs) (dest : string) (net : Net) (w : World)
  : option string * list string * World :=
  let baseURL := "https://dl-cdn.alpinelinux.org/alpine/latest-stable/releases/" +:+ arch r in
  let releasesURL := baseURL +:+ "/latest-releases.yaml" in
  match httpGet net releasesURL with
  | None => (Some "fetching releases index", [releasesURL], w)
  | Some resp =>
      if negb (StatusCode resp =? StatusOK)%nat
      then (Some "fetching releases index: HTTP", [releasesURL], w)
      else
        match Body resp with
        | None => (Some "reading releases index", [releasesURL], w)
        | Some body =>
            match yamlUnmarshal net body with
            | None => (Some "parsing releases index", [releasesURL], w)
            | Some releases =>
                let filename := findMinirootfs releases in
                if String.eqb filename ""
                then (Some "minirootfs entry not found in releases index", [releasesURL], w)
                else
                  let tarballURL := baseURL +:+ "/" +:+ filename in
                  let urls := [releasesURL; tarballURL] in
                  match httpGet net tarballURL with
                  | None => (Some "downloading minirootfs", urls, w)
                  | Some resp2 =>
                      if negb (StatusCode resp2 =? StatusOK)%nat
                      then (Some "downloading minirootfs: HTTP", urls, w)
                      else
                        match Create dest w with
                        | (inl _, w1) => (Some "creating tarball file", urls, w1)
                        | (inr _, w1) =>
                            match Body resp2 with
                            | None => (Some "writing tarball", urls, w1)
                            | Some tarball =>
                                match writeThrough dest (Bytes tarball) 438 w1 with
                                | (inl _, w2) => (Some "writing tarball", urls, w2)
                                | (inr _, w2) => (None, urls, w2)
                                end
                            end
                        end
                  end
            end
        end
  end.

Definition minirootfs : string := "alpine-minirootfs".

Definition failed (res : option string * list string * World) : Prop :=
  is_Some (fst (fst res)).

Definition requested (res : option string * list string * World) : list string :=
  snd (fst res).

End Download.

(** ** The live-boot init script as a program

    The text of [customInit] is a shell script. It is read here as a
    program over a small command language; [render] prints the program
    back, and it prints the lines of [customInit] (see [script_is_customInit]
    below). *)

Module LiveInit.
Import GoString Initramfs.

Inductive cond :=
| NotBlockDevice (path : string)    (* [ ! -b path ] *)
| NotRegularFile (path : string)    (* [ ! -f path ] *)
| CounterLt (n : nat)               (* [ $i -lt n ] *)
| AndThen (a b : cond).             (* a && b *)

Inductive cmd :=
| Note (line : string)              (* a comment, an empty line, the interpreter line *)
| Run (lines : list string)         (* a command that does not decide what runs next *)
| Assign (n : nat)                  (* i=n *)
| Incr                              (* i=$((i + 1)) *)
| Sleep (secs : nat)                (* sleep secs *)
| ForEach (items : list string) (body : list cmd)   (* for mod in items; do body; done *)
| While (c : cond) (body : list cmd)
| If (c : cond) (body : list cmd)
| Exec (line : string)              (* exec ...: the shell is replaced *)
| Bind (item : string).             (* the loop variable takes a value; not written in a script *)

Definition decimal (n : nat) : string := NilEmpty.string_of_uint (Nat.to_uint n).

Fixpoint renderCond (c : cond) : string :=
  match c with
  | NotBlockDevice p => "[ ! -b " +:+ p +:+ " ]"
  | NotRegularFile p => "[ ! -f " +:+ p +:+ " ]"
  | CounterLt n => "[ $i -lt " +:+ decimal n +:+ " ]"
  | AndThen a b => renderCond a +:+ " && " +:+ renderCond b
  end.

Definition indent (l : string) : string :=
  if String.eqb l EmptyString then l else "    " +:+ l.

Fixpoint render (c : cmd) : list string :=
  match c with
  | Note l => [l]
  | Run ls => ls
  | Assign n => ["i=" +:+ decimal n]
  | Incr => ["i=$((i + 1))"]
  | Sleep n => ["sleep " +:+ decimal n]
  | ForEach items body =>
      ("for mod in " +:+ joinWith " " items +:+ "; do")
        :: (map indent (flat_map render body) ++ ["done"])%list
  | While c body =>
      ("while " +:+ renderCond c +:+ "; do")
        :: (map indent (flat_map render body) ++ ["done"])%list
  | If c body =>
      ("if " +:+ renderCond c +:+ "; then")
        :: (map indent (flat_map render body) ++ ["fi"])%list
  | Exec l => [l]
  | Bind _ => []
  end.

Definition script : list cmd :=
  [ Note "#!/bin/sh";
    Note "# DistroRun Live CD Init";
    Note EmptyString;
    Note "# Install busybox symlinks (mount, sleep, modprobe, etc.)";
    Run ["/bin/busybox --install -s"];
    Note EmptyString;
    Run ["export PATH=/usr/bin:/bin:/usr/sbin:/sbin"];
    Note EmptyString;
    Note "# Mount essential virtual filesystems";
    Run ["mount -t devtmpfs devtmpfs /dev"];
    Run ["mount -t proc proc /proc"];
    Run ["mount -t sysfs sysfs /sys"];
    Note EmptyString;
    Note "# Load kernel modules for CD-ROM and squashfs";
    ForEach ["loop"; "squashfs"; "isofs"; "sr_mod"; "cdrom"; "ata_piix"; "ahci";
             "virtio_blk"; "virtio_pci"; "virtio_scsi"]
      [ Run ["modprobe $mod 2>/dev/null"] ];
    Note EmptyString;
    Note "# Wait for CD-ROM device to appear (up to 10 seconds)";
    Run ["echo " +:+ dq +:+ "DistroRun: Waiting for CD-ROM..." +:+ dq];
    Assign 0;
    While (AndThen (NotBlockDevice "/dev/sr0") (CounterLt 10))
      [ Sleep 1; Incr ];
    Note EmptyString;
    If (NotBlockDevice "/dev/sr0")
      [ Run ["echo " +:+ dq +:+ "ERROR: CD-ROM device /dev/sr0 not found" +:+ dq];
        Run ["echo " +:+ dq +:+ "Dropping to emergency shell..." +:+ dq];
        Exec "exec /bin/sh" ];
    Note EmptyString;
    Note "# Mount the CD-ROM (ISO9660)";
    Run ["mkdir -p /media/cdrom"];
    Run ["mount -t iso9660 -o ro /dev/sr0 /media/cdrom"];
    Note EmptyString;
    If (NotRegularFile "/media/cdrom/rootfs.squashfs")
      [ Run ["echo " +:+ dq +:+ "ERROR: rootfs.squashfs not found on CD" +:+ dq];
        Run ["echo " +:+ dq +:+ "Dropping to emergency shell..." +:+ dq];
        Exec "exec /bin/sh" ];
    Note EmptyString;
    Note "# Mount squashfs as read-only lower layer";
    Run ["mkdir -p /lower"];
    Run ["mount -t squashfs -o ro,loop /media/cdrom/rootfs.squashfs /lower"];
    Note EmptyString;
    Note "# Create tmpfs for writable upper layer";
    Run ["mkdir -p /upper"];
    Run ["mount -t tmpfs tmpfs /upper"];
    Run ["mkdir -p /upper/upper /upper/work"];
    Note EmptyString;
    Note "# Create overlay: writable root = tmpfs on top of squashfs";
    Run ["mkdir -p /sysroot"];
    Run ["mount -t overlay overlay \";
         "    -o lowerdir=/lower,upperdir=/upper/upper,workdir=/upper/work \";
         "    /sysroot"];
    Note EmptyString;
    Note "# Move virtual filesystems into the new root";
    Run ["mkdir -p /sysroot/dev /sysroot/proc /sysroot/sys"];
    Run ["mount --move /dev /sysroot/dev"];
    Run ["mount --move /proc /sysroot/proc"];
    Run ["mount --move /sys /sysroot/sys"];
    Note EmptyString;
    Run ["echo " +:+ dq +:+ "DistroRun: Switching to root filesystem..." +:+ dq];
    Exec "exec switch_root /sysroot /sbin/init" ].

(** What the script can observe of the machine: whether a path is a block
    device or a regular file, [t] seconds of sleep after the start. *)
Record Machine := mkMachine {
  blockDevice : string -> nat -> bool;
  regularFile : string -> nat -> bool
}.

Record State := mkState {
  counter : nat;     (* the shell variable i *)
  clock : nat;       (* seconds slept so far *)
  loopVar : string   (* the shell variable mod *)
}.

Fixpoint test (m : Machine) (st : State) (c : cond) : bool :=
  match c with
  | NotBlockDevice p => negb (blockDevice m p (clock st))
  | NotRegularFile p => negb (regularFile m p (clock st))
  | CounterLt n => (counter st <? n)%nat
  | AndThen a b => test m st a && test m st b
  end.

(** What a run does, in order. *)
Inductive step :=
| Ran (lines : list string) (item : string)   (* a command, with the value of $mod *)
| Slept (secs : nat)
| Replaced (line : string).                   (* exec: the script ends here *)

(** The shell runs the commands of [todo] from left to right; [fuel] bounds
    the number of commands taken up, and [None] means it ran out. *)
Fixpoint run (fuel : nat) (m : Machine) (st : State) (todo : list cmd) : option (list step) :=
  match fuel with
  | O => None
  | S f =>
      match todo with
      | [] => Some []
      | c :: rest =>
          match c with
          | Note _ => run f m st rest
          | Run ls => cons (Ran ls (loopVar st)) <$> run f m st rest
          | Assign n => run f m (mkState n (clock st) (loopVar st)) rest
          | Incr => run f m (mkState (counter st + 1) (clock st) (loopVar st)) rest
          | Sleep n => cons (Slept n) <$> run f m (mkState (counter st) (clock st + n) (loopVar st)) rest
          | ForEach items body =>
              run f m st (flat_map (fun it => Bind it :: body) items ++ rest)%list
          | While c body =>
              if test m st c then run f m st (body ++ While c body :: rest)%list
              else run f m st rest
          | If c body =>
              if test m st c then run f m st (body ++ rest)%list
              else run f m st rest
          | Exec l => Some [Replaced l]
          | Bind it => run f m (mkState (counter st) (clock st) it) rest
          end
      end
  end.

Definition boot (fuel : nat) (m : Machine) : option (list step) :=
  run fuel m (mkState 0 0 EmptyString) script.

#[global] Instance step_eq_dec : EqDecision step.
Proof. solve_decision. Defined.

Definition isSleep (s : step) : bool :=
  match s with
  | Slept _ => true
  | _ => false
  end.

(** The number of polls of a run: the sleeps it took. *)
Definition polls (tr : list step) : nat := length (List.filter isSleep tr).

Definition ran (tr : list step) (line : string) : bool :=
  existsb (fun s => match s with
                    | Ran [l] _ => String.eqb l line
                    | _ => false
                    end) tr.

Definition mountMedia : string := "mount -t iso9660 -o ro /dev/sr0 /media/cdrom".
Definition mountSquash : string :=
  "mount -t squashfs -o ro,loop /media/cdrom/rootfs.squashfs /lower".
Definition squashImage : string := "/media/cdrom/rootfs.squashfs".

(** What the specification says of a run [tr] on machine [m]. *)
Definition boundedWait (m : Machine) (tr : list step) : Prop :=
  (* every sleep is of one second, and there are at most ten *)
  forallb (fun s => match s with Slept n => (n =? 1)%nat | _ => true end) tr = true /\
  (polls tr <= 10)%nat /\
  (* no device within the ten seconds: ten polls, then the recovery shell *)
  ((forall t, (t <= 10)%nat -> blockDevice m "/dev/sr0" t = false) ->
   polls tr = 10%nat /\ last tr = Some (Replaced "exec /bin/sh") /\ ran tr mountMedia = false) /\
  (* the device is there when the wait ends: the media is mounted *)
  (blockDevice m "/dev/sr0" (polls tr) = true -> ran tr mountMedia = true) /\
  (* media mounted but no image on it: the recovery shell *)
  (ran tr mountMedia = true -> regularFile m squashImage (polls tr) = false ->
   last tr = Some (Replaced "exec /bin/sh") /\ ran tr mountSquash = false) /\
  (* image found: the run ends in switch_root *)
  (ran tr mountMedia = true -> regularFile m squashImage (polls tr) = true ->
   last tr = Some (Replaced "exec switch_root /sysroot /sbin/init")) /\
  (* nothing but the wait is done twice *)
  NoDup (List.filter (fun s => negb (isSleep s)) tr).

End LiveInit.

(** ** Hosts, archives and indexes used as examples *)

Module Scenarios.
Import GoString Host HostFs Rootfs Main Initramfs Download LiveInit.

(** The rootfs that Bootstrap makes for a configuration named live. *)
Definition rootfsLive : Rootfs :=
  mkRootfs "/tmp/distrorun-live/rootfs" "/tmp/distrorun-live" "x86_64".

(** A host of which only the mount table matters; [busyAt] tells where
    umount fails. *)
Definition hostWith (table : list string) (busyAt : string -> bool) : World :=
  mkWorld ∅ (JoinNL table) true ∅ busyAt (fun _ => false) 18 true.

(** Three mounts below the rootfs path: a, a/b and c. *)
Definition tableABC : list string :=
  [ "tmpfs /tmp/distrorun-live/rootfs/a tmpfs rw 0 0";
    "tmpfs /tmp/distrorun-live/rootfs/a/b tmpfs rw 0 0";
    "tmpfs /tmp/distrorun-live/rootfs/c tmpfs rw 0 0";
    EmptyString ].

(** The mounts of setupChrootMounts: proc, dev and sys, in that order. *)
Definition tableChroot : list string :=
  [ "proc /tmp/distrorun-live/rootfs/proc proc rw 0 0";
    "devtmpfs /tmp/distrorun-live/rootfs/dev devtmpfs rw 0 0";
    "sysfs /tmp/distrorun-live/rootfs/sys sysfs rw 0 0";
    EmptyString ].

(** The host of a build after Bootstrap: the host's /dev with two device
    nodes, the rootfs tree with a package cache, and proc, dev and sys
    mounted below the rootfs path, dev as a bind mount of the host's /dev. *)
Definition hostFiles : gmap string inode :=
  list_to_map
    [ ("/dev", Dir 493);
      ("/dev/null", Regular 438 (Bytes EmptyString));
      ("/dev/sda", Regular 432 (Bytes EmptyString));
      ("/tmp", Dir 511);
      ("/tmp/distrorun-live", Dir 493);
      ("/tmp/distrorun-live/rootfs", Dir 493);
      ("/tmp/distrorun-live/rootfs/dev", Dir 493);
      ("/tmp/distrorun-live/rootfs/var", Dir 493);
      ("/tmp/distrorun-live/rootfs/var/cache", Dir 493);
      ("/tmp/distrorun-live/rootfs/var/cache/apk", Dir 493);
      ("/tmp/distrorun-live/rootfs/var/cache/apk/APKINDEX.tar.gz", Regular 420 (Bytes "index")) ].

Definition chrootMounts : gmap string string :=
  list_to_map
    [ ("/tmp/distrorun-live/rootfs/proc", "/proc");
      ("/tmp/distrorun-live/rootfs/dev", "/dev");
      ("/tmp/distrorun-live/rootfs/sys", "/sys") ].

Definition hostAfterBootstrap (busyAt stuckAt : string -> bool) : World :=
  mkWorld hostFiles (JoinNL tableChroot) true chrootMounts busyAt stuckAt 18 true.

(** The mount of dev cannot be detached. *)
Definition busyDev (mp : string) : bool := String.eqb mp "/tmp/distrorun-live/rootfs/dev".

(** No path is busy; no path is stuck. *)
Definition nothing (p : string) : bool := false.

(** A build whose every step succeeds and leaves the host as Bootstrap
    set it up. *)
Definition buildLive : Build := mkBuild rootfsLive false false (fun _ w => Some w).

(** A host holding the rootfs with one initramfs file in its boot
    directory. *)
Definition hostWithInitramfs (content : data) : World :=
  mkWorld (list_to_map
             [ ("/tmp", Dir 511);
               ("/tmp/distrorun-live", Dir 493);
               ("/tmp/distrorun-live/rootfs", Dir 493);
               ("/tmp/distrorun-live/rootfs/boot", Dir 493);
               ("/tmp/distrorun-live/rootfs/boot/initramfs-lts", Regular 420 content);
               ("/tmp/distrorun-live/rootfs/boot/vmlinuz-lts", Regular 420 (Bytes "kernel")) ])
          EmptyString true ∅ (fun _ => false) (fun _ => false) 18 true.

Definition initramfsLts : string := "/tmp/distrorun-live/rootfs/boot/initramfs-lts".

(** An archive whose init is a regular file of mode 0644 (420). *)
Definition archivePlainInit : data :=
  Cpio [ (".", Dir 493);
         ("a", Regular 420 (Bytes "A"));
         ("b", Symlink "a");
         ("init", Regular 420 (Bytes "#!/bin/sh")) ].

(** The archive of the specification's example: a of mode 0644 and the
    symbolic link b to a, no init. *)
Definition archiveNoInit : data :=
  Cpio [ (".", Dir 493);
         ("a", Regular 420 (Bytes "A"));
         ("b", Symlink "a") ].

(** The index of the specification's example, and a network that serves it
    and the tarball it names. *)
Definition exampleIndex : list alpineRelease :=
  [ mkRelease "alpine-minirootfs" "minirootfs-3.19.tar.gz" ].

Definition exampleBase : string :=
  "https://dl-cdn.alpinelinux.org/alpine/latest-stable/releases/x86_64".

Definition exampleNet : Net :=
  mkNet (fun url =>
           if String.eqb url (exampleBase +:+ "/latest-releases.yaml")
           then Some (mkResponse 200 (Some "index"))
           else if String.eqb url (exampleBase +:+ "/minirootfs-3.19.tar.gz")
           then Some (mkResponse 200 (Some "tarball"))
           else Some (mkResponse 404 None))
        (fun body => if String.eqb body "index" then Some exampleIndex else None).

Definition exampleHost : World :=
  mkWorld (list_to_map [("/tmp", Dir 511); ("/tmp/distrorun-live", Dir 493)])
          EmptyString true ∅ (fun _ => false) (fun _ => false) 18 true.

(** A machine on which the optical device never shows up. *)
Definition noDevice : Machine :=
  mkMachine (fun _ _ => false) (fun _ _ => true).

End Scenarios.

(** ** internal/config: Config, Validate, LoadConfig *)

Module Config.
Import GoString Host HostFs Initramfs LiveInit.

(** The target operating system. *)
Record Distro := mkDistro {
  Base : string;        (* "alpine" or "fedora" *)
  DistroType : string   (* the field [Type] *)
}.

(** A system user to create; the fields [Name] and [Password]. *)
Record User := mkUser {
  UserName : string;
  Password : string
}.

Record Services := mkServices {
  Enable : list string
}.

Record Build := mkBuild {
  SBOM : bool
}.

(** The top-level configuration; [None] is a nil pointer. The fields
    [Distro], [Services] and [Build] carry the suffix Of, their names being
    taken by the types. *)
Record Config := mkConfig {
  Version : string;
  Name : string;
  DistroOf : Distro;
  Packages : list string;
  Users : list User;
  ServicesOf : option Services;
  BuildOf : option Build
}.

(** [c.Build != nil && c.Build.SBOM] *)
Definition SBOMEnabled (c : Config) : bool :=
  match BuildOf c with
  | Some b => SBOM b
  | None => false
  end.

(** [strings.Join(l, sep)] for any separator. *)
Fixpoint joinStr (sep : string) (l : list string) : string :=
  match l with
  | [] => EmptyString
  | [x] => x
  | x :: t => x +:+ sep +:+ joinStr sep t
  end.

(** A word between double quotes, as written in the messages. *)
Definition quoted (s : string) : string := dq +:+ s +:+ dq.

(** The loop of [Validate] over the users, from index [i]. *)
Fixpoint userErrs (i : nat) (users : list User) : list string :=
  match users with
  | [] => []
  | u :: rest =>
      ((if String.eqb (UserName u) EmptyString
        then ["users[" +:+ decimal i +:+ "]: " +:+ quoted "name" +:+ " is required"]
        else []) ++
       (if String.eqb (Password u) EmptyString
        then ["users[" +:+ decimal i +:+ "]: " +:+ quoted "password" +:+ " is required"]
        else []) ++
       userErrs (S i) rest)%list
  end.

(** The slice [errs] at the end of [Validate]. [quote] is the verb %q of
    package fmt (strconv.Quote). *)
Definition validationErrs (quote : string -> string) (c : Config) : list string :=
  ((if String.eqb (Version c) EmptyString then [quoted "version" +:+ " is required"] else []) ++
   (if String.eqb (Name c) EmptyString then [quoted "name" +:+ " is required"] else []) ++
   (if String.eqb (Base (DistroOf c)) EmptyString
    then [quoted "distro.base" +:+ " is required"]
    else if negb (String.eqb (Base (DistroOf c)) "alpine")
    then ["unsupported distro base " +:+ quote (Base (DistroOf c)) +:+ ": only "
            +:+ quoted "alpine" +:+ " is supported in this version"]
    else []) ++
   (match Users c with
    | [] => ["at least one user must be defined in " +:+ quoted "users"]
    | _ => []
    end) ++
   userErrs 0 (Users c))%list.

(** [Validate]: [None] is the nil error, [Some msg] an error with that
    text. *)
Definition Validate (quote : string -> string) (c : Config) : option string :=
  match validationErrs quote c with
  | [] => None
  | errs =>
      Some ("config validation failed:" +:+ String newline "  - "
              +:+ joinStr (String newline "  - ") errs)
  end.

(** [LoadConfig]; [yamlUnmarshal] is yaml.Unmarshal into a fresh [Config],
    [None] when the document does not parse. *)
Definition LoadConfig (quote : string -> string) (yamlUnmarshal : data -> option Config)
    (path : string) (w : World) : result Config :=
  match ReadFile path w with
  | (inl _, _) => inl "reading config file"
  | (inr content, _) =>
      match yamlUnmarshal content with
      | None => inl "parsing YAML"
      | Some cfg =>
          match Validate quote cfg with
          | Some msg => inl msg
          | None => inr cfg
          end
      end
  end.

(** What a configuration has to satisfy. *)
Definition wellFormed (c : Config) : Prop :=
  Version c <> EmptyString /\
  Name c <> EmptyString /\
  Base (DistroOf c) = "alpine" /\
  Users c <> [] /\
  Forall (fun u => UserName u <> EmptyString /\ Password u <> EmptyString) (Users c).

(** The configurations of the tests in config_test.go. *)
Definition configValid : Config :=
  mkConfig "1.0" "test-alpine" (mkDistro "alpine" EmptyString) ["nginx"; "curl"]
           [mkUser "root" "toor"] (Some (mkServices ["nginx"])) (Some (mkBuild true)).

Definition configMissingFields : Config :=
  mkConfig EmptyString EmptyString (mkDistro "alpine" EmptyString) [] [] None None.

Definition configUserMissingPassword : Config :=
  mkConfig "1" "test" (mkDistro "alpine" EmptyString) [] [mkUser "root" EmptyString] None None.

End Config.
(** ** External commands *)

Module Exec.
Import Host HostFs.

(** What running a command does: [run] is [cmd.Run()], telling whether
    the command succeeded and the host it leaves; [output] is
    [cmd.Output()], [None] when the command fails; [lookPath] tells whether
    [exec.LookPath] finds the tool. *)
Record Shell := mkShell {
  run : list string -> World -> bool * World;
  output : list string -> World -> option string;
  lookPath : string -> bool
}.

(** A function that runs commands: its result, the commands it ran in
    order, each with whether it succeeded, and the host it leaves. *)
Definition C (A : Type) : Type :=
  World -> HostFs.result A * list (list string * bool) * World.

Definition retC {A} (a : A) : C A := fun w => (inr a, [], w).
Definition failC {A} (msg : string) : C A := fun w => (inl msg, [], w).
Definition bindC {A B} (c : C A) (k : A -> C B) : C B :=
  fun w => match c w with
           | (inl msg, log, w1) => (inl msg, log, w1)
           | (inr a, log, w1) =>
               let '(res, log2, w2) := k a w1 in (res, (log ++ log2)%list, w2)
           end.

(** An operation on files, which runs no command; [msg] is the error
    returned when it fails. *)
Definition file {A} (msg : string) (c : HostFs.M A) : C A :=
  fun w => match c w with
           | (inl _, w1) => (inl msg, [], w1)
           | (inr a, w1) => (inr a, [], w1)
           end.

(** [if err := exec.Command(argv...).Run(); err != nil { return msg }] *)
Definition command (sh : Shell) (argv : list string) (msg : string) : C unit :=
  fun w => let (ok, w1) := run sh argv w in
           ((if ok then inr tt else inl msg), [(argv, ok)], w1).

(** The entries of a log for commands that all succeeded. *)
Definition succeeded (argvs : list (list string)) : list (list string * bool) :=
  map (fun argv => (argv, true)) argvs.

Notation "'let+' x ':=' c 'in' k" := (bindC c (fun x => k))
  (at level 10, x name, c at level 100, k at level 200).

End Exec.

(** ** internal/sbom/sbom.go: Generate *)

Module SbomGen.
Import GoString Sbom Host HostFs LiveInit Exec.

Record SPDXCreationInfo := mkCreationInfo {
  Created : string;
  Creators : list string
}.

Record SPDXExternalRef := mkExternalRef {
  ReferenceCategory : string;
  ReferenceType : string;
  ReferenceLocator : string
}.

Record SPDXPackage := mkPackage {
  SPDXID : string;
  Name : string;
  VersionInfo : string;
  DownloadLocation : string;
  FilesAnalyzed : bool;
  ExternalRefs : list SPDXExternalRef
}.

Record SPDXRelationship := mkRelationship {
  Element : string;
  RelationType : string;
  RelatedElement : string
}.

(** The document; its fields [SPDXID] and [Name] carry the prefix Doc, the
    names being taken by the fields of a package. *)
Record SPDXDocument := mkDocument {
  SPDXVersion : string;
  DataLicense : string;
  DocSPDXID : string;
  DocName : string;
  Namespace : string;
  CreationInfo : SPDXCreationInfo;
  Packages : list SPDXPackage;
  Relationships : list SPDXRelationship
}.

(** [s] is made of white-space runes only ([skip] bytes of a rune are still
    to pass). *)
Fixpoint allSpaceLoop (skip : nat) (s : string) : bool :=
  match s with
  | EmptyString => true
  | String _ r =>
      match skip with
      | S k => allSpaceLoop k r
      | O =>
          match spaceWidth s with
          | O => false
          | S k => allSpaceLoop k r
          end
      end
  end.

Definition allSpace (s : string) : bool := allSpaceLoop 0 s.

(** [strings.TrimSpace(s)]: the leading white-space runes go, then the
    trailing ones. *)
Fixpoint trimLeftLoop (skip : nat) (s : string) : string :=
  match s with
  | EmptyString => EmptyString
  | String _ r =>
      match skip with
      | S k => trimLeftLoop k r
      | O =>
          match spaceWidth s with
          | O => s
          | S k => trimLeftLoop k r
          end
      end
  end.

Fixpoint trimRight (s : string) : string :=
  match s with
  | EmptyString => EmptyString
  | String c r => if allSpace s then EmptyString else String c (trimRight r)
  end.

Definition TrimSpace (s : string) : string := trimRight (trimLeftLoop 0 s).

(** The verb %d on a 64-bit integer. *)
Definition decimalZ (z : Z) : string := NilZero.string_of_int (Z.to_int z).

(** The package and the relationship added for line [i], already trimmed
    and not empty. *)
Definition packageOf (i : nat) (line : string) : SPDXPackage :=
  let (name, version) := parseApkPackage line in
  let spdxID := "SPDXRef-Package-" +:+ decimal i in
  mkPackage spdxID name version
            ("https://pkgs.alpinelinux.org/package/edge/main/x86_64/" +:+ name)
            false
            [ mkExternalRef "PACKAGE-MANAGER" "purl"
                            ("pkg:apk/alpine/" +:+ name +:+ "@" +:+ version) ].

Definition containsOf (i : nat) : SPDXRelationship :=
  mkRelationship "SPDXRef-rootfs" "CONTAINS" ("SPDXRef-Package-" +:+ decimal i).

Definition addPackage (doc : SPDXDocument) (pkg : SPDXPackage) (rel : SPDXRelationship)
  : SPDXDocument :=
  mkDocument (SPDXVersion doc) (DataLicense doc) (DocSPDXID doc) (DocName doc) (Namespace doc)
             (CreationInfo doc) (Packages doc ++ [pkg])%list (Relationships doc ++ [rel])%list.

(** The loop [for i, line := range lines], from index [i]. *)
Fixpoint addLines (i : nat) (lines : list string) (doc : SPDXDocument) : SPDXDocument :=
  match lines with
  | [] => doc
  | line :: rest =>
      let line := TrimSpace line in
      if String.eqb line EmptyString then addLines (S i) rest doc
      else addLines (S i) rest (addPackage doc (packageOf i line) (containsOf i))
  end.

(** The document [Generate] builds from the output of apk; [unixNow] and
    [created] are the two readings of the clock. *)
Definition buildDocument (configName : string) (unixNow : Z) (created : string)
    (apkOutput : string) : SPDXDocument :=
  let lines := SplitNL (TrimSpace apkOutput) in
  let doc :=
    mkDocument "SPDX-2.3" "CC0-1.0" "SPDXRef-DOCUMENT"
               ("distrorun-" +:+ configName)
               ("https://distrorun.dev/sbom/" +:+ configName +:+ "/" +:+ decimalZ unixNow)
               (mkCreationInfo created ["Tool: DistroRun"])
               []
               [ mkRelationship "SPDXRef-DOCUMENT" "DESCRIBES" "SPDXRef-rootfs" ] in
  let doc :=
    mkDocument (SPDXVersion doc) (DataLicense doc) (DocSPDXID doc) (DocName doc) (Namespace doc)
               (CreationInfo doc)
               (Packages doc ++ [ mkPackage "SPDXRef-rootfs" configName "1.0" "NOASSERTION" false [] ])%list
               (Relationships doc) in
  addLines 0 lines doc.

(** [Generate]; [marshal] is json.MarshalIndent. The error is [None] for
    nil. *)
Definition Generate (sh : Shell) (marshal : SPDXDocument -> result string)
    (unixNow : Z) (created : string)
    (rootfsPath configName outputPath : string) (w : World) : option string * World :=
  match output sh ["chroot"; rootfsPath; "apk"; "info"; "-v"] w with
  | None => (Some "listing packages", w)
  | Some out =>
      let doc := buildDocument configName unixNow created out in
      match marshal doc with
      | inl _ => (Some "marshaling SBOM", w)
      | inr json =>
          match WriteFile outputPath (Bytes json) 420 w with
          | (inl _, w1) => (Some "writing SBOM", w1)
          | (inr _, w1) => (None, w1)
          end
      end
  end.

(** The lines that give a package, trimmed, each with its index in
    [lines] counted from [i]. *)
Fixpoint numbered (i : nat) (lines : list string) : list (nat * string) :=
  match lines with
  | [] => []
  | line :: rest =>
      if String.eqb (TrimSpace line) EmptyString then numbered (S i) rest
      else (i, TrimSpace line) :: numbered (S i) rest
  end.

(** The lines of the apk output that give a package: trimmed, not empty. *)
Definition packageLines (apkOutput : string) : list string :=
  List.filter (fun l => negb (String.eqb l EmptyString))
              (map TrimSpace (SplitNL (TrimSpace apkOutput))).

End SbomGen.
(** ** internal/rootfs: InstallPackages, SetupUsers, EnableServices *)

Module Provision.
Import GoString Host HostFs Rootfs Exec.

(** [strings.Join(pkgs, " ")] is only part of the error text. *)
Definition InstallPackages (sh : Shell) (r : Rootfs) (pkgs : list string) : C unit :=
  match pkgs with
  | [] => retC tt
  | _ =>
      let args := ([Path r; "apk"; "add"; "--no-cache"] ++ pkgs)%list in
      command sh ("chroot" :: args) ("apk add " +:+ joinWith " " pkgs)
  end.

(** The command that creates user [name]. *)
Definition adduser (r : Rootfs) (name : string) : list string :=
  ["chroot"; Path r; "adduser"; "-D"; name].

(** The command that sets the password: name and password go between
    single quotes into the script of [sh -c]. *)
Definition chpasswd (r : Rootfs) (name password : string) : list string :=
  ["chroot"; Path r; "sh"; "-c"; "echo '" +:+ name +:+ ":" +:+ password +:+ "' | chpasswd"].

Fixpoint SetupUsers (sh : Shell) (r : Rootfs) (users : list Config.User) : C unit :=
  match users with
  | [] => retC tt
  | u :: rest =>
      let+ _ := (if negb (String.eqb (Config.UserName u) "root")
                 then command sh (adduser r (Config.UserName u))
                                 ("creating user " +:+ Config.UserName u)
                 else retC tt) in
      let+ _ := command sh (chpasswd r (Config.UserName u) (Config.Password u))
                           ("setting password for " +:+ Config.UserName u) in
      SetupUsers sh r rest
  end.

(** The loop of [EnableServices]. *)
Fixpoint enableEach (sh : Shell) (r : Rootfs) (services : list string) : C unit :=
  match services with
  | [] => retC tt
  | svc :: rest =>
      let+ _ := command sh ["chroot"; Path r; "rc-update"; "add"; svc; "default"]
                           ("enabling service " +:+ svc) in
      enableEach sh r rest
  end.

Definition EnableServices (sh : Shell) (r : Rootfs) (services : list string) : C unit :=
  match services with
  | [] => retC tt
  | _ => enableEach sh r services
  end.

(** The commands that [SetupUsers] has to run for [users]. *)
Definition userCommands (r : Rootfs) (users : list Config.User) : list (list string) :=
  flat_map (fun u =>
              ((if negb (String.eqb (Config.UserName u) "root")
                then [adduser r (Config.UserName u)] else []) ++
               [chpasswd r (Config.UserName u) (Config.Password u)])%list) users.

Definition serviceCommands (r : Rootfs) (services : list string) : list (list string) :=
  map (fun svc => ["chroot"; Path r; "rc-update"; "add"; svc; "default"]) services.

(** A run is fail-fast over [plan]: it ran the commands of the plan in
    order; when it returned nil, all of them, and all succeeded; when it
    returned an error, the last command it ran failed and the ones before
    succeeded. *)
Definition failFast (plan : list (list string))
    (res : result unit * list (list string * bool) * World) : Prop :=
  let log := snd (fst res) in
  match fst (fst res) with
  | inr _ => log = succeeded plan
  | inl _ =>
      exists before failed after,
        plan = (before ++ failed :: after)%list /\
        log = (succeeded before ++ [(failed, false)])%list
  end.

End Provision.
(** ** Package bootloader: findFile, IsohdpfxPath, copyFile, Setup *)

Module Bootloader.
Import GoString Host HostFs.

(** syslinux file search paths *)
Definition syslinuxSearchPaths : list string :=
  [ "/usr/lib/syslinux";
    "/usr/lib/syslinux/modules/bios";
    "/usr/share/syslinux";
    "/usr/lib/ISOLINUX" ].

Definition requiredFiles : list string := [ "isolinux.bin"; "ldlinux.c32" ].

Definition optionalFiles : list string := [ "libcom32.c32"; "libutil.c32"; "menu.c32" ].

Definition isolinuxCfgTemplate : string :=
  foldr (fun l rest => l +:+ String newline rest) EmptyString
    [ "DEFAULT linux";
      "PROMPT 0";
      "TIMEOUT 30";
      EmptyString;
      "LABEL linux";
      "    KERNEL /boot/vmlinuz-lts";
      "    INITRD /boot/initramfs-lts";
      "    APPEND quiet" ].

(** [_, err := os.Stat(p); err == nil] *)
Definition exists_ (w : World) (p : string) : bool :=
  match lookupPath w p with
  | Some _ => true
  | None => false
  end.

(** The loop of [findFile] and of [IsohdpfxPath]: the first candidate that
    exists, [""] when none does. *)
Fixpoint firstExisting (w : World) (candidates : list string) : string :=
  match candidates with
  | [] => EmptyString
  | p :: rest => if exists_ w p then p else firstExisting w rest
  end.

Definition findFile (w : World) (name : string) : string :=
  firstExisting w (map (fun dir => Join [dir; name]) syslinuxSearchPaths).

(** The local [paths] of [IsohdpfxPath]. *)
Definition isohdpfxPaths : list string :=
  [ "/usr/lib/syslinux/isohdpfx.bin";
    "/usr/lib/syslinux/bios/isohdpfx.bin";
    "/usr/share/syslinux/isohdpfx.bin";
    "/usr/lib/ISOLINUX/isohdpfx.bin" ].

Definition IsohdpfxPath (w : World) : string := firstExisting w isohdpfxPaths.

(** [io.Copy(out, in)] where [in] was opened at [src] and [out] created at
    [dst]: what [src] holds at that moment goes to [dst]; reading a
    directory fails. *)
Definition copyContent (src dst : string) : M unit :=
  fun w => match lookupPath w src with
           | Some (Regular _ d) => writeThrough dst d 438 w
           | _ => (inl "read", w)
           end.

(** [copyFile]: [os.Open(src)] needs the path to exist; [os.Create(dst)]
    empties or creates the destination; then the content is copied. *)
Definition copyFile (src dst : string) : M unit :=
  let* _ := (fun w => if exists_ w src then (inr tt, w) else (inl "open", w)) in
  let* _ := Create dst in
  copyContent src dst.

(** The loop of [Setup] over the required files. *)
Fixpoint copyRequired (isolinuxDir : string) (names : list string) : M unit :=
  match names with
  | [] => ret tt
  | name :: rest =>
      let* src := (fun w => (inr (findFile w name), w)) in
      if String.eqb src EmptyString
      then fail ("required syslinux file not found: " +:+ name +:+ " (searched: ["
                   +:+ joinWith " " syslinuxSearchPaths +:+ "])")
      else
        let* _ := orFail ("copying " +:+ name) (copyFile src (Join [isolinuxDir; name])) in
        copyRequired isolinuxDir rest
  end.

(** The loop over the optional files: a failed copy is ignored. *)
Fixpoint copyOptional (isolinuxDir : string) (names : list string) : M unit :=
  match names with
  | [] => ret tt
  | name :: rest =>
      let* src := (fun w => (inr (findFile w name), w)) in
      let* _ := (if String.eqb src EmptyString then ret tt
                 else fun w => (inr tt, snd (copyFile src (Join [isolinuxDir; name]) w))) in
      copyOptional isolinuxDir rest
  end.

(** The loop over the map [kernelFiles], in the order [order] in which the
    map happens to be ranged over. *)
Fixpoint copyKernelFiles (rootfsBoot bootDir : string) (order : list (string * string))
  : M unit :=
  match order with
  | [] => ret tt
  | (src, dst) :: rest =>
      let srcPath := Join [rootfsBoot; src] in
      let dstPath := Join [bootDir; dst] in
      let* missing := statNotExist srcPath in
      let* srcPath :=
        (if (missing : bool) then
           let* matches := Glob rootfsBoot src in
           match matches with
           | [] => fail ("kernel file not found: " +:+ src +:+ " in " +:+ rootfsBoot)
           | first :: _ => ret first
           end
         else ret srcPath) in
      let* _ := orFail ("copying kernel file " +:+ src) (copyFile srcPath dstPath) in
      copyKernelFiles rootfsBoot bootDir rest
  end.

(** [Setup]; [kernelFirst] tells whether the map gives vmlinuz-lts before
    initramfs-lts. The error is [None] for nil. *)
Definition Setup (kernelFirst : bool) (rootfsPath stagingDir : string) (w : World)
  : option string * World :=
  let isolinuxDir := Join [stagingDir; "isolinux"] in
  let bootDir := Join [stagingDir; "boot"] in
  let kernelFiles :=
    if kernelFirst
    then [("vmlinuz-lts", "vmlinuz-lts"); ("initramfs-lts", "initramfs-lts")]
    else [("initramfs-lts", "initramfs-lts"); ("vmlinuz-lts", "vmlinuz-lts")] in
  let steps : M unit :=
    let* _ := orFail "creating isolinux dir" (MkdirAll isolinuxDir 493) in
    let* _ := orFail "creating boot dir" (MkdirAll bootDir 493) in
    let* _ := copyRequired isolinuxDir requiredFiles in
    let* _ := copyOptional isolinuxDir optionalFiles in
    let* _ := copyKernelFiles (Join [rootfsPath; "boot"]) bootDir kernelFiles in
    let cfgPath := Join [isolinuxDir; "isolinux.cfg"] in
    orFail "writing isolinux.cfg" (WriteFile cfgPath (Bytes isolinuxCfgTemplate) 420) in
  match steps w with
  | (inl e, w1) => (Some e, w1)
  | (inr _, w1) => (None, w1)
  end.

(** A path names a regular file. *)
Definition isRegular (w : World) (p : string) : Prop :=
  exists m d, lookupPath w p = Some (Regular m d).

End Bootloader.

(** ** Package iso: Build, CheckHostDeps *)

Module Iso.
Import GoString Host HostFs Exec Bootloader.

(** The arguments of xorriso up to the output options. *)
Definition xorrisoFixedArgs (outputPath : string) : list string :=
  [ "-as"; "mkisofs"; "-o"; outputPath; "-b"; "isolinux/isolinux.bin";
    "-c"; "isolinux/boot.cat"; "-no-emul-boot"; "-boot-load-size"; "4";
    "-boot-info-table" ].

Definition xorrisoArgs (w : World) (stagingDir outputPath : string) : list string :=
  let args := xorrisoFixedArgs outputPath in
  let isohdpfx := IsohdpfxPath w in
  let args := if negb (String.eqb isohdpfx EmptyString)
              then (args ++ ["-isohybrid-mbr"; isohdpfx])%list else args in
  (args ++ [stagingDir])%list.

Definition mksquashfs (rootfsPath stagingDir : string) : list string :=
  [ "mksquashfs"; rootfsPath; Join [stagingDir; "rootfs.squashfs"];
    "-comp"; "xz"; "-no-xattrs"; "-noappend" ].

Definition Build (sh : Shell) (rootfsPath stagingDir outputPath : string) : C unit :=
  let+ _ := command sh (mksquashfs rootfsPath stagingDir) "mksquashfs" in
  fun w => command sh ("xorriso" :: xorrisoArgs w stagingDir outputPath) "xorriso" w.

(** The loop of [CheckHostDeps] over the tools. *)
Fixpoint checkTools (sh : Shell) (tools : list string) : option string :=
  match tools with
  | [] => None
  | tool :: rest =>
      if lookPath sh tool then checkTools sh rest
      else Some ("required tool not found: " +:+ tool +:+ " (install with your package manager)")
  end.

(** [CheckHostDeps]: a missing isohdpfx.bin is only warned about. *)
Definition CheckHostDeps (sh : Shell) (w : World) : option string :=
  checkTools sh ["xorriso"; "mksquashfs"].

End Iso.
(** ** The rootfs package: Bootstrap and its steps *)

Module Bootstrapping.
Import GoString Host HostFs Rootfs Initramfs Download Exec.

(** alpine base packages needed for a bootable system *)
Definition alpineBasePackages : list string :=
  [ "alpine-base"; "linux-lts"; "linux-firmware-none"; "mkinitfs"; "openrc"; "e2fsprogs" ].

(** The architecture name used in the URLs, for [runtime.GOARCH]. *)
Definition archOf (goarch : string) : string :=
  if String.eqb goarch "amd64" then "x86_64" else goarch.

Definition minirootfsURL (goarch : string) : string :=
  "https://dl-cdn.alpinelinux.org/alpine/latest-stable/releases/" +:+ archOf goarch
    +:+ "/latest-releases.yaml".

(** [downloadMinirootfs] as a step: it runs no command. *)
Definition download (r : Rootfs) (dest : string) (net : Net) : C unit :=
  fun w => let '(err, _, w1) := downloadMinirootfs r dest net w in
           (match err with Some e => inl e | None => inr tt end, [], w1).

Definition extractTarball (sh : Shell) (r : Rootfs) (tarball : string) : C unit :=
  command sh ["tar"; "xzf"; tarball; "-C"; Path r] "extracting tarball".

(** The mounts of [setupChrootMounts]: file system type, source, target. *)
Definition chrootMountsOf (r : Rootfs) : list (string * string * string) :=
  [ ("proc", "none", Join [Path r; "proc"]);
    (EmptyString, "/dev", Join [Path r; "dev"]);
    (EmptyString, "/sys", Join [Path r; "sys"]) ].

Definition mountCommand (m : string * string * string) : list string :=
  let '(fstype, src, target) := m in
  if negb (String.eqb fstype EmptyString)
  then ["mount"; "-t"; fstype; src; target]
  else ["mount"; "--bind"; src; target].

(** The loop of [setupChrootMounts]. *)
Fixpoint mountEach (sh : Shell) (mounts : list (string * string * string)) : C unit :=
  match mounts with
  | [] => retC tt
  | m :: rest =>
      let target := snd m in
      let+ _ := file ("creating mount point " +:+ target) (MkdirAll target 493) in
      let+ _ := command sh (mountCommand m) ("mounting " +:+ target) in
      mountEach sh rest
  end.

Definition setupChrootMounts (sh : Shell) (r : Rootfs) : C unit :=
  mountEach sh (chrootMountsOf r).

Definition copyResolv (r : Rootfs) : C unit :=
  let src := "/etc/resolv.conf" in
  let dest := Join [Path r; "etc"; "resolv.conf"] in
  let+ d := file "reading host resolv.conf" (ReadFile src) in
  file "writing rootfs resolv.conf" (WriteFile dest d 420).

Definition repos : string :=
  "https://dl-cdn.alpinelinux.org/alpine/latest-stable/main" +:+ String newline
    ("https://dl-cdn.alpinelinux.org/alpine/latest-stable/community" +:+ String newline EmptyString).

Definition apkUpdate (r : Rootfs) : list string := ["chroot"; Path r; "apk"; "update"].

Definition apkAddBase (r : Rootfs) : list string :=
  "chroot" :: ([Path r; "apk"; "add"; "--no-cache"] ++ alpineBasePackages)%list.

Definition installBaseSystem (sh : Shell) (r : Rootfs) : C unit :=
  let reposPath := Join [Path r; "etc"; "apk"; "repositories"] in
  let+ _ := file "creating apk dir" (MkdirAll (parentDir reposPath) 493) in
  let+ _ := file "writing repositories" (WriteFile reposPath (Bytes repos) 420) in
  let+ _ := command sh (apkUpdate r) "apk update" in
  command sh (apkAddBase r) "installing base packages".

Definition features : string :=
  "features=" +:+ dq +:+ "ata base cdrom scsi squashfs usb virtio loop" +:+ dq
    +:+ String newline EmptyString.

Definition configureMkinitfs (r : Rootfs) : C unit :=
  let confPath := Join [Path r; "etc"; "mkinitfs"; "mkinitfs.conf"] in
  let+ _ := file "creating mkinitfs dir" (MkdirAll (parentDir confPath) 493) in
  file "writing mkinitfs.conf" (WriteFile confPath (Bytes features) 420).

(** [os.ReadDir(p)] with what [IsDir] says of each entry: a symbolic link
    is no directory. *)
Definition dirEntries (p : string) (w : World) : option (list (string * bool)) :=
  match ReadDir p w with
  | Some names =>
      Some (map (fun n => (n, match files w !! (resolve w p +:+ "/" +:+ n) with
                              | Some (Dir _) => true
                              | _ => false
                              end)) names)
  | None => None
  end.

(** The loop of [generateInitramfs] over the entries: the first directory
    whose name contains lts, [""] when there is none. *)
Fixpoint firstLts (entries : list (string * bool)) : string :=
  match entries with
  | [] => EmptyString
  | (name, isDir) :: rest =>
      if isDir && Contains name "lts" then name else firstLts rest
  end.

Definition kernelVersionOf (entries : list (string * bool)) : string :=
  let kernelVersion := firstLts entries in
  if String.eqb kernelVersion EmptyString
  then match entries with
       | (name, _) :: _ => name
       | [] => kernelVersion
       end
  else kernelVersion.

Definition mkinitfs (r : Rootfs) (kernelVersion : string) : list string :=
  ["chroot"; Path r; "mkinitfs"; kernelVersion].

Definition generateInitramfs (sh : Shell) (r : Rootfs) : C unit :=
  let modulesDir := Join [Path r; "lib"; "modules"] in
  let+ entries := (fun w => match dirEntries modulesDir w with
                            | Some entries => (inr entries, [], w)
                            | None => (inl "reading modules directory", [], w)
                            end) in
  let kernelVersion := kernelVersionOf entries in
  if String.eqb kernelVersion EmptyString
  then failC ("no kernel modules found in " +:+ modulesDir)
  else command sh (mkinitfs r kernelVersion) "mkinitfs".

(** [PatchInitramfs] as a step. Its two commands, cpio and sh, are part of
    [PatchInitramfs] as operations on the archive; they are not entered in
    the list of commands. *)
Definition patch (r : Rootfs) : C unit :=
  fun w => let (err, w1) := PatchInitramfs r w in
           (match err with Some e => inl e | None => inr tt end, [], w1).

(** The handle that [Bootstrap] makes for configuration [name];
    [goarch] is [runtime.GOARCH] and [tmpDir] is [os.TempDir()]. *)
Definition rootfsFor (goarch tmpDir name : string) : Rootfs :=
  let workDir := Join [tmpDir; "distrorun-" +:+ name] in
  mkRootfs (Join [workDir; "rootfs"]) workDir (archOf goarch).

Definition Bootstrap (sh : Shell) (net : Net) (goarch tmpDir name : string) : C Rootfs :=
  let r := rootfsFor goarch tmpDir name in
  let+ _ := file "creating rootfs directory" (MkdirAll (Path r) 493) in
  let tarball := Join [WorkDir r; "minirootfs.tar.gz"] in
  let+ _ := download r tarball net in
  let+ _ := extractTarball sh r tarball in
  let+ _ := setupChrootMounts sh r in
  let+ _ := copyResolv r in
  let+ _ := installBaseSystem sh r in
  let+ _ := configureMkinitfs r in
  let+ _ := generateInitramfs sh r in
  let+ _ := patch r in
  retC r.

Definition ChrootExec (sh : Shell) (r : Rootfs) (name : string) (args : list string)
  : World -> bool * World :=
  run sh ("chroot" :: ([Path r; name] ++ args)%list).

(** The commands of a complete [Bootstrap] up to [PatchInitramfs], in
    order; [kernelVersion] is the version found below lib/modules. *)
Definition bootstrapCommands (r : Rootfs) (kernelVersion : string) : list (list string) :=
  [ ["tar"; "xzf"; Join [WorkDir r; "minirootfs.tar.gz"]; "-C"; Path r];
    ["mount"; "-t"; "proc"; "none"; Join [Path r; "proc"]];
    ["mount"; "--bind"; "/dev"; Join [Path r; "dev"]];
    ["mount"; "--bind"; "/sys"; Join [Path r; "sys"]];
    apkUpdate r;
    apkAddBase r;
    mkinitfs r kernelVersion ].

(** A run of [c] from [w] keeps to [plan]: when it returned nil it ran
    all the commands of the plan, in order, and all succeeded; when it
    returned an error it ran the first commands of the plan, and all
    succeeded but, possibly, the last one it ran. *)
Definition follows {A} (plan : list (list string)) (c : C A) (w : World) : Prop :=
  let log := snd (fst (c w)) in
  match fst (fst (c w)) with
  | inr _ => log = succeeded plan
  | inl _ =>
      exists before after,
        plan = (before ++ after)%list /\
        (log = succeeded before
         \/ exists failed rest,
              after = failed :: rest /\ log = (succeeded before ++ [(failed, false)])%list)
  end.

End Bootstrapping.
(** ** The form of cleaned paths *)

Module PathForm.
Import GoString.




End PathForm.
(** ** Further example hosts *)

Module Examples.
Import GoString Host HostFs Rootfs Download Exec SbomGen Scenarios.

(** An index whose first minirootfs record names no file. *)
Definition indexEmptyFile : list alpineRelease :=
  [ mkRelease "alpine-standard" "alpine-standard-3.19.iso";
    mkRelease "alpine-minirootfs" EmptyString;
    mkRelease "alpine-minirootfs" "minirootfs-3.19.tar.gz" ].

Definition netEmptyFile : Net :=
  mkNet (fun url =>
           if String.eqb url (exampleBase +:+ "/latest-releases.yaml")
           then Some (mkResponse 200 (Some "index"))
           else Some (mkResponse 404 None))
        (fun body => if String.eqb body "index" then Some indexEmptyFile else None).

Definition tarballLive : string := "/tmp/distrorun-live/minirootfs.tar.gz".

Definition vmlinuzLts : string := "/tmp/distrorun-live/rootfs/boot/vmlinuz-lts".

(** A host with the syslinux files, a rootfs with kernel and initramfs,
    and an empty staging directory. *)
Definition hostWithSyslinux : World :=
  mkWorld (list_to_map
             [ ("/usr", Dir 493);
               ("/usr/lib", Dir 493);
               ("/usr/lib/syslinux", Dir 493);
               ("/usr/lib/syslinux/modules", Dir 493);
               ("/usr/lib/syslinux/modules/bios", Dir 493);
               ("/usr/lib/syslinux/modules/bios/ldlinux.c32", Regular 420 (Bytes "ldlinux"));
               ("/usr/lib/ISOLINUX", Dir 493);
               ("/usr/lib/ISOLINUX/isolinux.bin", Regular 420 (Bytes "isolinux"));
               ("/tmp", Dir 511);
               ("/tmp/distrorun-live", Dir 493);
               ("/tmp/distrorun-live/staging", Dir 493);
               ("/tmp/distrorun-live/rootfs", Dir 493);
               ("/tmp/distrorun-live/rootfs/boot", Dir 493);
               ("/tmp/distrorun-live/rootfs/boot/initramfs-lts", Regular 420 (Bytes "initramfs"));
               ("/tmp/distrorun-live/rootfs/boot/vmlinuz-lts", Regular 420 (Bytes "kernel")) ])
          EmptyString true ∅ (fun _ => false) (fun _ => false) 18 true.

(** A shell whose commands all succeed and change nothing, and in which
    apk lists two packages. *)
Definition shellApk : Shell :=
  mkShell (fun _ w => (true, w))
          (fun _ _ => Some ("busybox-1.36.1-r1" +:+ String newline
                              ("musl-1.2.4-r2" +:+ String newline EmptyString)))
          (fun _ => true).

(** A stand-in for json.MarshalIndent. *)
Definition marshalName (doc : SPDXDocument) : result string := inr (DocName doc).

Definition sbomLive : string := "/tmp/distrorun-live/live-sbom.spdx.json".

End Examples.

(** * Properties *)

(** ** Go strings *)

Module GoStringFacts.
Import GoString.

Lemma sapp_nil_l (s : string) : EmptyString +:+ s = s.
Proof. reflexivity. Qed.

Lemma sapp_cons (c : ascii) (a b : string) : String c a +:+ b = String c (a +:+ b).
Proof. reflexivity. Qed.

Lemma sapp_assoc (a b c : string) : (a +:+ b) +:+ c = a +:+ (b +:+ c).
Proof. induction a as [|x a IH]; [reflexivity|]. rewrite !sapp_cons. now f_equal. Qed.

Lemma len_app a b : len (a +:+ b) = len a + len b.
Proof. induction a as [|c a IH]; simpl; [reflexivity | unfold len in *; simpl; lia]. Qed.

Lemma byte_ltb_irrefl x : byte_ltb x x = false.
Proof. unfold byte_ltb. apply Nat.ltb_irrefl. Qed.

Lemma byte_ltb_total x y : byte_ltb x y = false -> byte_ltb y x = false -> x = y.
Proof.
  unfold byte_ltb. intros H1 H2.
  apply Nat.ltb_ge in H1. apply Nat.ltb_ge in H2.
  rewrite <- (ascii_nat_embedding x), <- (ascii_nat_embedding y).
  f_equal. lia.
Qed.

Lemma byte_ltb_trans x y z : byte_ltb x y = true -> byte_ltb y z = true -> byte_ltb x z = true.
Proof. unfold byte_ltb. rewrite !Nat.ltb_lt. lia. Qed.

Lemma byte_ltb_asym x y : byte_ltb x y = true -> byte_ltb y x = false.
Proof. unfold byte_ltb. rewrite Nat.ltb_lt, Nat.ltb_ge. lia. Qed.

Lemma ltb_irrefl a : ltb a a = false.
Proof. induction a as [|c a IH]; simpl; [reflexivity|]. now rewrite byte_ltb_irrefl. Qed.

Lemma ltb_trans a : forall b c, ltb a b = true -> ltb b c = true -> ltb a c = true.
Proof.
  induction a as [|x a IH]; intros [|y b] [|z c]; simpl; try congruence.
  destruct (byte_ltb x y) eqn:Hxy.
  - intros _. destruct (byte_ltb y z) eqn:Hyz.
    + intros _. now rewrite (byte_ltb_trans _ _ _ Hxy Hyz).
    + destruct (byte_ltb z y) eqn:Hzy; [congruence|].
      intros _. rewrite <- (byte_ltb_total _ _ Hyz Hzy). now rewrite Hxy.
  - destruct (byte_ltb y x) eqn:Hyx; [congruence|].
    pose proof (byte_ltb_total _ _ Hxy Hyx) as ->.
    intros Hab. destruct (byte_ltb y z); [reflexivity|].
    destruct (byte_ltb z y); [congruence|]. now apply IH.
Qed.

Lemma ltb_total a : forall b, ltb a b = false -> ltb b a = false -> a = b.
Proof.
  induction a as [|x a IH]; intros [|y b]; simpl; try congruence.
  destruct (byte_ltb x y) eqn:Hxy; [congruence|].
  destruct (byte_ltb y x) eqn:Hyx; [congruence|].
  intros H1 H2. rewrite (byte_ltb_total _ _ Hxy Hyx). f_equal. now apply IH.
Qed.

Lemma ltb_asym a : forall b, ltb a b = true -> ltb b a = false.
Proof.
  induction a as [|x a IH]; intros [|y b]; simpl; try congruence.
  destruct (byte_ltb x y) eqn:Hxy.
  - now rewrite (byte_ltb_asym _ _ Hxy).
  - destruct (byte_ltb y x); [congruence|]. apply IH.
Qed.

(** A string is smaller than each of its proper extensions. *)
Lemma ltb_app_r a : forall b, b <> "" -> ltb a (a +:+ b) = true.
Proof.
  induction a as [|x a IH]; intros b Hb; simpl.
  - destruct b; [congruence | reflexivity].
  - rewrite byte_ltb_irrefl. now apply IH.
Qed.

Lemma HasPrefix_app s p : HasPrefix s p = true <-> exists r, s = p +:+ r.
Proof.
  revert s. induction p as [|c p IH]; intros s; simpl.
  - split; [intros _; now exists s | reflexivity].
  - destruct s as [|d s]; simpl.
    + split; [congruence | intros [r Hr]; discriminate].
    + destruct (Ascii.eqb_spec c d) as [->|Hne]; simpl.
      * rewrite IH. split; intros [r Hr]; exists r; [now subst | now inversion Hr].
      * split; [congruence | intros [r Hr]; inversion Hr; congruence].
Qed.

Lemma get_lt (s : string) : forall i, (i < len s)%nat <-> is_Some (String.get i s).
Proof.
  induction s as [|c s IH]; intros i; simpl.
  - split; [unfold len; simpl; lia | intros [x Hx]; discriminate].
  - destruct i as [|i]; simpl.
    + split; [intros _; eexists; reflexivity | unfold len; simpl; lia].
    + rewrite <- IH. unfold len. simpl. lia.
Qed.

Lemma byteAt_get s i c : String.get i s = Some c -> byteAt s i = c.
Proof. unfold byteAt. now intros ->. Qed.

Lemma substring_all (s : string) : String.substring 0 (String.length s) s = s.
Proof. induction s as [|c s IH]; simpl; [reflexivity | now rewrite IH]. Qed.

(** Cutting a string at index [i] and putting the byte back. *)
Lemma slice_rejoin (s : string) : forall i c,
  String.get i s = Some c ->
  slice s 0 i +:+ String c (slice s (i + 1) (len s)) = s.
Proof.
  unfold slice, len.
  induction s as [|x s IH]; intros i c H; [discriminate|].
  destruct i as [|i].
  - simpl in H. inversion H; subst. cbn. rewrite sapp_nil_l. f_equal.
    rewrite Nat.sub_0_r. apply substring_all.
  - simpl in H. specialize (IH i c H). rewrite Nat.sub_0_r in IH.
    cbn. rewrite sapp_cons. f_equal. exact IH.
Qed.

(** The tail cut after index [i] starts with the byte at [i + 1]. *)
Lemma slice_tail_head (s : string) : forall i d,
  String.get i s = Some d ->
  exists rest, slice s i (len s) = String d rest.
Proof.
  unfold slice, len.
  induction s as [|x s IH]; intros i d H; simpl in *; [discriminate|].
  destruct i as [|i]; simpl in *.
  - inversion H; subst. eexists; reflexivity.
  - apply IH. exact H.
Qed.

End GoStringFacts.

(** ** parseApkPackage *)

Module SbomFacts.
Import GoString GoStringFacts Sbom.

Lemma isDigit_range (d : ascii) : isDigit d = true <-> (48 <= nat_of_ascii d <= 57)%nat.
Proof.
  unfold isDigit, byte_ltb. rewrite andb_true_iff, !negb_true_iff, !Nat.ltb_ge.
  change (nat_of_ascii "0") with 48%nat. change (nat_of_ascii "9") with 57%nat. lia.
Qed.

(** The test of the loop is the specification's "hyphen right before a
    digit". *)
Lemma splitsAt_spec (s : string) (i : nat) :
  splitsAt s i = true <-> hyphenBeforeDigit s i.
Proof.
  unfold splitsAt, hyphenBeforeDigit. rewrite !andb_true_iff, Nat.ltb_lt. split.
  - intros [[Hc Hlt] Hd].
    apply get_lt in Hlt. destruct Hlt as [d Hget].
    rewrite (byteAt_get _ _ _ Hget) in Hd. apply isDigit_range in Hd.
    split; [| exists d; auto].
    unfold byteAt in Hc. destruct (String.get i s) as [c|] eqn:Hi.
    + apply Ascii.eqb_eq in Hc. now subst.
    + discriminate.
  - intros [Hi [d [Hget Hd]]].
    rewrite (byteAt_get _ _ _ Hi), (byteAt_get _ _ _ Hget).
    repeat split.
    + apply get_lt. eauto.
    + now apply isDigit_range.
Qed.

Lemma scanDown_Some (s : string) : forall n i,
  scanDown s n = Some i ->
  (i < n)%nat /\ splitsAt s i = true /\ forall j, (i < j < n)%nat -> splitsAt s j = false.
Proof.
  induction n as [|n IH]; intros i H; simpl in H; [discriminate|].
  destruct (splitsAt s n) eqn:Hn.
  - inversion H; subst. repeat split; [lia | assumption | intros j Hj; lia].
  - destruct (IH i H) as (Hlt & Hi & Hrest). repeat split; [lia | assumption |].
    intros j Hj. destruct (Nat.eq_dec j n) as [->|Hne]; [assumption | apply Hrest; lia].
Qed.

Lemma scanDown_None (s : string) : forall n,
  scanDown s n = None -> forall j, (j < n)%nat -> splitsAt s j = false.
Proof.
  induction n as [|n IH]; intros H j Hj; [lia|]. simpl in H.
  destruct (splitsAt s n) eqn:Hn; [discriminate|].
  destruct (Nat.eq_dec j n) as [->|Hne]; [assumption | apply IH; [assumption | lia]].
Qed.

Lemma splitsAt_inside (s : string) (j : nat) : splitsAt s j = true -> (j + 1 < len s)%nat.
Proof. unfold splitsAt. rewrite !andb_true_iff, Nat.ltb_lt. tauto. Qed.

Lemma splitsAt_outside (s : string) (j : nat) : (len s <= j)%nat -> splitsAt s j = false.
Proof.
  intros H. destruct (splitsAt s j) eqn:E; [|reflexivity].
  apply splitsAt_inside in E. lia.
Qed.

(** C5. The package-line parser splits at the last hyphen that stands right
    before a digit: "busybox-1.36.1-r1" gives ("busybox", "1.36.1-r1"); and
    a line with no such hyphen, like "no-version-here", comes back whole
    with the version "unknown". *)
Theorem parseApkPackage_last_hyphen_before_digit :
  parseApkPackage "busybox-1.36.1-r1" = ("busybox", "1.36.1-r1") /\
  parseApkPackage "no-version-here" = ("no-version-here", "unknown") /\
  forall s,
    (exists i, hyphenBeforeDigit s i /\
               (forall j, (i < j)%nat -> ~ hyphenBeforeDigit s j) /\
               parseApkPackage s = (slice s 0 i, slice s (i + 1) (len s)))
    \/ ((forall j, ~ hyphenBeforeDigit s j) /\ parseApkPackage s = (s, "unknown")).
Proof.
  split; [reflexivity|]. split; [reflexivity|].
  intros s. unfold parseApkPackage.
  destruct (scanDown s (len s)) as [i|] eqn:Hscan.
  - left. exists i. destruct (scanDown_Some _ _ _ Hscan) as (Hlt & Hi & Hrest).
    split; [now apply splitsAt_spec|]. split; [|reflexivity].
    intros j Hj Hspec. apply splitsAt_spec in Hspec.
    destruct (Nat.lt_ge_cases j (len s)) as [Hin|Hout].
    + rewrite Hrest in Hspec by lia. discriminate.
    + rewrite splitsAt_outside in Hspec by assumption. discriminate.
  - right. split; [|reflexivity].
    intros j Hspec. apply splitsAt_spec in Hspec.
    destruct (Nat.lt_ge_cases j (len s)) as [Hin|Hout].
    + rewrite (scanDown_None _ _ Hscan j Hin) in Hspec. discriminate.
    + rewrite splitsAt_outside in Hspec by assumption. discriminate.
Qed.

(** C9. Whatever the line, the parser returns a pair whose version is not
    empty; and when the version is not "unknown", name, a hyphen and the
    version put together are the line again, and the version starts with a
    decimal digit. *)
Theorem parseApkPackage_rejoins (s name version : string)
  (Hparse : parseApkPackage s = (name, version)) :
  version <> EmptyString /\
  (version <> "unknown" ->
   name +:+ "-" +:+ version = s /\
   exists d rest, version = String d rest /\ (48 <= nat_of_ascii d <= 57)%nat).
Proof.
  unfold parseApkPackage in Hparse.
  destruct (scanDown s (len s)) as [i|] eqn:Hscan.
  - inversion Hparse; subst name version; clear Hparse.
    destruct (scanDown_Some _ _ _ Hscan) as (_ & Hi & _).
    apply splitsAt_spec in Hi. destruct Hi as [Hhy [d [Hd Hrange]]].
    destruct (slice_tail_head s (i + 1) d Hd) as [rest Hrest].
    split; [rewrite Hrest; discriminate|].
    intros _. split.
    + change ("-" +:+ slice s (i + 1) (len s)) with (String "-" (slice s (i + 1) (len s))).
      now apply slice_rejoin.
    + exists d, rest. split; assumption.
  - inversion Hparse; subst. split; [discriminate|]. intros H. now contradiction H.
Qed.

Lemma parseApkPackage_rejoins_witness :
  parseApkPackage "busybox-1.36.1-r1" = ("busybox", "1.36.1-r1") /\
  "1.36.1-r1" <> EmptyString /\
  ("1.36.1-r1" <> "unknown" ->
   "busybox" +:+ "-" +:+ "1.36.1-r1" = "busybox-1.36.1-r1" /\
   exists d rest, "1.36.1-r1" = String d rest /\ (48 <= nat_of_ascii d <= 57)%nat).
Proof.
  split; [reflexivity|].
  apply (parseApkPackage_rejoins "busybox-1.36.1-r1" "busybox" "1.36.1-r1"). reflexivity.
Defined.

End SbomFacts.

(** ** Lines, fields and sorting *)

Module LineFacts.
Import GoString GoStringFacts.


Lemma splitOn_sepFree sep s : Forall (fun x => sepFree sep x = true) (splitOn sep s).
Proof.
  induction s as [|c s IH]; simpl.
  - constructor; [reflexivity | constructor].
  - destruct (Ascii.eqb c sep) eqn:E.
    + constructor; [reflexivity | exact IH].
    + destruct (splitOn sep s) as [|h t]; inversion IH; subst; constructor; simpl; try rewrite E; auto.
Qed.

Lemma splitOn_app sep x r :
  sepFree sep x = true -> splitOn sep (x +:+ String sep r) = x :: splitOn sep r.
Proof.
  induction x as [|c x IH]; intros H.
  - rewrite sapp_nil_l. simpl. now rewrite Ascii.eqb_refl.
  - simpl in H. apply andb_true_iff in H as [Hc Hx]. apply negb_true_iff in Hc.
    rewrite sapp_cons. simpl. rewrite Hc, (IH Hx). reflexivity.
Qed.

Lemma splitOn_single sep x : sepFree sep x = true -> splitOn sep x = [x].
Proof.
  induction x as [|c x IH]; intros H; [reflexivity|].
  simpl in H. apply andb_true_iff in H as [Hc Hx]. apply negb_true_iff in Hc.
  simpl. rewrite Hc, (IH Hx). reflexivity.
Qed.

(** Splitting what was joined gives the pieces back. *)
Lemma splitOn_joinWith sep l :
  l <> [] -> Forall (fun x => sepFree sep x = true) l -> splitOn sep (joinWith sep l) = l.
Proof.
  induction l as [|x l IH]; intros Hne Hall; [congruence|].
  inversion Hall as [|? ? Hx Hl]; subst.
  destruct l as [|y l].
  - simpl. now apply splitOn_single.
  - change (joinWith sep (x :: y :: l)) with (x +:+ String sep (joinWith sep (y :: l))).
    rewrite (splitOn_app _ _ _ Hx). f_equal. apply IH; [discriminate | assumption].
Qed.

Lemma geq_trans a b c : geq a b -> geq b c -> geq a c.
Proof.
  unfold geq. intros Hab Hbc.
  destruct (ltb a c) eqn:Hac; [|reflexivity].
  destruct (ltb b a) eqn:Hba.
  - rewrite (ltb_trans _ _ _ Hba Hac) in Hbc. discriminate.
  - rewrite (ltb_total _ _ Hab Hba) in Hac. congruence.
Qed.

Lemma insertReverse_perm x l : Permutation (insertReverse x l) (x :: l).
Proof.
  induction l as [|y l IH]; simpl; [reflexivity|].
  destruct (ltb x y); [|reflexivity].
  rewrite IH. apply perm_swap.
Qed.

Lemma sortReverse_perm l : Permutation (sortReverse l) l.
Proof.
  induction l as [|x l IH]; simpl; [reflexivity|].
  unfold sortReverse in *. simpl. rewrite insertReverse_perm. now constructor.
Qed.

Lemma insertReverse_sorted x l :
  StronglySorted geq l -> StronglySorted geq (insertReverse x l).
Proof.
  induction l as [|y l IH]; intros Hs; simpl.
  - constructor; constructor.
  - inversion Hs as [|? ? Hl Hy]; subst.
    destruct (ltb x y) eqn:Hxy.
    + constructor; [now apply IH|].
      eapply Permutation_Forall; [symmetry; apply insertReverse_perm|].
      constructor; [| exact Hy]. unfold geq. now apply ltb_asym.
    + constructor; [exact Hs|]. constructor; [exact Hxy|].
      eapply Forall_impl; [exact Hy|]. intros z Hz. simpl in Hz.
      eapply geq_trans; [exact Hxy | exact Hz].
Qed.

Lemma sortReverse_sorted l : StronglySorted geq (sortReverse l).
Proof.
  induction l as [|x l IH]; unfold sortReverse in *; simpl; [constructor|].
  now apply insertReverse_sorted.
Qed.

Lemma sorted_lookup (R : string -> string -> Prop) (l : list string) :
  StronglySorted R l ->
  forall i j a b, (i < j)%nat -> l !! i = Some a -> l !! j = Some b -> R a b.
Proof.
  induction 1 as [|x l Hs IH Hx]; intros i j a b Hij Hi Hj; [discriminate|].
  destruct j as [|j]; [lia|]. simpl in Hj.
  destruct i as [|i]; simpl in Hi.
  - inversion Hi; subst. rewrite Forall_forall in Hx. apply Hx.
    eapply list_elem_of_lookup_2. exact Hj.
  - eapply IH; [| exact Hi | exact Hj]. lia.
Qed.

(** In descending order a path comes after every path below it. *)
Lemma descending_child_first (l : list string) :
  StronglySorted geq l ->
  forall i j parent child,
    l !! i = Some parent -> l !! j = Some child ->
    HasPrefix child (parent +:+ "/") = true -> (j < i)%nat.
Proof.
  intros Hs i j parent child Hi Hj Hpre.
  apply HasPrefix_app in Hpre as [rest Hrest].
  assert (Hlt : ltb parent child = true).
  { subst child. rewrite sapp_assoc. apply ltb_app_r. discriminate. }
  destruct (Nat.lt_trichotomy i j) as [Hlt'|[Heq|Hgt]]; [| |exact Hgt].
  - pose proof (sorted_lookup _ _ Hs i j parent child Hlt' Hi Hj) as Hge.
    unfold geq in Hge. congruence.
  - subst j. rewrite Hi in Hj. injection Hj as Heq.
    rewrite <- Heq, ltb_irrefl in Hlt. discriminate.
Qed.

End LineFacts.

(** ** Unmount *)

Module UnmountFacts.
Import GoString GoStringFacts LineFacts Host Rootfs Scenarios.

Lemma collectMountPoints_filter (r : Rootfs) (lines : list string) :
  collectMountPoints r lines
  = List.filter (fun mp => HasPrefix mp (Path r +:+ "/")) (omap lineMountPoint lines).
Proof.
  unfold collectMountPoints.
  enough (H : forall acc,
             foldl (fun mountPoints line =>
                      match Fields line with
                      | _ :: mp :: _ =>
                          if HasPrefix mp (Path r +:+ "/") then (mountPoints ++ [mp])%list
                          else mountPoints
                      | _ => mountPoints
                      end) acc lines
             = (acc ++ List.filter (fun mp => HasPrefix mp (Path r +:+ "/"))
                                   (omap lineMountPoint lines))%list)
    by apply (H []).
  induction lines as [|l lines IH]; intros acc; simpl.
  - now rewrite app_nil_r.
  - rewrite IH. unfold lineMountPoint at 2.
    destruct (Fields l) as [|f0 [|mp fs]]; simpl; try reflexivity.
    destruct (HasPrefix mp (Path r +:+ "/")); simpl; [|reflexivity].
    now rewrite <- List.app_assoc.
Qed.

Lemma collect_descendantMounts (r : Rootfs) (w : World) :
  collectMountPoints r (SplitNL (mtab w)) = descendantMounts r w.
Proof. apply collectMountPoints_filter. Qed.

Lemma umountsOf_umountEach (l : list string) : forall w,
  umountsOf (fst (umountEach l w)) = l.
Proof.
  induction l as [|mp l IH]; intros w; simpl; [reflexivity|].
  destruct (exec_umount mp w) as [ok w1].
  specialize (IH w1). destruct (umountEach l w1) as [tr w2]. simpl in *.
  unfold umountsOf in *. simpl. now rewrite IH.
Qed.

(** The commands of a call: the descendants of the rootfs path in the
    table, in descending order; none when the table cannot be read. *)
Lemma Unmount_issues (r : Rootfs) (w : World) :
  umountsOf (fst (Unmount r w))
  = if mtab_readable w then sortReverse (descendantMounts r w) else [].
Proof.
  unfold Unmount. destruct (mtab_readable w); simpl; [|reflexivity].
  now rewrite umountsOf_umountEach, collect_descendantMounts.
Qed.

(** C2, as amended. Unmount selects exactly the mount points of the table
    that are strict descendants of the rootfs path (none when the table
    cannot be read) and unmounts them in descending byte order of their
    paths; in that order every mount comes before the mounts above it. *)
Theorem Unmount_descending_order (r : Rootfs) (w : World) :
  let issued := umountsOf (fst (Unmount r w)) in
  (if mtab_readable w then Permutation issued (descendantMounts r w) else issued = []) /\
  StronglySorted geq issued /\
  (forall i j parent child,
      issued !! i = Some parent -> issued !! j = Some child ->
      HasPrefix child (parent +:+ "/") = true -> (j < i)%nat).
Proof.
  cbv zeta. rewrite Unmount_issues.
  assert (Hs : StronglySorted geq
                 (if mtab_readable w then sortReverse (descendantMounts r w) else [])).
  { destruct (mtab_readable w); [apply sortReverse_sorted | constructor]. }
  split; [| split; [exact Hs | now apply descending_child_first]].
  destruct (mtab_readable w); [apply sortReverse_perm | reflexivity].
Qed.

(** C2, as stated, fails: over mounts at a, a/b and c the order is
    c, a/b, a; the order is not by length, and not the order of the
    specification's example. *)
Lemma Unmount_order_is_not_by_length :
  umountsOf (fst (Unmount rootfsLive (hostWith tableABC (fun _ => false))))
  = [ "/tmp/distrorun-live/rootfs/c";
      "/tmp/distrorun-live/rootfs/a/b";
      "/tmp/distrorun-live/rootfs/a" ] /\
  umountsOf (fst (Unmount rootfsLive (hostWith tableABC (fun _ => false))))
  <> [ "/tmp/distrorun-live/rootfs/a/b";
       "/tmp/distrorun-live/rootfs/a";
       "/tmp/distrorun-live/rootfs/c" ] /\
  (len "/tmp/distrorun-live/rootfs/c" < len "/tmp/distrorun-live/rootfs/a/b")%nat.
Proof.
  split; [vm_compute; reflexivity|]. split; [vm_compute; discriminate | vm_compute; lia].
Qed.

Lemma tableMountPoints_join (ls : list string) :
  Forall (fun x => sepFree newline x = true) ls ->
  tableMountPoints (JoinNL ls) = omap lineMountPoint ls.
Proof.
  intros H. unfold tableMountPoints, SplitNL, JoinNL.
  destruct ls as [|l ls]; [reflexivity|].
  rewrite splitOn_joinWith; [reflexivity | discriminate | assumption].
Qed.

Lemma dropFirstLine_Forall (P : string -> Prop) mp (ls : list string) :
  Forall P ls -> Forall P (dropFirstLine mp ls).
Proof.
  induction 1 as [|l ls Hl Hls IH]; simpl; [constructor|].
  destruct (bool_decide (lineMountPoint l = Some mp)); [assumption | now constructor].
Qed.

Lemma dropFirstLine_perm mp (ls : list string) :
  mp ∈ omap lineMountPoint ls ->
  Permutation (omap lineMountPoint ls) (mp :: omap lineMountPoint (dropFirstLine mp ls)).
Proof.
  induction ls as [|l ls IH]; simpl; intros Hin.
  - now apply not_elem_of_nil in Hin.
  - destruct (bool_decide (lineMountPoint l = Some mp)) eqn:E.
    + apply bool_decide_eq_true in E. now rewrite E.
    + apply bool_decide_eq_false in E. simpl.
      destruct (lineMountPoint l) as [x|] eqn:Hl.
      * apply elem_of_cons in Hin as [->|Hin]; [congruence|].
        rewrite (IH Hin). apply perm_swap.
      * now apply IH.
Qed.

Lemma dropLastLine_perm mp (ls : list string) :
  mp ∈ omap lineMountPoint ls ->
  Permutation (omap lineMountPoint ls) (mp :: omap lineMountPoint (dropLastLine mp ls)).
Proof.
  intros Hin. unfold dropLastLine.
  assert (Hrev : Permutation (omap lineMountPoint (rev ls)) (omap lineMountPoint ls)).
  { apply omap_Permutation. symmetry. apply Permutation_rev. }
  rewrite <- Hrev in Hin.
  rewrite <- Hrev, (dropFirstLine_perm mp (rev ls) Hin).
  constructor. apply omap_Permutation. apply Permutation_rev.
Qed.

(** A successful umount takes one mount at [mp] out of the table and leaves
    the rest of the host as it was. *)
Lemma exec_umount_ok mp (w w1 : World) :
  exec_umount mp w = (true, w1) ->
  Permutation (tableMountPoints (mtab w)) (mp :: tableMountPoints (mtab w1)) /\
  mtab_readable w1 = mtab_readable w.
Proof.
  unfold exec_umount.
  destruct (busy w mp || negb (mountedAt w mp)) eqn:E; [congruence|].
  apply orb_false_iff in E as [_ Hm]. apply negb_false_iff in Hm.
  unfold mountedAt in Hm. apply bool_decide_eq_true in Hm.
  intros H. inversion H; subst; clear H. simpl. split; [|reflexivity].
  rewrite tableMountPoints_join.
  - apply dropLastLine_perm. exact Hm.
  - unfold dropLastLine. apply Forall_rev. apply dropFirstLine_Forall.
    apply Forall_rev. apply splitOn_sepFree.
Qed.

Lemma filter_perm (P : string -> bool) (l l' : list string) :
  Permutation l l' -> Permutation (List.filter P l) (List.filter P l').
Proof.
  induction 1; simpl; try reflexivity.
  - destruct (P x); [now constructor | assumption].
  - destruct (P x), (P y); try reflexivity. apply perm_swap.
  - etransitivity; eassumption.
Qed.

Lemma umountEach_all_ok (r : Rootfs) (l : list string) : forall w,
  Permutation l (descendantMounts r w) ->
  forallb umountOk (fst (umountEach l w)) = true ->
  descendantMounts r (snd (umountEach l w)) = [] /\
  mtab_readable (snd (umountEach l w)) = mtab_readable w.
Proof.
  induction l as [|mp l IH]; intros w Hperm Hok; simpl in *.
  - split; [|reflexivity]. now apply Permutation_nil.
  - destruct (exec_umount mp w) as [ok w1] eqn:Hex.
    specialize (IH w1). destruct (umountEach l w1) as [tr w2]. simpl in *.
    apply andb_true_iff in Hok as [-> Hok].
    destruct (exec_umount_ok _ _ _ Hex) as [Htab Hread].
    assert (Hmp : HasPrefix mp (Path r +:+ "/") = true).
    { assert (Hin : In mp (descendantMounts r w)).
      { eapply Permutation_in; [exact Hperm | now left]. }
      unfold descendantMounts in Hin. apply filter_In in Hin. tauto. }
    assert (Hdesc : Permutation (descendantMounts r w) (mp :: descendantMounts r w1)).
    { unfold descendantMounts.
      rewrite (filter_perm _ _ _ Htab). simpl. now rewrite Hmp. }
    rewrite Hdesc in Hperm. apply Permutation_cons_inv in Hperm.
    destruct (IH Hperm Hok) as [H1 H2]. split; [exact H1 | congruence].
Qed.


(** C6, as amended. With no descendant of the rootfs path in the mount
    table, Unmount runs no unmount and changes nothing; and a second call
    right after a call whose unmounts all succeeded runs none. *)
Theorem Unmount_idempotent (r : Rootfs) (w : World) :
  (descendantMounts r w = [] -> Unmount r w = ([], w)) /\
  (forallb umountOk (fst (Unmount r w)) = true ->
   fst (Unmount r (snd (Unmount r w))) = []).
Proof.
  split.
  - intros Hnone. unfold Unmount. destruct (mtab_readable w); [|reflexivity].
    simpl. now rewrite collect_descendantMounts, Hnone.
  - unfold Unmount at 1 3. destruct (mtab_readable w) eqn:Hread; simpl.
    + rewrite collect_descendantMounts. intros Hok.
      destruct (umountEach_all_ok r (sortReverse (descendantMounts r w)) w
                  (sortReverse_perm _) Hok) as [Hnone Hread'].
      unfold Unmount. rewrite Hread', Hread. simpl.
      now rewrite collect_descendantMounts, Hnone.
    + intros _. unfold Unmount. now rewrite Hread.
Qed.

Lemma Unmount_idempotent_witness :
  umountsOf (fst (Unmount rootfsLive (hostWith tableChroot (fun _ => false))))
  = [ "/tmp/distrorun-live/rootfs/sys";
      "/tmp/distrorun-live/rootfs/proc";
      "/tmp/distrorun-live/rootfs/dev" ] /\
  fst (Unmount rootfsLive (snd (Unmount rootfsLive (hostWith tableChroot (fun _ => false))))) = [].
Proof.
  split; [vm_compute; reflexivity|].
  apply (proj2 (Unmount_idempotent rootfsLive (hostWith tableChroot (fun _ => false)))).
  vm_compute. reflexivity.
Defined.

(** C6, as stated, fails: when the unmount of dev fails in the first call
    (the mount is busy), the second call, with no new mount, runs an
    unmount again. *)
Lemma Unmount_twice_retries_failed_unmount :
  let busyDev := fun mp => String.eqb mp "/tmp/distrorun-live/rootfs/dev" in
  fst (Unmount rootfsLive (hostWith tableChroot busyDev))
  = [ EvUmount "/tmp/distrorun-live/rootfs/sys" true;
      EvUmount "/tmp/distrorun-live/rootfs/proc" true;
      EvUmount "/tmp/distrorun-live/rootfs/dev" false ] /\
  fst (Unmount rootfsLive (snd (Unmount rootfsLive (hostWith tableChroot busyDev))))
  = [ EvUmount "/tmp/distrorun-live/rootfs/dev" false ].
Proof. split; vm_compute; reflexivity. Qed.

Lemma Unmount_descending_order_witness :
  umountsOf (fst (Unmount rootfsLive (hostWith tableABC nothing))) !! 2%nat
  = Some "/tmp/distrorun-live/rootfs/a" /\
  umountsOf (fst (Unmount rootfsLive (hostWith tableABC nothing))) !! 1%nat
  = Some "/tmp/distrorun-live/rootfs/a/b" /\
  (1 < 2)%nat.
Proof.
  split; [vm_compute; reflexivity|]. split; [vm_compute; reflexivity|].
  apply (proj2 (proj2 (Unmount_descending_order rootfsLive (hostWith tableABC nothing)))
           2%nat 1%nat "/tmp/distrorun-live/rootfs/a" "/tmp/distrorun-live/rootfs/a/b");
    vm_compute; reflexivity.
Defined.

End UnmountFacts.

(** ** CleanupRootfs and runBuild *)

Module CleanupFacts.
Import GoString Host Rootfs Main Scenarios.

(** C10. CleanupRootfs returns nil in every state of the host; so it does
    when the package cache cannot be removed and the dev directory cannot
    be read. *)
Theorem CleanupRootfs_returns_nil :
  (forall (r : Rootfs) (w : World), snd (CleanupRootfs r w) = None) /\
  (let r := mkRootfs "/tmp/distrorun-live/rootfs-gone" "/tmp/distrorun-live" "x86_64" in
   let w := mkWorld
              (list_to_map [ ("/tmp/distrorun-live/rootfs-gone/var/cache/apk", Dir 493);
                             ("/tmp/distrorun-live/rootfs-gone/var/cache/apk/lock", Regular 420 (Bytes EmptyString)) ])
              EmptyString true ∅ nothing
              (String.eqb "/tmp/distrorun-live/rootfs-gone/var/cache/apk/lock") 18 true in
   fst (fst (RemoveAll "/tmp/distrorun-live/rootfs-gone/var/cache/apk" w)) = false /\
   ReadDir "/tmp/distrorun-live/rootfs-gone/dev" w = None /\
   snd (CleanupRootfs r w) = None).
Proof.
  split.
  - intros r w. unfold CleanupRootfs.
    destruct (RemoveAll _ w) as [[ok tr1] w1].
    destruct (removeEntries _ _ w1) as [tr3 w2]. reflexivity.
  - cbv zeta. repeat split; vm_compute; reflexivity.
Qed.




(** C1, at an input where the code breaks it. The unmount of dev fails
    (the mount is busy); Unmount only warns, and the bind mount of the
    host's /dev is still active when it is done. CleanupRootfs then runs
    through that mount and unlinks the host's /dev/null and /dev/sda. *)
Theorem runBuild_cleans_through_busy_dev_mount :
  let w := hostAfterBootstrap busyDev nothing in
  snd (fst (runBuild buildLive w))
  = [ Done ParseArgs; Done CheckRoot; Done LoadConfig; Done CheckHostDeps;
      Done Bootstrap; Done InstallPackages; Done SetupUsers; Done MkStaging;
      Os (EvUmount "/tmp/distrorun-live/rootfs/sys" true);
      Os (EvUmount "/tmp/distrorun-live/rootfs/proc" true);
      Os (EvUmount "/tmp/distrorun-live/rootfs/dev" false);
      Os (EvRemoveAll "/tmp/distrorun-live/rootfs/var/cache/apk"
            [ "/tmp/distrorun-live/rootfs/var/cache/apk";
              "/tmp/distrorun-live/rootfs/var/cache/apk/APKINDEX.tar.gz" ]);
      Os (EvReadDir "/tmp/distrorun-live/rootfs/dev" true);
      Os (EvRemoveAll "/tmp/distrorun-live/rootfs/dev/null" ["/dev/null"]);
      Os (EvRemoveAll "/tmp/distrorun-live/rootfs/dev/sda" ["/dev/sda"]);
      Done BootloaderSetup; Done IsoBuild;
      Os (EvUmount "/tmp/distrorun-live/rootfs/dev" false);
      Os (EvRemoveAll "/tmp/distrorun-live"
            [ "/tmp/distrorun-live/rootfs/var";
              "/tmp/distrorun-live/rootfs/var/cache" ]) ] /\
  mountedAt (snd (Unmount rootfsLive w)) "/tmp/distrorun-live/rootfs/dev" = true /\
  files w !! "/dev/null" = Some (Regular 438 (Bytes EmptyString)) /\
  files (snd (runBuild buildLive w)) !! "/dev/null" = None /\
  fst (fst (runBuild buildLive w)) = 0%nat.
Proof. cbv zeta. repeat split; vm_compute; reflexivity. Qed.

(** CleanupRootfs itself checks nothing: called on the host as Bootstrap
    left it, with no Unmount before, it unlinks the host's device nodes. *)
Lemma CleanupRootfs_does_not_check_mounts :
  fst (fst (CleanupRootfs rootfsLive (hostAfterBootstrap nothing nothing)))
  = [ EvRemoveAll "/tmp/distrorun-live/rootfs/var/cache/apk"
        [ "/tmp/distrorun-live/rootfs/var/cache/apk";
          "/tmp/distrorun-live/rootfs/var/cache/apk/APKINDEX.tar.gz" ];
      EvReadDir "/tmp/distrorun-live/rootfs/dev" true;
      EvRemoveAll "/tmp/distrorun-live/rootfs/dev/null" ["/dev/null"];
      EvRemoveAll "/tmp/distrorun-live/rootfs/dev/sda" ["/dev/sda"] ].
Proof. vm_compute. reflexivity. Qed.

(** When every unmount succeeds, the same build leaves the host's /dev
    alone. *)
Lemma runBuild_spares_host_dev_when_unmounts_succeed :
  let w := hostAfterBootstrap nothing nothing in
  forallb umountOk (fst (Unmount rootfsLive w)) = true /\
  fst (fst (CleanupRootfs rootfsLive (snd (Unmount rootfsLive w))))
  = [ EvRemoveAll "/tmp/distrorun-live/rootfs/var/cache/apk"
        [ "/tmp/distrorun-live/rootfs/var/cache/apk";
          "/tmp/distrorun-live/rootfs/var/cache/apk/APKINDEX.tar.gz" ];
      EvReadDir "/tmp/distrorun-live/rootfs/dev" true ] /\
  files (snd (runBuild buildLive w)) !! "/dev/null" = Some (Regular 438 (Bytes EmptyString)).
Proof. cbv zeta. repeat split; vm_compute; reflexivity. Qed.

End CleanupFacts.

(** ** The live-boot init script *)

Module LiveInitFacts.
Import GoString Initramfs LiveInit Scenarios.

(** The program is the script: printed back, it is [customInit] line by
    line. *)
Lemma script_is_customInit : flat_map render script = customInitLines.
Proof. vm_compute. reflexivity. Qed.

Ltac split_dev dev H t :=
  match type of H with
  | context [dev "/dev/sr0" t] =>
      let E := fresh "Hdev" in destruct (dev "/dev/sr0" t) eqn:E; vm_compute in H
  | _ => idtac
  end.

Ltac split_img img H :=
  repeat match type of H with
         | context [img ?p ?t] =>
             let E := fresh "Himg" in destruct (img p t) eqn:E; vm_compute in H
         end.

Ltac never_contradiction :=
  match goal with
  | Hnever : forall t, (t <= 10)%nat -> ?dev _ t = false,
    Hdev : ?dev _ ?k = true |- _ =>
      rewrite Hnever in Hdev by lia; discriminate
  end.

(** C8. On every machine the script ends within its bound of steps. It
    sleeps one second at a time, at most ten times; with no device node
    after ten seconds it replaces itself by a shell without mounting
    anything; with the device but no squashfs image on the media it does
    the same; and no command other than the sleep of the wait runs twice. *)
Theorem boot_polls_at_most_ten_times (m : Machine) :
  exists tr, boot 200 m = Some tr /\ boundedWait m tr.
Proof.
  destruct m as [dev img].
  remember (boot 200 (mkMachine dev img)) as res eqn:Hres.
  vm_compute in Hres.
  split_dev dev Hres 0%nat; split_dev dev Hres 1%nat; split_dev dev Hres 2%nat;
  split_dev dev Hres 3%nat; split_dev dev Hres 4%nat; split_dev dev Hres 5%nat;
  split_dev dev Hres 6%nat; split_dev dev Hres 7%nat; split_dev dev Hres 8%nat;
  split_dev dev Hres 9%nat; split_dev dev Hres 10%nat;
  split_img img Hres; subst res; eexists; (split; [reflexivity|]);
    unfold boundedWait; cbn [blockDevice regularFile];
    (split; [vm_compute; reflexivity|]);
    (split; [vm_compute; lia|]);
    (split; [intros Hnever; first [never_contradiction | repeat split; vm_compute; reflexivity]|]);
    (split; [intros Hd; first [reflexivity | vm_compute in Hd; congruence]|]);
    (split; [intros Hran Himg'; first [discriminate Hran | vm_compute in Himg'; first [congruence | repeat split; vm_compute; reflexivity]]|]);
    (split; [intros Hran Himg'; first [discriminate Hran | vm_compute in Himg'; first [congruence | vm_compute; reflexivity]]|]);
    apply (bool_decide_unpack _); vm_compute; exact I.
Qed.

Lemma boot_polls_at_most_ten_times_witness :
  exists tr, boot 200 noDevice = Some tr /\
             polls tr = 10%nat /\ last tr = Some (Replaced "exec /bin/sh") /\
             ran tr mountMedia = false.
Proof.
  destruct (boot_polls_at_most_ten_times noDevice) as (tr & Hboot & Hwait).
  exists tr. split; [exact Hboot|].
  destruct Hwait as (_ & _ & Hnever & _).
  apply Hnever. intros t _. reflexivity.
Defined.

End LiveInitFacts.
(** ** downloadMinirootfs *)

Module DownloadFacts.
Import GoString Host HostFs Rootfs Download Scenarios.

Lemma findMinirootfs_first (before after : list alpineRelease) (rel : alpineRelease) :
  Forall (fun x => Flavor x <> minirootfs) before ->
  Flavor rel = minirootfs ->
  findMinirootfs (before ++ rel :: after) = File rel.
Proof.
  intros Hbefore Hrel. induction Hbefore as [|x before Hx _ IH]; simpl.
  - now rewrite Hrel.
  - apply String.eqb_neq in Hx. unfold minirootfs in Hx. now rewrite Hx.
Qed.

Lemma findMinirootfs_none (releases : list alpineRelease) :
  Forall (fun x => Flavor x <> minirootfs) releases -> findMinirootfs releases = EmptyString.
Proof.
  induction 1 as [|x l Hx _ IH]; simpl; [reflexivity|].
  apply String.eqb_neq in Hx. unfold minirootfs in Hx. now rewrite Hx.
Qed.

(** C7. downloadMinirootfs asks for the release index at the base URL of
    the architecture; the first record of the index with flavor
    "alpine-minirootfs" is selected and its file is requested from
    baseURL + "/" + file. The call fails, after the index request alone,
    when the index cannot be fetched, comes with a status other than 200,
    or holds no such record. On the example index the tarball is fetched
    from baseURL + "/minirootfs-3.19.tar.gz" and stored. *)
Theorem downloadMinirootfs_selects_minirootfs (r : Rootfs) (dest : string) (net : Net) (w : World) :
  let baseURL := "https://dl-cdn.alpinelinux.org/alpine/latest-stable/releases/" +:+ arch r in
  let indexURL := baseURL +:+ "/latest-releases.yaml" in
  let res := downloadMinirootfs r dest net w in
  (httpGet net indexURL = None -> failed res /\ requested res = [indexURL]) /\
  (forall resp, httpGet net indexURL = Some resp -> StatusCode resp <> 200%nat ->
                failed res /\ requested res = [indexURL]) /\
  (forall resp body releases,
      httpGet net indexURL = Some resp -> StatusCode resp = 200%nat ->
      Body resp = Some body -> yamlUnmarshal net body = Some releases ->
      Forall (fun x => Flavor x <> minirootfs) releases ->
      failed res /\ requested res = [indexURL]) /\
  (forall resp body before rel after,
      httpGet net indexURL = Some resp -> StatusCode resp = 200%nat ->
      Body resp = Some body -> yamlUnmarshal net body = Some (before ++ rel :: after)%list ->
      Forall (fun x => Flavor x <> minirootfs) before ->
      Flavor rel = minirootfs -> File rel <> EmptyString ->
      requested res = [indexURL; baseURL +:+ "/" +:+ File rel]) /\
  (requested (downloadMinirootfs (mkRootfs "/tmp/distrorun-live/rootfs" "/tmp/distrorun-live" "x86_64") "/tmp/distrorun-live/minirootfs.tar.gz"
                                 exampleNet exampleHost)
   = [ exampleBase +:+ "/latest-releases.yaml"; exampleBase +:+ "/minirootfs-3.19.tar.gz" ] /\
   fst (fst (downloadMinirootfs (mkRootfs "/tmp/distrorun-live/rootfs" "/tmp/distrorun-live" "x86_64") "/tmp/distrorun-live/minirootfs.tar.gz"
                                exampleNet exampleHost)) = None /\
   files (snd (downloadMinirootfs (mkRootfs "/tmp/distrorun-live/rootfs" "/tmp/distrorun-live" "x86_64") "/tmp/distrorun-live/minirootfs.tar.gz"
                                  exampleNet exampleHost))
     !! "/tmp/distrorun-live/minirootfs.tar.gz" = Some (Regular 420 (Bytes "tarball"))).
Proof.
  cbv zeta. unfold failed, requested, downloadMinirootfs, StatusOK.
  split; [|split; [|split; [|split; [|repeat split; vm_compute; reflexivity]]]].
  - intros H. rewrite H. simpl. eauto.
  - intros resp H H0. rewrite H. apply Nat.eqb_neq in H0. rewrite H0. simpl. eauto.
  - intros resp body releases H H0 H1 H2 H3.
    rewrite H, H0. simpl. rewrite H1, H2, (findMinirootfs_none _ H3). simpl. eauto.
  - intros resp body before rel after H H0 H1 H2 H3 H4 H5.
    rewrite H, H0. simpl. rewrite H1, H2, (findMinirootfs_first _ _ _ H3 H4).
    apply String.eqb_neq in H5. rewrite H5.
    match goal with
    | |- context [match httpGet net ?u with _ => _ end] =>
        destruct (httpGet net u) as [resp2|]; [|reflexivity]
    end.
    destruct (negb _); [reflexivity|].
    destruct (Create dest w) as [[e|u] w1]; [reflexivity|].
    destruct (Body resp2); [|reflexivity].
    destruct (writeThrough dest _ _ w1) as [[e|u'] w2]; reflexivity.
Qed.

Lemma downloadMinirootfs_selects_minirootfs_witness :
  requested (downloadMinirootfs rootfsLive "/tmp/distrorun-live/minirootfs.tar.gz"
                                exampleNet exampleHost)
  = [ exampleBase +:+ "/latest-releases.yaml"; exampleBase +:+ "/minirootfs-3.19.tar.gz" ].
Proof.
  apply (proj1 (proj2 (proj2 (proj2
           (downloadMinirootfs_selects_minirootfs
              rootfsLive "/tmp/distrorun-live/minirootfs.tar.gz" exampleNet exampleHost))))
           (mkResponse 200 (Some "index")) "index" []
           (mkRelease "alpine-minirootfs" "minirootfs-3.19.tar.gz") []);
    try (vm_compute; reflexivity).
  - constructor.
  - discriminate.
Defined.

End DownloadFacts.

(** ** PatchInitramfs *)

Module InitramfsFacts.
Import GoString Host HostFs Rootfs Initramfs Scenarios.

(** C3, at an input where the code breaks it. The archive holds an init of
    mode 0644. After patching, a and b are as they were and init holds the
    fixed script, but its mode is still 0644 (420), not 0755 (493):
    os.WriteFile sets the mode only when it creates the file. *)
Theorem PatchInitramfs_keeps_mode_of_existing_init :
  fst (PatchInitramfs rootfsLive (hostWithInitramfs (Gzip archivePlainInit))) = None /\
  files (snd (PatchInitramfs rootfsLive (hostWithInitramfs (Gzip archivePlainInit))))
    !! initramfsLts
  = Some (Regular 420
            (Gzip (Cpio [ (".", Dir 493);
                          ("a", Regular 420 (Bytes "A"));
                          ("b", Symlink "a");
                          ("init", Regular 420 (Bytes customInit)) ]))).
Proof. split; vm_compute; reflexivity. Qed.

(** On the specification's example, where the archive has no init, the
    round trip keeps a and b and adds init with mode 0755. *)
Lemma PatchInitramfs_creates_init_executable :
  fst (PatchInitramfs rootfsLive (hostWithInitramfs (Gzip archiveNoInit))) = None /\
  files (snd (PatchInitramfs rootfsLive (hostWithInitramfs (Gzip archiveNoInit))))
    !! initramfsLts
  = Some (Regular 420
            (Gzip (Cpio [ (".", Dir 493);
                          ("a", Regular 420 (Bytes "A"));
                          ("b", Symlink "a");
                          ("init", Regular 493 (Bytes customInit)) ]))).
Proof. split; vm_compute; reflexivity. Qed.

(** When init is a symbolic link, the script is written to the file the
    link names, and init stays a link. *)
Lemma PatchInitramfs_writes_through_init_link :
  files (snd (PatchInitramfs rootfsLive
                (hostWithInitramfs (Gzip (Cpio [ ("a", Regular 420 (Bytes "A"));
                                                 ("init", Symlink "a") ])))))
    !! initramfsLts
  = Some (Regular 420
            (Gzip (Cpio [ (".", Dir 493);
                          ("a", Regular 420 (Bytes customInit));
                          ("init", Symlink "a") ]))).
Proof. vm_compute. reflexivity. Qed.

Lemma bind_ok {A B} (c : M A) (k : A -> M B) (w w' : World) (b : B) :
  bind c k w = (inr b, w') -> exists a w1, c w = (inr a, w1) /\ k a w1 = (inr b, w').
Proof.
  unfold bind. destruct (c w) as [[e|a] w1]; [discriminate|]. intros H. now exists a, w1.
Qed.

Lemma orFail_ok {A} (msg : string) (c : M A) (w w' : World) (a : A) :
  orFail msg c w = (inr a, w') -> c w = (inr a, w').
Proof. unfold orFail. destruct (c w) as [[e|a'] w1]; [discriminate | trivial]. Qed.

Lemma resolve_with_files (f : gmap string inode) (w : World) (p : string) :
  resolve (with_files f w) p = resolve w p.
Proof. reflexivity. Qed.

(** The path at the end of a chain of links is no link. *)
Lemma followLinks_end (fuel : nat) (w : World) : forall p q,
  followLinks fuel w p = Some q -> forall t, files w !! resolve w q <> Some (Symlink t).
Proof.
  induction fuel as [|n IH]; intros p q H t; simpl in H.
  - destruct (files w !! resolve w p) as [[m|m d|t']|] eqn:E; inversion H; subst; congruence.
  - destruct (files w !! resolve w p) as [[m|m d|t']|] eqn:E;
      try (inversion H; subst; congruence).
    eapply IH. exact H.
Qed.

(** Writing a regular file at the end of the chain leaves the chain as it
    is. *)
Lemma followLinks_insert (fuel : nat) (w : World) (m : N) (d : data) : forall p q,
  followLinks fuel w p = Some q ->
  followLinks fuel (with_files (<[resolve w q := Regular m d]> (files w)) w) p = Some q.
Proof.
  induction fuel as [|n IH]; intros p q H; pose proof (followLinks_end _ _ _ _ H) as Hend;
    simpl in *; rewrite resolve_with_files.
  - destruct (decide (resolve w q = resolve w p)) as [Heq|Hne].
    + rewrite Heq, lookup_insert_eq.
      destruct (files w !! resolve w p) as [[?|? ?|t']|] eqn:E; inversion H; subst; reflexivity.
    + rewrite lookup_insert_ne by assumption.
      destruct (files w !! resolve w p) as [[?|? ?|t']|] eqn:E; inversion H; subst; congruence.
  - destruct (decide (resolve w q = resolve w p)) as [Heq|Hne].
    + rewrite Heq, lookup_insert_eq.
      destruct (files w !! resolve w p) as [[?|? ?|t']|] eqn:E;
        try (inversion H; subst; reflexivity).
      exfalso. apply (Hend t'). now rewrite Heq.
    + rewrite lookup_insert_ne by assumption.
      destruct (files w !! resolve w p) as [[?|? ?|t']|] eqn:E;
        try (inversion H; subst; congruence).
      now apply IH.
Qed.

(** What was written is what is read. *)
Lemma writeThrough_lookup (p : string) (d : data) (perm : N) (w w' : World) :
  writeThrough p d perm w = (inr tt, w') ->
  exists m, lookupPath w' p = Some (Regular m d).
Proof.
  unfold writeThrough, lookupPath.
  destruct (followLinks 40 w p) as [q|] eqn:Hq; [|discriminate].
  destruct (files w !! resolve w q) as [[m|m d0|t]|] eqn:E; try discriminate.
  - intros H. inversion H; subst; clear H.
    rewrite (followLinks_insert _ _ _ _ _ _ Hq), resolve_with_files. simpl.
    rewrite lookup_insert_eq. eauto.
  - destruct (isDirectory w (parentDir q)); [|discriminate].
    intros H. inversion H; subst; clear H.
    rewrite (followLinks_insert _ _ _ _ _ _ Hq), resolve_with_files. simpl.
    rewrite lookup_insert_eq. eauto.
Qed.

Lemma ReadFile_state (p : string) (w w' : World) (d : data) :
  ReadFile p w = (inr d, w') -> w' = w /\ exists m, lookupPath w p = Some (Regular m d).
Proof.
  unfold ReadFile. destruct (lookupPath w p) as [[m|m d0|t]|]; try discriminate.
  intros H. inversion H; subst. eauto.
Qed.

Lemma cpioPack_writes (dir out : string) (w w' : World) :
  cpioPack dir out w = (inr tt, w') ->
  exists m members, lookupPath w' out = Some (Regular m (Cpio members)).
Proof.
  unfold cpioPack. destruct (negb (has_cpio w)); [discriminate|].
  destruct (negb (isDirectory w dir)); [discriminate|].
  intros H. apply writeThrough_lookup in H as [m Hm]. eauto.
Qed.

Ltac step_ok H :=
  let a := fresh "a" in
  let w := fresh "w" in
  let Hc := fresh "Hstep" in
  apply bind_ok in H as (a & w & Hc & H); apply orFail_ok in Hc;
  match type of a with
  | unit => destruct a
  | _ => idtac
  end.

(** Whatever file the output path names, a successful run of the body
    leaves a gzip stream of a cpio archive there. *)
Lemma patchSteps_writes_gzip (ip wd : string) (w w' : World) :
  patchSteps ip wd w = (inr tt, w') ->
  exists m members, lookupPath w' ip = Some (Regular m (Gzip (Cpio members))).
Proof.
  unfold patchSteps. intros H.
  apply bind_ok in H as (cpioPath & w1 & _ & H).
  unfold repack in H.
  step_ok H. step_ok H. step_ok H. step_ok H. step_ok H.
  apply cpioPack_writes in Hstep3 as (m & members & Hpacked).
  step_ok H. apply ReadFile_state in Hstep3 as [-> (m' & Hread)].
  rewrite Hpacked in Hread. inversion Hread; subst.
  step_ok H. step_ok H.
  unfold ret in H. inversion H; subst.
  unfold gzipTo in Hstep4. apply writeThrough_lookup in Hstep4 as [m2 Hm2].
  eauto.
Qed.

(** C4. When gzip.NewReader refuses the file (no gzip header), the file
    itself is taken as the cpio archive and nothing has failed; whenever
    PatchInitramfs succeeds, what it has written to the initramfs path is
    a gzip stream of a cpio archive; and it succeeds, with the same
    result, on a gzip-compressed archive and on the same archive
    uncompressed. *)
Theorem PatchInitramfs_accepts_raw_and_writes_gzip :
  (forall ip wd w d e,
      ReadFile ip w = (inr d, w) -> gzipNewReader d = inl e ->
      unpackSource ip wd w = (inr ip, w)) /\
  (forall r w,
      fst (PatchInitramfs r w) = None ->
      exists ip w1 m members,
        fst (locateInitramfs (Join [Path r; "boot"]) w) = inr ip /\
        lookupPath w1 ip = Some (Regular m (Gzip (Cpio members))) /\
        snd (PatchInitramfs r w) = snd (RemoveAll (Join [WorkDir r; "initramfs-work"]) w1)) /\
  (let patched := Gzip (Cpio [ (".", Dir 493);
                               ("a", Regular 420 (Bytes "A"));
                               ("b", Symlink "a");
                               ("init", Regular 493 (Bytes customInit)) ]) in
   fst (PatchInitramfs rootfsLive (hostWithInitramfs (Gzip archiveNoInit))) = None /\
   files (snd (PatchInitramfs rootfsLive (hostWithInitramfs (Gzip archiveNoInit))))
     !! initramfsLts = Some (Regular 420 patched) /\
   fst (PatchInitramfs rootfsLive (hostWithInitramfs archiveNoInit)) = None /\
   files (snd (PatchInitramfs rootfsLive (hostWithInitramfs archiveNoInit)))
     !! initramfsLts = Some (Regular 420 patched)).
Proof.
  split; [|split].
  - intros ip wd w d e Hread Hgz. unfold unpackSource, bind, orFail.
    rewrite Hread. unfold Open. unfold ReadFile in Hread.
    destruct (lookupPath w ip) as [[m|m d0|t]|]; try discriminate.
    inversion Hread; subst. now rewrite Hgz.
  - intros r w Hnone. unfold PatchInitramfs in *.
    destruct (locateInitramfs (Join [Path r; "boot"]) w) as [[e|ip] w1]; [discriminate|].
    destruct (orFail _ (MkdirAll _ 493) w1) as [[e|u] w2]; [discriminate|].
    destruct (patchSteps ip _ w2) as [[e|[]] w3] eqn:Hsteps;
      destruct (RemoveAll _ w3) as [[ok tr] w4] eqn:Hrm; [discriminate|].
    apply patchSteps_writes_gzip in Hsteps as (m & members & Hgz).
    exists ip, w3, m, members. repeat split; [exact Hgz | now rewrite Hrm].
  - cbv zeta. repeat split; vm_compute; reflexivity.
Qed.

Lemma PatchInitramfs_accepts_raw_and_writes_gzip_witness :
  unpackSource initramfsLts "/tmp/distrorun-live/initramfs-work" (hostWithInitramfs archiveNoInit)
  = (inr initramfsLts, hostWithInitramfs archiveNoInit) /\
  exists ip w1 m members,
    fst (locateInitramfs (Join [Path rootfsLive; "boot"]) (hostWithInitramfs archiveNoInit)) = inr ip /\
    lookupPath w1 ip = Some (Regular m (Gzip (Cpio members))) /\
    snd (PatchInitramfs rootfsLive (hostWithInitramfs archiveNoInit))
    = snd (RemoveAll (Join [WorkDir rootfsLive; "initramfs-work"]) w1).
Proof.
  split.
  - apply (proj1 PatchInitramfs_accepts_raw_and_writes_gzip
             initramfsLts "/tmp/distrorun-live/initramfs-work"
             (hostWithInitramfs archiveNoInit) archiveNoInit "gzip: invalid header");
      vm_compute; reflexivity.
  - apply (proj1 (proj2 PatchInitramfs_accepts_raw_and_writes_gzip)).
    vm_compute. reflexivity.
Defined.

End InitramfsFacts.

(** ** Validate and LoadConfig *)

Module ConfigFacts.
Import GoString GoStringFacts Host HostFs Initramfs LiveInit Config.

Lemma userErrs_nil (users : list User) : forall i,
  userErrs i users = [] <->
  Forall (fun u => UserName u <> EmptyString /\ Password u <> EmptyString) users.
Proof.
  induction users as [|u rest IH]; intros i; simpl.
  - split; [constructor | reflexivity].
  - destruct (String.eqb_spec (UserName u) EmptyString) as [Hn|Hn];
      destruct (String.eqb_spec (Password u) EmptyString) as [Hp|Hp]; simpl.
    + split; [discriminate | intros H; inversion H; tauto].
    + split; [discriminate | intros H; inversion H; tauto].
    + split; [discriminate | intros H; inversion H; tauto].
    + rewrite IH. split; [intros H; constructor; auto | intros H; now inversion H].
Qed.

(** What Validate checks. *)
Lemma Validate_None_iff (quote : string -> string) (c : Config) :
  Validate quote c = None <-> wellFormed c.
Proof.
  unfold Validate, wellFormed.
  assert (Hnil : validationErrs quote c = [] <->
                 (Version c <> EmptyString /\ Name c <> EmptyString /\
                  Base (DistroOf c) = "alpine" /\ Users c <> [] /\
                  Forall (fun u => UserName u <> EmptyString /\ Password u <> EmptyString) (Users c))).
  { unfold validationErrs. rewrite <- (userErrs_nil (Users c) 0).
    destruct (String.eqb_spec (Version c) EmptyString) as [Hv|Hv];
      [split; [discriminate | tauto]|].
    destruct (String.eqb_spec (Name c) EmptyString) as [Hn|Hn];
      [split; [discriminate | tauto]|].
    destruct (String.eqb_spec (Base (DistroOf c)) EmptyString) as [Hb|Hb].
    { split; [discriminate | intros (_ & _ & Ha & _); rewrite Ha in Hb; discriminate]. }
    destruct (String.eqb_spec (Base (DistroOf c)) "alpine") as [Ha|Ha]; simpl;
      [| split; [discriminate | tauto]].
    destruct (Users c) as [|u us] eqn:Hu; simpl; [split; [discriminate | tauto]|].
    split; [intros H; repeat split; auto; discriminate | tauto]. }
  rewrite <- Hnil. destruct (validationErrs quote c); split; congruence.
Qed.

(** X1. Validate accepts a configuration exactly when it has a version and
    a name, its distro base is "alpine", it has at least one user, and
    every user has a name and a password. *)
Theorem Validate_nil_iff_wellFormed (quote : string -> string) (c : Config) :
  Validate quote c = None <-> wellFormed c.
Proof. apply Validate_None_iff. Qed.

Lemma HasPrefix_self_app (sub r : string) : HasPrefix (sub +:+ r) sub = true.
Proof. apply HasPrefix_app. now exists r. Qed.

Lemma Contains_prefix (s sub : string) : HasPrefix s sub = true -> Contains s sub = true.
Proof. intros H. destruct s; simpl; rewrite H; reflexivity. Qed.

Lemma Contains_app_l (pre s sub : string) :
  Contains s sub = true -> Contains (pre +:+ s) sub = true.
Proof.
  intros H. induction pre as [|c pre IH]; [exact H|].
  rewrite sapp_cons. simpl. rewrite IH. apply orb_true_r.
Qed.

Lemma Contains_app_r (s post sub : string) :
  Contains s sub = true -> Contains (s +:+ post) sub = true.
Proof.
  induction s as [|c s IH]; intros H.
  - simpl in H. rewrite orb_false_r in H. apply HasPrefix_app in H as [r Hr].
    destruct sub; [|discriminate]. destruct post; reflexivity.
  - simpl in H. apply orb_true_iff in H as [H|H].
    + apply Contains_prefix. apply HasPrefix_app in H as [r ->].
      rewrite sapp_assoc. apply HasPrefix_self_app.
    + rewrite sapp_cons. simpl. rewrite (IH H). apply orb_true_r.
Qed.

Lemma Contains_mid (pre sub post : string) : Contains (pre +:+ sub +:+ post) sub = true.
Proof. apply Contains_app_l, Contains_prefix, HasPrefix_self_app. Qed.

Lemma Contains_self (s : string) : Contains s s = true.
Proof.
  apply Contains_prefix. apply HasPrefix_app. exists EmptyString.
  induction s as [|c s IH]; [reflexivity|]. rewrite sapp_cons. now f_equal.
Qed.

Lemma Contains_joinStr (sep : string) (l : list string) (x sub : string) :
  In x l -> Contains x sub = true -> Contains (joinStr sep l) sub = true.
Proof.
  intros Hin Hsub. induction l as [|y l IH]; [contradiction|].
  destruct Hin as [->|Hin].
  - destruct l as [|z l]; [exact Hsub|].
    change (joinStr sep (x :: z :: l)) with (x +:+ sep +:+ joinStr sep (z :: l)).
    now apply Contains_app_r.
  - destruct l as [|z l]; [contradiction|].
    change (joinStr sep (y :: z :: l)) with (y +:+ sep +:+ joinStr sep (z :: l)).
    apply Contains_app_l, Contains_app_l. now apply IH.
Qed.

(** A problem in the list of Validate is in its message. *)
Lemma Validate_mentions (quote : string -> string) (c : Config) (msg x sub : string) :
  Validate quote c = Some msg ->
  In x (validationErrs quote c) -> Contains x sub = true -> Contains msg sub = true.
Proof.
  unfold Validate. intros Hmsg Hin Hsub.
  destruct (validationErrs quote c) as [|e errs] eqn:He; [discriminate|].
  injection Hmsg as Hmsg. rewrite <- Hmsg.
  apply Contains_app_l, Contains_app_l.
  exact (Contains_joinStr (String newline "  - ") (e :: errs) x sub Hin Hsub).
Qed.

Lemma userErrs_name (users : list User) : forall i k u,
  users !! k = Some u -> UserName u = EmptyString ->
  In ("users[" +:+ decimal (i + k) +:+ "]: " +:+ quoted "name" +:+ " is required")
     (userErrs i users).
Proof.
  induction users as [|v rest IH]; intros i k u Hk Hu; [discriminate|].
  destruct k as [|k]; simpl in Hk.
  - inversion Hk; subst v. simpl. rewrite Hu. simpl. rewrite Nat.add_0_r. now left.
  - simpl. apply in_or_app. right. apply in_or_app. right.
    replace (i + S k)%nat with (S i + k)%nat by lia. now apply IH with u.
Qed.

Lemma userErrs_password (users : list User) : forall i k u,
  users !! k = Some u -> Password u = EmptyString ->
  In ("users[" +:+ decimal (i + k) +:+ "]: " +:+ quoted "password" +:+ " is required")
     (userErrs i users).
Proof.
  induction users as [|v rest IH]; intros i k u Hk Hu; [discriminate|].
  destruct k as [|k]; simpl in Hk.
  - inversion Hk; subst v. simpl. rewrite Hu. simpl. rewrite Nat.add_0_r.
    apply in_or_app. right. now left.
  - simpl. apply in_or_app. right. apply in_or_app. right.
    replace (i + S k)%nat with (S i + k)%nat by lia. now apply IH with u.
Qed.

(** X2. Validate reports all the problems, not the first only: the message
    of a failed validation names every requirement that is not met, and
    every user without a name or a password by its index. *)
Theorem Validate_reports_every_problem (quote : string -> string) (c : Config) (msg : string)
  (Hmsg : Validate quote c = Some msg) :
  (Version c = EmptyString -> Contains msg (quoted "version" +:+ " is required") = true) /\
  (Name c = EmptyString -> Contains msg (quoted "name" +:+ " is required") = true) /\
  (Base (DistroOf c) = EmptyString ->
   Contains msg (quoted "distro.base" +:+ " is required") = true) /\
  (Base (DistroOf c) <> EmptyString -> Base (DistroOf c) <> "alpine" ->
   Contains msg ("unsupported distro base " +:+ quote (Base (DistroOf c))) = true) /\
  (Users c = [] -> Contains msg "at least one user" = true) /\
  (forall k u, Users c !! k = Some u -> UserName u = EmptyString ->
     Contains msg ("users[" +:+ decimal k +:+ "]: " +:+ quoted "name" +:+ " is required") = true) /\
  (forall k u, Users c !! k = Some u -> Password u = EmptyString ->
     Contains msg ("users[" +:+ decimal k +:+ "]: " +:+ quoted "password" +:+ " is required") = true).
Proof.
  pose proof (Validate_mentions quote c msg) as Hm. specialize (fun x sub => Hm x sub Hmsg).
  unfold validationErrs in Hm.
  repeat split.
  - intros H. eapply Hm; [|apply Contains_self].
    rewrite H. simpl. now left.
  - intros H. eapply Hm; [|apply Contains_self].
    rewrite H. apply in_or_app. right. simpl. now left.
  - intros H. eapply Hm; [|apply Contains_self].
    rewrite H. apply in_or_app. right. apply in_or_app. right. simpl. now left.
  - intros H1 H2. eapply Hm.
    + apply in_or_app. right. apply in_or_app. right. apply in_or_app. left.
      apply String.eqb_neq in H1, H2. rewrite H1, H2. simpl. left. reflexivity.
    + rewrite <- sapp_assoc. apply Contains_app_r, Contains_self.
  - intros H. eapply Hm.
    + do 3 (apply in_or_app; right). apply in_or_app. left. rewrite H. now left.
    + apply Contains_app_r. apply (Contains_app_r "at least one user" " must be defined in ").
      apply Contains_self.
  - intros k u Hk Hu. eapply Hm; [|apply Contains_self].
    do 4 (apply in_or_app; right). apply (userErrs_name (Users c) 0 k u Hk Hu).
  - intros k u Hk Hu. eapply Hm; [|apply Contains_self].
    do 4 (apply in_or_app; right). apply (userErrs_password (Users c) 0 k u Hk Hu).
Qed.

Lemma Validate_reports_every_problem_witness :
  exists msg,
    Validate (fun s => quoted s) configMissingFields = Some msg /\
    Contains msg (quoted "version" +:+ " is required") = true /\
    Contains msg (quoted "name" +:+ " is required") = true /\
    Contains msg "at least one user" = true.
Proof.
  eexists. split; [vm_compute; reflexivity|].
  pose proof (Validate_reports_every_problem (fun s => quoted s) configMissingFields _ eq_refl)
    as (Hv & Hn & _ & _ & Hu & _).
  split; [apply Hv; reflexivity | split; [apply Hn; reflexivity | apply Hu; reflexivity]].
Defined.

(** X3. LoadConfig returns a configuration exactly when the file can be
    read, its content parses to that configuration, and the configuration
    passes Validate; so every configuration it returns is well formed. *)
Theorem LoadConfig_returns_wellFormed (quote : string -> string)
    (yamlUnmarshal : data -> option Config) (path : string) (w : World) (c : Config) :
  LoadConfig quote yamlUnmarshal path w = inr c <->
  exists content,
    fst (ReadFile path w) = inr content /\ yamlUnmarshal content = Some c /\ wellFormed c.
Proof.
  unfold LoadConfig. destruct (ReadFile path w) as [[e|content] w1]; simpl.
  - split; [discriminate | intros (x & Hx & _); discriminate].
  - destruct (yamlUnmarshal content) as [cfg|] eqn:Hy.
    + destruct (Validate quote cfg) as [msg|] eqn:Hv.
      * split; [discriminate|]. intros (x & Hx & Hy' & Hwf).
        inversion Hx; subst x. rewrite Hy in Hy'. inversion Hy'; subst cfg.
        apply Validate_None_iff with (quote := quote) in Hwf. congruence.
      * split.
        -- intros H. inversion H; subst cfg. exists content.
           split; [reflexivity | split; [exact Hy | now apply (Validate_None_iff quote)]].
        -- intros (x & Hx & Hy' & _). inversion Hx; subst x. congruence.
    + split; [discriminate|]. intros (x & Hx & Hy' & _). inversion Hx; subst x. congruence.
Qed.

End ConfigFacts.
(** ** Generate: the SPDX document *)

Module SbomGenFacts.
Import GoString GoStringFacts Sbom Host HostFs LiveInit Exec SbomGen InitramfsFacts
       Scenarios Examples.

Lemma decimal_inj (a b : nat) : decimal a = decimal b -> a = b.
Proof.
  unfold decimal. intros H.
  apply (f_equal NilEmpty.uint_of_string) in H. rewrite !NilEmpty.usu in H.
  injection H as H. now apply DecimalNat.Unsigned.to_uint_inj.
Qed.

Lemma packageOf_SPDXID (i : nat) (line : string) :
  SPDXID (packageOf i line) = "SPDXRef-Package-" +:+ decimal i.
Proof. unfold packageOf. destruct (parseApkPackage line). reflexivity. Qed.

Lemma packageOf_name_version (i : nat) (line : string) :
  (Name (packageOf i line), VersionInfo (packageOf i line)) = parseApkPackage line.
Proof. unfold packageOf. destruct (parseApkPackage line). reflexivity. Qed.

(** What the loop adds to the document. *)
Lemma addLines_spec (lines : list string) : forall i doc,
  Packages (addLines i lines doc)
  = (Packages doc ++ map (fun il => packageOf (fst il) (snd il)) (numbered i lines))%list /\
  Relationships (addLines i lines doc)
  = (Relationships doc ++ map (fun il => containsOf (fst il)) (numbered i lines))%list.
Proof.
  induction lines as [|line rest IH]; intros i doc; simpl.
  - now rewrite !app_nil_r.
  - destruct (String.eqb (TrimSpace line) EmptyString); [apply IH|].
    destruct (IH (S i) (addPackage doc (packageOf i (TrimSpace line)) (containsOf i)))
      as [Hp Hr].
    rewrite Hp, Hr. simpl. now rewrite <- !List.app_assoc.
Qed.

Lemma numbered_indices (lines : list string) : forall i,
  Forall (fun il => (i <= fst il)%nat) (numbered i lines) /\
  NoDup (map fst (numbered i lines)).
Proof.
  induction lines as [|line rest IH]; intros i; simpl.
  - split; constructor.
  - destruct (IH (S i)) as [Hge Hnd].
    assert (Hge' : Forall (fun il => (i <= fst il)%nat) (numbered (S i) rest)).
    { eapply Forall_impl; [exact Hge|]. intros il H. simpl in H. lia. }
    destruct (String.eqb (TrimSpace line) EmptyString); [now split|].
    split; [constructor; [simpl; lia | exact Hge']|].
    simpl. apply NoDup_cons. split; [|exact Hnd].
    intros Hin. apply list_elem_of_fmap in Hin as (il & Hi & Hil).
    rewrite Forall_forall in Hge. specialize (Hge il Hil). simpl in Hge. lia.
Qed.

Lemma numbered_lines (lines : list string) : forall i,
  map snd (numbered i lines)
  = List.filter (fun l => negb (String.eqb l EmptyString)) (map TrimSpace lines).
Proof.
  induction lines as [|line rest IH]; intros i; simpl; [reflexivity|].
  destruct (String.eqb (TrimSpace line) EmptyString); simpl; [apply IH | f_equal; apply IH].
Qed.

Lemma buildDocument_packages (configName : string) (unixNow : Z) (created out : string) :
  Packages (buildDocument configName unixNow created out)
  = mkPackage "SPDXRef-rootfs" configName "1.0" "NOASSERTION" false []
      :: map (fun il => packageOf (fst il) (snd il)) (numbered 0 (SplitNL (TrimSpace out))).
Proof. unfold buildDocument. cbv zeta. now rewrite (proj1 (addLines_spec _ _ _)). Qed.

Lemma buildDocument_relationships (configName : string) (unixNow : Z) (created out : string) :
  Relationships (buildDocument configName unixNow created out)
  = mkRelationship "SPDXRef-DOCUMENT" "DESCRIBES" "SPDXRef-rootfs"
      :: map (fun il => containsOf (fst il)) (numbered 0 (SplitNL (TrimSpace out))).
Proof. unfold buildDocument. cbv zeta. now rewrite (proj2 (addLines_spec _ _ _)). Qed.

(** X4. Whatever apk prints, no two packages of the document have the same
    SPDXID. *)
Theorem buildDocument_SPDXIDs_distinct (configName : string) (unixNow : Z) (created out : string) :
  NoDup (map SPDXID (Packages (buildDocument configName unixNow created out))).
Proof.
  rewrite buildDocument_packages. simpl. apply NoDup_cons. split.
  - intros Hin. apply list_elem_of_fmap in Hin as (p & Hp & Hin).
    apply list_elem_of_fmap in Hin as (il & -> & _).
    rewrite packageOf_SPDXID in Hp.
    apply (f_equal (String.get 8)) in Hp. vm_compute in Hp. discriminate.
  - rewrite <- list_fmap_compose.
    destruct (numbered_indices (SplitNL (TrimSpace out)) 0) as [_ Hnd].
    induction (numbered 0 (SplitNL (TrimSpace out))) as [|il l IH]; [constructor|].
    simpl in *. apply NoDup_cons in Hnd as [Hnotin Hnd].
    apply NoDup_cons. split; [|now apply IH].
    intros Hin. apply list_elem_of_fmap in Hin as (jl & Hj & Hjl).
    simpl in Hj. rewrite !packageOf_SPDXID in Hj.
    apply (inj (String.app "SPDXRef-Package-")) in Hj. apply decimal_inj in Hj.
    apply Hnotin. rewrite Hj. apply list_elem_of_fmap. now exists jl.
Qed.

(** X5. After the package of the rootfs, the document holds one package
    for each line of the apk output that is not blank, in the order of the
    output, with the name and the version that parseApkPackage gives for
    the trimmed line. *)
Theorem buildDocument_lists_package_lines (configName : string) (unixNow : Z)
    (created out : string) :
  map (fun p => (Name p, VersionInfo p))
      (tail (Packages (buildDocument configName unixNow created out)))
  = map parseApkPackage (packageLines out).
Proof.
  rewrite buildDocument_packages. simpl. unfold packageLines.
  rewrite <- (numbered_lines _ 0).
  induction (numbered 0 (SplitNL (TrimSpace out))) as [|il l IH]; [reflexivity|].
  simpl. rewrite IH. f_equal. apply packageOf_name_version.
Qed.

(** X6. The relationships of the document refer to its packages only:
    there are as many as packages, each names the SPDXID of a package of
    the document, and every package but the rootfs is the target of a
    CONTAINS relationship from the rootfs. *)
Theorem buildDocument_relationships_refer_to_packages (configName : string) (unixNow : Z)
    (created out : string) :
  let doc := buildDocument configName unixNow created out in
  length (Relationships doc) = length (Packages doc) /\
  Forall (fun rel => In (RelatedElement rel) (map SPDXID (Packages doc))) (Relationships doc) /\
  Forall (fun p => In (mkRelationship "SPDXRef-rootfs" "CONTAINS" (SPDXID p)) (Relationships doc))
         (tail (Packages doc)).
Proof.
  cbv zeta. rewrite buildDocument_packages, buildDocument_relationships. simpl.
  set (l := numbered 0 (SplitNL (TrimSpace out))). clearbody l.
  split; [now rewrite !length_map|]. split.
  - constructor; [now left|]. apply Forall_forall. intros rel Hrel.
    apply list_elem_of_fmap in Hrel as (il & -> & Hil). right.
    rewrite <- list_fmap_compose. apply list_elem_of_In, list_elem_of_fmap.
    exists il. split; [|exact Hil]. simpl. now rewrite packageOf_SPDXID.
  - apply Forall_forall. intros p Hp.
    apply list_elem_of_fmap in Hp as (il & -> & Hil). right.
    apply list_elem_of_In, list_elem_of_fmap. exists il. split; [|exact Hil].
    rewrite packageOf_SPDXID. reflexivity.
Qed.

(** X26. When Generate returns nil, apk info -v ran in the chroot and
    succeeded, the document built from its output was marshalled, and the
    output path is a regular file holding exactly that text. *)
Theorem Generate_writes_document (sh : Shell) (marshal : SPDXDocument -> result string)
    (unixNow : Z) (created rootfsPath configName outputPath : string) (w w' : World)
    (Hok : Generate sh marshal unixNow created rootfsPath configName outputPath w = (None, w')) :
  exists out json m,
    output sh ["chroot"; rootfsPath; "apk"; "info"; "-v"] w = Some out /\
    marshal (buildDocument configName unixNow created out) = inr json /\
    lookupPath w' outputPath = Some (Regular m (Bytes json)).
Proof.
  unfold Generate in Hok.
  destruct (output sh _ w) as [out|] eqn:Hout; [|discriminate].
  destruct (marshal _) as [e|json] eqn:Hjson; [discriminate|].
  destruct (WriteFile outputPath (Bytes json) 420 w) as [[e|[]] w1] eqn:Hwrite; [discriminate|].
  inversion Hok; subst. unfold WriteFile in Hwrite.
  apply writeThrough_lookup in Hwrite as [m Hm]. exists out, json, m. auto.
Qed.

Lemma Generate_writes_document_witness :
  exists out json m,
    output shellApk ["chroot"; "/tmp/distrorun-live/rootfs"; "apk"; "info"; "-v"] exampleHost
    = Some out /\
    marshalName (buildDocument "live" 0 "2024-01-01T00:00:00Z" out) = inr json /\
    lookupPath (snd (Generate shellApk marshalName 0 "2024-01-01T00:00:00Z"
                              "/tmp/distrorun-live/rootfs" "live" sbomLive exampleHost))
               sbomLive
    = Some (Regular m (Bytes json)).
Proof.
  apply (Generate_writes_document shellApk marshalName 0
           "2024-01-01T00:00:00Z" "/tmp/distrorun-live/rootfs" "live" sbomLive exampleHost).
  vm_compute. reflexivity.
Defined.

End SbomGenFacts.
(** ** Provisioning commands *)

Module ProvisionFacts.
Import GoString Host HostFs Rootfs Exec Provision.

(** Running one command, then a fail-fast rest, is fail-fast. *)
Lemma failFast_command (sh : Shell) (argv : list string) (msg : string)
    (plan : list (list string)) (k : C unit) (w : World) :
  (forall w1, failFast plan (k w1)) ->
  failFast (argv :: plan) (bindC (command sh argv msg) (fun _ => k) w).
Proof.
  intros Hk. unfold failFast, bindC, command. simpl.
  destruct (run sh argv w) as [[|] w1] eqn:Hrun.
  - specialize (Hk w1). unfold failFast in Hk.
    destruct (k w1) as [[[e|[]] log] w2]; simpl in *.
    + destruct Hk as (before & failed & after & -> & ->).
      exists (argv :: before), failed, after. auto.
    + now rewrite Hk.
  - simpl. exists [], argv, plan. auto.
Qed.

Lemma failFast_nil (w : World) : failFast [] (retC tt w).
Proof. reflexivity. Qed.

Lemma bindC_retC (k : C unit) (w : World) : bindC (retC tt) (fun _ => k) w = k w.
Proof. unfold bindC, retC. destruct (k w) as [[res log] w1]. reflexivity. Qed.

Lemma failFast_log_in_plan (plan : list (list string))
    (res : result unit * list (list string * bool) * World) :
  failFast plan res -> forall x, x ∈ map fst (snd (fst res)) -> x ∈ plan.
Proof.
  unfold failFast, succeeded. destruct res as [[[e|u] log] w1]; simpl.
  - intros (before & failed & after & -> & ->) x Hx.
    rewrite map_app, map_map in Hx. simpl in Hx. rewrite map_id in Hx.
    apply elem_of_app in Hx as [Hx|Hx]; apply elem_of_app; [now left | right].
    apply list_elem_of_singleton in Hx as ->. now left.
  - intros -> x Hx. rewrite map_map in Hx. simpl in Hx. now rewrite map_id in Hx.
Qed.

Lemma SetupUsers_failFast (sh : Shell) (r : Rootfs) (users : list Config.User) : forall w,
  failFast (userCommands r users) (SetupUsers sh r users w).
Proof.
  induction users as [|u rest IH]; intros w; [apply failFast_nil|].
  simpl. unfold userCommands in *. simpl.
  destruct (negb (String.eqb (Config.UserName u) "root")); simpl.
  - apply failFast_command. intros w1. apply failFast_command. exact IH.
  - rewrite bindC_retC. apply failFast_command. exact IH.
Qed.

(** X7. SetupUsers is fail-fast: it runs, user by user, adduser (for every
    user but root) and then chpasswd; it returns nil when all of them ran
    and succeeded, and otherwise stops at the first command that fails;
    and it never runs adduser for root. *)
Theorem SetupUsers_fail_fast_never_adds_root (sh : Shell) (r : Rootfs)
    (users : list Config.User) (w : World) :
  failFast (userCommands r users) (SetupUsers sh r users w) /\
  adduser r "root" ∉ map fst (snd (fst (SetupUsers sh r users w))).
Proof.
  split; [apply SetupUsers_failFast|].
  intros Hin. apply (failFast_log_in_plan _ _ (SetupUsers_failFast sh r users w)) in Hin.
  unfold userCommands in Hin. apply list_elem_of_In, in_flat_map in Hin as (u & _ & Hu).
  apply in_app_or in Hu as [Hu|Hu].
  - destruct (String.eqb_spec (Config.UserName u) "root") as [|Hne]; simpl in Hu; [contradiction|].
    destruct Hu as [Hu|[]]. unfold adduser in Hu. congruence.
  - destruct Hu as [Hu|[]]. unfold adduser, chpasswd in Hu. discriminate.
Qed.

(** X8. EnableServices is fail-fast over one rc-update command for each
    service, in the order given; with no service it runs nothing. *)
Theorem EnableServices_fail_fast (sh : Shell) (r : Rootfs) (services : list string) (w : World) :
  failFast (serviceCommands r services) (EnableServices sh r services w).
Proof.
  assert (H : forall l w, failFast (serviceCommands r l) (enableEach sh r l w)).
  { induction l as [|svc rest IH]; intros w0; [apply failFast_nil|].
    simpl. apply failFast_command. exact IH. }
  destruct services as [|svc rest]; [apply failFast_nil | apply H].
Qed.

(** X27. InstallPackages runs nothing for an empty list of packages, and
    otherwise one command: apk add --no-cache in the chroot, followed by
    the packages in the order given; it returns nil when that command
    succeeds and an error when it fails. *)
Theorem InstallPackages_one_command (sh : Shell) (r : Rootfs) (pkgs : list string) (w : World) :
  failFast
    (match pkgs with
     | [] => []
     | _ => [("chroot" :: Path r :: "apk" :: "add" :: "--no-cache" :: pkgs)]
     end) (InstallPackages sh r pkgs w).
Proof.
  destruct pkgs as [|p pkgs]; [apply failFast_nil|].
  unfold InstallPackages, failFast, command. simpl.
  destruct (run sh _ w) as [[|] w1]; simpl; [reflexivity|].
  exists [], ("chroot" :: Path r :: "apk" :: "add" :: "--no-cache" :: p :: pkgs), []. auto.
Qed.

End ProvisionFacts.
(** ** The bootloader package *)

Module BootloaderFacts.
Import GoString GoStringFacts Host HostFs Initramfs InitramfsFacts Bootloader Scenarios Examples.

(** The loop returns the first candidate that exists. *)
Lemma firstExisting_spec (w : World) (candidates : list string) :
  (firstExisting w candidates = EmptyString /\
   Forall (fun p => exists_ w p = false) candidates)
  \/ exists before p after,
       candidates = (before ++ p :: after)%list /\
       Forall (fun q => exists_ w q = false) before /\
       exists_ w p = true /\ firstExisting w candidates = p.
Proof.
  induction candidates as [|c l IH]; simpl.
  - left. split; [reflexivity | constructor].
  - destruct (exists_ w c) eqn:Hc.
    + right. exists [], c, l. repeat split; auto.
    + destruct IH as [[H1 H2] | (before & p & after & -> & Hb & Hp & Hr)].
      * left. split; [exact H1 | now constructor].
      * right. exists (c :: before), p, after. repeat split; auto.
Qed.

(** Storing a regular file where no link is stored leaves every chain of
    links as it is. *)
Lemma followLinks_insert_regular (fuel : nat) (w : World) (n : string) (m : N) (d : data) :
  (forall t, files w !! n <> Some (Symlink t)) ->
  forall p q, followLinks fuel w p = Some q ->
              followLinks fuel (with_files (<[n := Regular m d]> (files w)) w) p = Some q.
Proof.
  intros Hn. induction fuel as [|k IH]; intros p q H; simpl in *;
    rewrite resolve_with_files.
  - destruct (decide (n = resolve w p)) as [Heq|Hne].
    + rewrite <- Heq, lookup_insert_eq. rewrite <- Heq in H.
      destruct (files w !! n) as [[?|? ?|t]|] eqn:E; try exact H. now destruct (Hn t).
    + rewrite lookup_insert_ne by assumption. exact H.
  - destruct (decide (n = resolve w p)) as [Heq|Hne].
    + rewrite <- Heq, lookup_insert_eq. rewrite <- Heq in H.
      destruct (files w !! n) as [[?|? ?|t]|] eqn:E; try exact H. now destruct (Hn t).
    + rewrite lookup_insert_ne by assumption.
      destruct (files w !! resolve w p) as [[?|? ?|t]|] eqn:E; try exact H.
      now apply IH.
Qed.

(** What a successful write does to the stored files. *)
Lemma writeThrough_ok (p : string) (d : data) (perm : N) (w w' : World) :
  writeThrough p d perm w = (inr tt, w') ->
  exists q m,
    followLinks 40 w p = Some q /\
    (forall t, files w !! resolve w q <> Some (Symlink t)) /\
    w' = with_files (<[resolve w q := Regular m d]> (files w)) w /\
    ((exists d0, files w !! resolve w q = Some (Regular m d0))
     \/ (files w !! resolve w q = None /\ m = masked w perm)).
Proof.
  unfold writeThrough.
  destruct (followLinks 40 w p) as [q|] eqn:Hq; [|discriminate].
  destruct (files w !! resolve w q) as [[m|m d0|t]|] eqn:E; try discriminate.
  - intros H. inversion H; subst. exists q, m. rewrite E.
    repeat split; eauto; congruence.
  - destruct (isDirectory w (parentDir q)); [|discriminate].
    intros H. inversion H; subst. exists q, (masked w perm). rewrite E.
    repeat split; eauto; congruence.
Qed.

(** A failed write changes nothing. *)
Lemma writeThrough_fails (p : string) (d : data) (perm : N) (w w' : World) (e : string) :
  writeThrough p d perm w = (inl e, w') -> w' = w.
Proof.
  unfold writeThrough.
  destruct (followLinks 40 w p) as [q|]; [|now inversion 1].
  destruct (files w !! resolve w q) as [[m|m d0|t]|]; try now inversion 1.
  destruct (isDirectory w (parentDir q)); now inversion 1.
Qed.

(** After a write, a regular file holds what it held or what was
    written; its mode is as before. *)
Lemma writeThrough_other (p : string) (d : data) (perm : N) (w w' : World) (q : string)
    (m0 : N) (d0 : data) :
  writeThrough p d perm w = (inr tt, w') ->
  lookupPath w q = Some (Regular m0 d0) ->
  lookupPath w' q = Some (Regular m0 d0) \/ lookupPath w' q = Some (Regular m0 d).
Proof.
  intros Hw Hq. apply writeThrough_ok in Hw as (e & m & He & Hn & -> & Hm).
  unfold lookupPath in *.
  destruct (followLinks 40 w q) as [eq|] eqn:Heq; [|discriminate].
  rewrite (followLinks_insert_regular _ _ _ _ _ Hn _ _ Heq), resolve_with_files. simpl.
  destruct (decide (resolve w e = resolve w eq)) as [Hsame|Hne].
  - right. rewrite Hsame, lookup_insert_eq. rewrite Hsame in Hm.
    destruct Hm as [[d1 Hm] | [Hm _]]; congruence.
  - left. now rewrite lookup_insert_ne.
Qed.

(** Writing to a path that names a regular file succeeds and keeps the
    mode of the file. *)
Lemma writeThrough_regular (p : string) (d : data) (perm : N) (w : World) (m0 : N) (d0 : data) :
  lookupPath w p = Some (Regular m0 d0) ->
  exists w', writeThrough p d perm w = (inr tt, w') /\
             lookupPath w' p = Some (Regular m0 d).
Proof.
  unfold lookupPath, writeThrough.
  destruct (followLinks 40 w p) as [q|] eqn:Hq; [|discriminate].
  intros E. rewrite E. eexists. split; [reflexivity|].
  rewrite (followLinks_insert _ _ _ _ _ _ Hq), resolve_with_files. simpl.
  now rewrite lookup_insert_eq.
Qed.

Lemma writeThrough_keeps_regular (p : string) (d : data) (perm : N) (w w' : World)
    (r : result unit) (q : string) :
  writeThrough p d perm w = (r, w') -> isRegular w q -> isRegular w' q.
Proof.
  intros Hw (m0 & d0 & Hq). destruct r as [e|[]].
  - apply writeThrough_fails in Hw. subst. now exists m0, d0.
  - destruct (writeThrough_other _ _ _ _ _ _ _ _ Hw Hq); eexists _, _; eassumption.
Qed.

(** What a call of copyFile that returns nil has done. *)
Lemma copyFile_ok (src dst : string) (w w' : World) :
  copyFile src dst w = (inr tt, w') ->
  exists w1 m d,
    Create dst w = (inr tt, w1) /\
    lookupPath w1 src = Some (Regular m d) /\
    writeThrough dst d 438 w1 = (inr tt, w').
Proof.
  unfold copyFile. intros H.
  apply bind_ok in H as ([] & w0 & Hopen & H).
  destruct (exists_ w src); [|discriminate]. inversion Hopen; subst w0.
  apply bind_ok in H as ([] & w1 & Hcreate & H).
  unfold copyContent in H.
  destruct (lookupPath w1 src) as [[m|m d|t]|] eqn:Hsrc; try discriminate.
  exists w1, m, d. auto.
Qed.

(** X9. findFile returns the path in the first of the four syslinux
    search directories where the file exists, and the empty string exactly
    when it exists in none of them. *)
Theorem findFile_first_existing (w : World) (name : string) :
  (findFile w name = EmptyString /\
   Forall (fun dir => exists_ w (Join [dir; name]) = false) syslinuxSearchPaths)
  \/ exists before dir after,
       syslinuxSearchPaths = (before ++ dir :: after)%list /\
       Forall (fun d => exists_ w (Join [d; name]) = false) before /\
       exists_ w (Join [dir; name]) = true /\
       findFile w name = Join [dir; name].
Proof.
  unfold findFile.
  destruct (firstExisting_spec w (map (fun dir => Join [dir; name]) syslinuxSearchPaths))
    as [[H1 H2] | (before & p & after & Heq & Hb & Hp & Hr)].
  - left. split; [exact H1|]. now apply Forall_map in H2.
  - right. apply map_eq_app in Heq as (b' & rest & Hsplit & Hb' & Hrest).
    apply map_eq_cons in Hrest as (dir & a' & -> & Hdir & Ha').
    exists b', dir, a'. subst. split; [exact Hsplit|].
    split; [now apply Forall_map in Hb | split; assumption].
Qed.

(** X10. copyFile from a regular file onto itself returns nil and leaves
    the file empty, with its mode: the destination is truncated before the
    source is read. *)
Theorem copyFile_onto_itself_truncates (w : World) (p : string) (m : N) (d : data)
    (Hfile : lookupPath w p = Some (Regular m d)) :
  exists w', copyFile p p w = (inr tt, w') /\
             lookupPath w' p = Some (Regular m (Bytes EmptyString)).
Proof.
  destruct (writeThrough_regular p (Bytes EmptyString) 438 w m d Hfile) as (w1 & Hc & H1).
  destruct (writeThrough_regular p (Bytes EmptyString) 438 w1 m _ H1) as (w2 & Hw & H2).
  exists w2. split; [|exact H2].
  unfold copyFile, bind, exists_, Create, copyContent. rewrite Hfile, Hc, H1. exact Hw.
Qed.

(** X11. After a call of copyFile that returns nil, source and destination
    are regular files with the same content; the mode of the source is not
    carried over: a destination that did not exist has mode 0666 less the
    umask. *)
Theorem copyFile_same_content (src dst : string) (w w' : World)
    (Hok : copyFile src dst w = (inr tt, w')) :
  exists ms md d,
    lookupPath w' src = Some (Regular ms d) /\
    lookupPath w' dst = Some (Regular md d) /\
    (lookupPath w dst = None -> md = masked w 438).
Proof.
  apply copyFile_ok in Hok as (w1 & ms & d & Hcreate & Hsrc & Hwrite).
  unfold Create in Hcreate.
  pose proof (writeThrough_lookup _ _ _ _ _ Hcreate) as [m1 Hdst1].
  destruct (writeThrough_regular dst d 438 w1 m1 _ Hdst1) as (w2 & Hw2 & Hdst2).
  rewrite Hwrite in Hw2. inversion Hw2; subst w2.
  exists ms, m1, d. split; [|split; [exact Hdst2|]].
  - destruct (writeThrough_other _ _ _ _ _ _ _ _ Hwrite Hsrc); assumption.
  - intros Hnew. apply writeThrough_ok in Hcreate as (q & m & Hq & _ & -> & Hm).
    unfold lookupPath in Hnew, Hdst1. rewrite Hq in Hnew.
    rewrite (followLinks_insert _ _ _ _ _ _ Hq), resolve_with_files in Hdst1. simpl in Hdst1.
    rewrite lookup_insert_eq in Hdst1. inversion Hdst1; subst.
    destruct Hm as [[d0 Hm] | [_ Hm]]; [congruence | exact Hm].
Qed.

Lemma copyFile_keeps_regular (src dst : string) (w w' : World) (r : result unit) (q : string) :
  copyFile src dst w = (r, w') -> isRegular w q -> isRegular w' q.
Proof.
  unfold copyFile, bind, Create, copyContent. intros H Hq.
  destruct (exists_ w src); [|inversion H; subst; exact Hq].
  destruct (writeThrough dst (Bytes EmptyString) 438 w) as [[e|[]] w1] eqn:Hc;
    pose proof (writeThrough_keeps_regular _ _ _ _ _ _ q Hc Hq) as Hq1.
  - inversion H; subst; exact Hq1.
  - destruct (lookupPath w1 src) as [[m|m d|t]|]; try (inversion H; subst; exact Hq1).
    exact (writeThrough_keeps_regular _ _ _ _ _ _ q H Hq1).
Qed.

Lemma copyFile_makes_regular (src dst : string) (w w' : World) :
  copyFile src dst w = (inr tt, w') -> isRegular w' dst.
Proof.
  intros H. apply copyFile_ok in H as (w1 & m & d & _ & _ & H).
  apply writeThrough_lookup in H as [m' H]. now exists m', d.
Qed.

Lemma orFail_state {A} (msg : string) (c : M A) (w : World) :
  snd (orFail msg c w) = snd (c w).
Proof. unfold orFail. now destruct (c w) as [[e|a] w1]. Qed.

Lemma copyRequired_keeps_regular (dir : string) (names : list string) (q : string) :
  forall w r w', copyRequired dir names w = (r, w') -> isRegular w q -> isRegular w' q.
Proof.
  induction names as [|name rest IH]; intros w r w' H Hq; simpl in H.
  - inversion H; subst; exact Hq.
  - unfold bind in H. destruct (String.eqb (findFile w name) EmptyString).
    + inversion H; subst; exact Hq.
    + pose proof (orFail_state ("copying " +:+ name)
                    (copyFile (findFile w name) (Join [dir; name])) w) as Hs.
      destruct (orFail _ _ w) as [[e|[]] w1];
        destruct (copyFile (findFile w name) (Join [dir; name]) w) as [r1 w1'] eqn:Hc;
        simpl in Hs; subst w1';
        pose proof (copyFile_keeps_regular _ _ _ _ _ q Hc Hq) as Hq1.
      * inversion H; subst; exact Hq1.
      * eapply IH; eassumption.
Qed.

Lemma copyRequired_ok (dir : string) (names : list string) :
  forall w w', copyRequired dir names w = (inr tt, w') ->
               Forall (fun name => isRegular w' (Join [dir; name])) names.
Proof.
  induction names as [|name rest IH]; intros w w' H; simpl in H; [constructor|].
  apply bind_ok in H as (src & w0 & Hsrc & H). inversion Hsrc; subst w0 src.
  destruct (String.eqb (findFile w name) EmptyString); [discriminate|].
  apply bind_ok in H as ([] & w1 & Hc & H). apply orFail_ok in Hc.
  constructor; [|eapply IH; eassumption].
  eapply copyRequired_keeps_regular; [exact H|].
  eapply copyFile_makes_regular; exact Hc.
Qed.

Lemma copyOptional_keeps_regular (dir : string) (names : list string) (q : string) :
  forall w r w', copyOptional dir names w = (r, w') -> isRegular w q -> isRegular w' q.
Proof.
  induction names as [|name rest IH]; intros w r w' H Hq; cbn [copyOptional] in H.
  - inversion H; subst; exact Hq.
  - unfold bind, ret in H. destruct (String.eqb (findFile w name) EmptyString).
    + eapply IH; [exact H | exact Hq].
    + destruct (copyFile (findFile w name) (Join [dir; name]) w) as [r1 w1] eqn:Hc.
      cbn [snd] in H. eapply IH; [exact H|].
      eapply copyFile_keeps_regular; eassumption.
Qed.

Lemma copyKernelFiles_keeps_regular (rootfsBoot bootDir : string)
    (order : list (string * string)) (q : string) :
  forall w r w', copyKernelFiles rootfsBoot bootDir order w = (r, w') ->
                 isRegular w q -> isRegular w' q.
Proof.
  induction order as [|[src dst] rest IH]; intros w r w' H Hq; simpl in H.
  - inversion H; subst; exact Hq.
  - unfold bind, statNotExist, Glob, ret, fail in H.
    match type of H with
    | context [if ?b then _ else _] => destruct b
    end.
    + destruct (map _ _) as [|first others]; [inversion H; subst; exact Hq|].
      match type of H with
      | context [orFail ?msg ?c w] =>
          pose proof (orFail_state msg c w) as Hs;
          destruct (orFail msg c w) as [[e|[]] w1]; destruct (c w) as [r1 w1'] eqn:Hc;
          simpl in Hs; subst w1';
          pose proof (copyFile_keeps_regular _ _ _ _ _ q Hc Hq) as Hq1
      end.
      * inversion H; subst; exact Hq1.
      * eapply IH; eassumption.
    + match type of H with
      | context [orFail ?msg ?c w] =>
          pose proof (orFail_state msg c w) as Hs;
          destruct (orFail msg c w) as [[e|[]] w1]; destruct (c w) as [r1 w1'] eqn:Hc;
          simpl in Hs; subst w1';
          pose proof (copyFile_keeps_regular _ _ _ _ _ q Hc Hq) as Hq1
      end.
      * inversion H; subst; exact Hq1.
      * eapply IH; eassumption.
Qed.

Lemma copyKernelFiles_ok (rootfsBoot bootDir : string) (order : list (string * string)) :
  forall w w', copyKernelFiles rootfsBoot bootDir order w = (inr tt, w') ->
               Forall (fun sd => isRegular w' (Join [bootDir; snd sd])) order.
Proof.
  induction order as [|[src dst] rest IH]; intros w w' H; simpl in H; [constructor|].
  apply bind_ok in H as (missing & w0 & _ & H).
  apply bind_ok in H as (srcPath & w1 & _ & H).
  apply bind_ok in H as ([] & w2 & Hc & H). apply orFail_ok in Hc.
  constructor; [|eapply IH; eassumption]. simpl.
  eapply copyKernelFiles_keeps_regular; [exact H|].
  eapply copyFile_makes_regular; exact Hc.
Qed.

(** X12. When Setup returns nil, the staging directory holds isolinux.bin
    and ldlinux.c32 below isolinux, vmlinuz-lts and initramfs-lts below
    boot, all regular files, and isolinux/isolinux.cfg holds the boot
    configuration of the template; this in whichever order the two kernel
    files were copied. *)
Theorem Setup_stages_boot_files (kernelFirst : bool) (rootfsPath stagingDir : string)
    (w w' : World) (Hok : Setup kernelFirst rootfsPath stagingDir w = (None, w')) :
  isRegular w' (Join [Join [stagingDir; "isolinux"]; "isolinux.bin"]) /\
  isRegular w' (Join [Join [stagingDir; "isolinux"]; "ldlinux.c32"]) /\
  isRegular w' (Join [Join [stagingDir; "boot"]; "vmlinuz-lts"]) /\
  isRegular w' (Join [Join [stagingDir; "boot"]; "initramfs-lts"]) /\
  exists m, lookupPath w' (Join [Join [stagingDir; "isolinux"]; "isolinux.cfg"])
            = Some (Regular m (Bytes isolinuxCfgTemplate)).
Proof.
  unfold Setup in Hok.
  match type of Hok with
  | (match ?c w with _ => _ end) = _ => destruct (c w) as [[e|[]] w1] eqn:H; [discriminate|]
  end.
  inversion Hok; subst w1; clear Hok.
  apply bind_ok in H as ([] & w1 & _ & H).
  apply bind_ok in H as ([] & w2 & _ & H).
  apply bind_ok in H as ([] & w3 & Hreq & H).
  apply bind_ok in H as ([] & w4 & Hopt & H).
  apply bind_ok in H as ([] & w5 & Hker & H).
  apply orFail_ok in H. unfold WriteFile in H.
  assert (Hlater : forall q, isRegular w3 q -> isRegular w5 q).
  { intros q Hq. eapply copyKernelFiles_keeps_regular; [exact Hker|].
    eapply copyOptional_keeps_regular; eassumption. }
  assert (Hcfg : forall q, isRegular w5 q -> isRegular w' q).
  { intros q Hq. eapply writeThrough_keeps_regular; eassumption. }
  apply copyRequired_ok in Hreq. unfold requiredFiles in Hreq.
  apply Forall_cons in Hreq as [Hbin Hreq]. apply Forall_cons in Hreq as [Hld _].
  apply copyKernelFiles_ok in Hker.
  assert (Hboot : isRegular w5 (Join [Join [stagingDir; "boot"]; "vmlinuz-lts"]) /\
                  isRegular w5 (Join [Join [stagingDir; "boot"]; "initramfs-lts"])).
  { destruct kernelFirst;
      apply Forall_cons in Hker as [H1 Hker]; apply Forall_cons in Hker as [H2 _];
      simpl in H1, H2; tauto. }
  destruct Hboot as [Hvm Hrd].
  repeat split; auto.
  apply writeThrough_lookup in H. exact H.
Qed.

(** X13. The loop of Setup over the optional syslinux files never fails:
    a file that is found nowhere is skipped, and an error of copyFile is
    dropped. Whatever was a regular file before is one afterwards. *)
Theorem copyOptional_never_fails (dir : string) (names : list string) (w : World) :
  exists w', copyOptional dir names w = (inr tt, w') /\
             forall q, isRegular w q -> isRegular w' q.
Proof.
  revert w. induction names as [|name rest IH]; intros w; cbn [copyOptional].
  - exists w. split; [reflexivity | auto].
  - unfold bind, ret. destruct (String.eqb (findFile w name) EmptyString); [apply IH|].
    destruct (copyFile (findFile w name) (Join [dir; name]) w) as [r1 w1] eqn:Hc.
    cbn [snd]. destruct (IH w1) as (w' & Hrun & Hkeep). exists w'. split; [exact Hrun|].
    intros q Hq. apply Hkeep. eapply copyFile_keeps_regular; eassumption.
Qed.

Lemma copyFile_onto_itself_truncates_witness :
  exists w', copyFile vmlinuzLts vmlinuzLts hostWithSyslinux = (inr tt, w') /\
             lookupPath w' vmlinuzLts = Some (Regular 420 (Bytes EmptyString)).
Proof.
  apply (copyFile_onto_itself_truncates hostWithSyslinux vmlinuzLts 420 (Bytes "kernel")).
  vm_compute. reflexivity.
Defined.

Lemma copyFile_same_content_witness :
  exists ms md d,
    lookupPath (snd (copyFile vmlinuzLts "/tmp/distrorun-live/staging/vmlinuz-lts"
                              hostWithSyslinux)) vmlinuzLts
    = Some (Regular ms d) /\
    lookupPath (snd (copyFile vmlinuzLts "/tmp/distrorun-live/staging/vmlinuz-lts"
                              hostWithSyslinux)) "/tmp/distrorun-live/staging/vmlinuz-lts"
    = Some (Regular md d) /\
    (lookupPath hostWithSyslinux "/tmp/distrorun-live/staging/vmlinuz-lts" = None ->
     md = masked hostWithSyslinux 438).
Proof.
  apply (copyFile_same_content vmlinuzLts "/tmp/distrorun-live/staging/vmlinuz-lts"
           hostWithSyslinux).
  vm_compute. reflexivity.
Defined.

Lemma Setup_stages_boot_files_witness :
  let w' := snd (Setup true "/tmp/distrorun-live/rootfs" "/tmp/distrorun-live/staging"
                       hostWithSyslinux) in
  isRegular w' (Join [Join ["/tmp/distrorun-live/staging"; "isolinux"]; "isolinux.bin"]) /\
  isRegular w' (Join [Join ["/tmp/distrorun-live/staging"; "isolinux"]; "ldlinux.c32"]) /\
  isRegular w' (Join [Join ["/tmp/distrorun-live/staging"; "boot"]; "vmlinuz-lts"]) /\
  isRegular w' (Join [Join ["/tmp/distrorun-live/staging"; "boot"]; "initramfs-lts"]) /\
  exists m, lookupPath w' (Join [Join ["/tmp/distrorun-live/staging"; "isolinux"]; "isolinux.cfg"])
            = Some (Regular m (Bytes isolinuxCfgTemplate)).
Proof.
  apply (Setup_stages_boot_files true "/tmp/distrorun-live/rootfs" "/tmp/distrorun-live/staging"
           hostWithSyslinux).
  vm_compute. reflexivity.
Defined.

End BootloaderFacts.
(** ** The iso package *)

Module IsoFacts.
Import GoString Host HostFs Exec Bootloader BootloaderFacts Iso.

(** X14. Build runs mksquashfs first. When that fails, Build returns the
    mksquashfs error and xorriso is not run. Otherwise xorriso is run once,
    on the host as mksquashfs left it, with the staging directory as its
    last argument, and with -isohybrid-mbr and the first of the four
    isohdpfx.bin paths that exists, or without that option when none
    exists; Build returns nil exactly when xorriso succeeds. *)
Theorem Build_runs_xorriso_after_mksquashfs (sh : Shell)
    (rootfsPath stagingDir outputPath : string) (w : World) :
  let first := mksquashfs rootfsPath stagingDir in
  let w1 := snd (run sh first w) in
  let res := Build sh rootfsPath stagingDir outputPath w in
  (fst (run sh first w) = false ->
   res = (inl "mksquashfs", [(first, false)], w1)) /\
  (fst (run sh first w) = true ->
   exists hybrid,
     let second := ("xorriso" :: xorrisoFixedArgs outputPath ++ hybrid ++ [stagingDir])%list in
     snd (fst res) = [(first, true); (second, fst (run sh second w1))] /\
     snd res = snd (run sh second w1) /\
     (fst (fst res) = inr tt <-> fst (run sh second w1) = true) /\
     ((hybrid = [] /\ Forall (fun p => exists_ w1 p = false) isohdpfxPaths)
      \/ exists before p after,
           isohdpfxPaths = (before ++ p :: after)%list /\
           Forall (fun q => exists_ w1 q = false) before /\
           exists_ w1 p = true /\ hybrid = ["-isohybrid-mbr"; p])).
Proof.
  cbv zeta. unfold Build, bindC, command.
  destruct (run sh (mksquashfs rootfsPath stagingDir) w) as [ok w1]. simpl.
  split; intros ->; [reflexivity|].
  unfold xorrisoArgs, IsohdpfxPath.
  destruct (firstExisting_spec w1 isohdpfxPaths)
    as [[H1 H2] | (before & p & after & Heq & Hb & Hp & Hr)].
  - exists []. rewrite H1. simpl.
    destruct (run sh _ w1) as [ok2 w2]. simpl.
    repeat split; auto; destruct ok2; intros; congruence.
  - exists ["-isohybrid-mbr"; p]. rewrite Hr.
    assert (Hne : String.eqb p EmptyString = false).
    { apply String.eqb_neq. intros ->.
      assert (Hin : In EmptyString isohdpfxPaths) by (rewrite Heq; apply in_elt).
      unfold isohdpfxPaths in Hin. simpl in Hin.
      repeat (destruct Hin as [Hin|Hin]; [discriminate|]). exact Hin. }
    rewrite Hne. simpl.
    destruct (run sh _ w1) as [ok2 w2]. simpl.
    split; [reflexivity|]. split; [reflexivity|].
    split; [destruct ok2; split; intros; congruence|].
    right. exists before, p, after. auto.
Qed.

(** X15. CheckHostDeps returns nil exactly when both xorriso and mksquashfs
    are found, whatever files the host holds: a missing isohdpfx.bin is no
    error. When xorriso is missing the error names xorriso, also when
    mksquashfs is missing too. *)
Theorem CheckHostDeps_needs_both_tools (sh : Shell) (w : World) :
  (CheckHostDeps sh w = None <->
   lookPath sh "xorriso" = true /\ lookPath sh "mksquashfs" = true) /\
  (lookPath sh "xorriso" = false ->
   CheckHostDeps sh w
   = Some "required tool not found: xorriso (install with your package manager)").
Proof.
  unfold CheckHostDeps, checkTools.
  destruct (lookPath sh "xorriso"), (lookPath sh "mksquashfs"); simpl;
    repeat split; try tauto; try discriminate; intros; try reflexivity;
    try (destruct H; discriminate).
Qed.

End IsoFacts.
(** ** Bootstrap *)

Module BootstrappingFacts.
Import GoString GoStringFacts Host HostFs Rootfs Initramfs Download Exec Bootstrapping.

Lemma follows_retC {A} (a : A) (w : World) : follows [] (retC a) w.
Proof. reflexivity. Qed.

Lemma follows_stop {A} (plan : list (list string)) (c : C A) (w : World) :
  snd (fst (c w)) = [] -> (forall a, fst (fst (c w)) = inr a -> plan = []) ->
  follows plan c w.
Proof.
  unfold follows. intros Hlog Hplan. rewrite Hlog.
  destruct (fst (fst (c w))) as [e|a].
  - exists [], plan. split; [reflexivity | now left].
  - now rewrite (Hplan a eq_refl).
Qed.

Lemma follows_file {A} (msg : string) (c : M A) (w : World) : follows [] (file msg c) w.
Proof. apply follows_stop; [|reflexivity]. unfold file. now destruct (c w) as [[e|a] w1]. Qed.

Lemma follows_command (sh : Shell) (argv : list string) (msg : string) (w : World) :
  follows [argv] (command sh argv msg) w.
Proof.
  unfold follows, command. destruct (run sh argv w) as [[|] w1]; simpl; [reflexivity|].
  exists [], [argv]. split; [reflexivity|]. right. now exists argv, [].
Qed.

Lemma follows_bindC {A B} (p1 p2 : list (list string)) (c : C A) (k : A -> C B) (w : World) :
  follows p1 c w ->
  (forall a, fst (fst (c w)) = inr a -> follows p2 (k a) (snd (c w))) ->
  follows (p1 ++ p2)%list (bindC c k) w.
Proof.
  unfold follows, bindC, succeeded. destruct (c w) as [[[e|a] log] w1]; simpl; intros Hc Hk.
  - destruct Hc as (before & after & -> & Hlog). exists before, (after ++ p2)%list.
    split; [now rewrite <- List.app_assoc|].
    destruct Hlog as [Hlog | (failed & rest & -> & Hlog)]; [now left | right].
    now exists failed, (rest ++ p2)%list.
  - specialize (Hk a eq_refl). destruct (k a w1) as [[[e|b] log2] w2]; simpl in *; subst log.
    + destruct Hk as (before & after & -> & Hlog). exists (p1 ++ before)%list, after.
      split; [now rewrite <- List.app_assoc|]. rewrite map_app.
      destruct Hlog as [-> | (failed & rest & -> & ->)]; [now left | right].
      exists failed, rest. now rewrite <- List.app_assoc.
    + now rewrite Hk, map_app.
Qed.

(** A plan that depends on what the run finds. *)
Lemma follows_bindC_found {A B} (p1 : list (list string)) (p2 : string -> list (list string))
    (c : C A) (k : A -> C B) (w : World) :
  follows p1 c w ->
  (forall a, fst (fst (c w)) = inr a -> exists v, follows (p2 v) (k a) (snd (c w))) ->
  exists v, follows (p1 ++ p2 v)%list (bindC c k) w.
Proof.
  intros Hc Hk. destruct (fst (fst (c w))) as [e|a] eqn:Hres.
  - exists EmptyString. apply follows_bindC; [exact Hc|]. intros a Ha. congruence.
  - destruct (Hk a eq_refl) as [v Hv]. exists v. apply follows_bindC; [exact Hc|].
    intros a' Ha'. rewrite Hres in Ha'. inversion Ha'; subst. exact Hv.
Qed.

Lemma follows_mountEach (sh : Shell) (mounts : list (string * string * string)) :
  forall w, follows (map mountCommand mounts) (mountEach sh mounts) w.
Proof.
  induction mounts as [|m rest IH]; intros w; cbn [mountEach map].
  - apply follows_retC.
  - apply (follows_bindC [] (mountCommand m :: map mountCommand rest));
      [apply follows_file | intros _ _].
    apply (follows_bindC [mountCommand m] (map mountCommand rest));
      [apply follows_command | intros _ _; apply IH].
Qed.

Lemma follows_generateInitramfs (sh : Shell) (r : Rootfs) (w : World) :
  exists v, follows [mkinitfs r v] (generateInitramfs sh r) w.
Proof.
  unfold generateInitramfs.
  match goal with
  | |- context [bindC ?c ?k] =>
      destruct (follows_bindC_found [] (fun v => [mkinitfs r v]) c k w) as [v Hv]
  end.
  - apply follows_stop; [|reflexivity]. now destruct (dirEntries _ w).
  - intros entries _. exists (kernelVersionOf entries).
    destruct (String.eqb (kernelVersionOf entries) EmptyString).
    + apply follows_stop; [reflexivity | discriminate].
    + apply follows_command.
  - exists v. exact Hv.
Qed.

(** The first directory with lts in its name. *)
Lemma firstLts_spec (entries : list (string * bool)) :
  (firstLts entries = EmptyString /\
   Forall (fun e => snd e && Contains (fst e) "lts" = false) entries)
  \/ exists before name after,
       entries = (before ++ (name, true) :: after)%list /\
       Forall (fun e => snd e && Contains (fst e) "lts" = false) before /\
       Contains name "lts" = true /\ firstLts entries = name.
Proof.
  induction entries as [|[n d] l IH]; simpl.
  - left. split; [reflexivity | constructor].
  - destruct (d && Contains n "lts") eqn:Hn.
    + right. apply andb_true_iff in Hn as [-> Hn]. exists [], n, l. repeat split; auto.
    + destruct IH as [[H1 H2] | (before & p & after & -> & Hb & Hp & Hr)].
      * left. split; [exact H1 | now constructor].
      * right. exists ((n, d) :: before), p, after. repeat split; auto.
Qed.

(** X16. Whatever happens, the commands that Bootstrap runs before its
    last step, PatchInitramfs, are the first commands of this list, in this
    order: tar, the mounts of proc, dev and sys, apk update, apk add of the
    base packages, mkinitfs. When it returns a handle it ran them all and
    all succeeded; when it returns an error, every command it ran
    succeeded but, possibly, the last one. So no package is installed
    before the three mounts were made, no command is run after a failed
    one, and Bootstrap never unmounts what it mounted. *)
Theorem Bootstrap_commands_in_order (sh : Shell) (net : Net) (goarch tmpDir name : string)
    (w : World) :
  exists kernelVersion,
    follows (bootstrapCommands (rootfsFor goarch tmpDir name) kernelVersion)
            (Bootstrap sh net goarch tmpDir name) w.
Proof.
  unfold Bootstrap. set (r := rootfsFor goarch tmpDir name).
  pose (tail6 := fun v : string => [mkinitfs r v]).
  assert (Hlast : forall w, exists v,
             follows (tail6 v) (let+ _ := generateInitramfs sh r in
                                let+ _ := patch r in retC r) w).
  { intros w0.
    destruct (follows_generateInitramfs sh r w0) as [v Hv]. exists v.
    apply (follows_bindC [mkinitfs r v] []); [exact Hv | intros _ _].
    apply (follows_bindC [] []); [|intros; apply follows_retC].
    apply follows_stop; [|reflexivity]. unfold patch.
    now destruct (PatchInitramfs r _) as [[e|] w2]. }
  match goal with
  | |- context [bindC ?c ?k] =>
      destruct (follows_bindC_found [] (fun v => bootstrapCommands r v) c k w) as [v Hv];
        [apply follows_file | | exists v; exact Hv]
  end.
  intros _ _.
  match goal with
  | |- context [bindC ?c ?k] =>
      apply (follows_bindC_found [] (fun v => bootstrapCommands r v) c k)
  end.
  { apply follows_stop; [|reflexivity]. unfold download.
    now destruct (downloadMinirootfs _ _ _ _) as [[[e|] urls] w1]. }
  intros _ _.
  match goal with
  | |- context [bindC ?c ?k] =>
      apply (follows_bindC_found [ ["tar"; "xzf"; Join [WorkDir r; "minirootfs.tar.gz"];
                                    "-C"; Path r] ]
               (fun v => map mountCommand (chrootMountsOf r)
                           ++ [apkUpdate r; apkAddBase r] ++ tail6 v)%list c k)
  end.
  { apply follows_command. }
  intros _ _.
  match goal with
  | |- context [bindC ?c ?k] =>
      apply (follows_bindC_found (map mountCommand (chrootMountsOf r))
               (fun v => [apkUpdate r; apkAddBase r] ++ tail6 v)%list c k)
  end.
  { apply follows_mountEach. }
  intros _ _.
  match goal with
  | |- context [bindC ?c ?k] =>
      apply (follows_bindC_found [] (fun v => [apkUpdate r; apkAddBase r] ++ tail6 v)%list c k)
  end.
  { unfold copyResolv. apply (follows_bindC [] []); [apply follows_file|].
    intros; apply follows_file. }
  intros _ _.
  match goal with
  | |- context [bindC ?c ?k] =>
      apply (follows_bindC_found [apkUpdate r; apkAddBase r] tail6 c k)
  end.
  { unfold installBaseSystem.
    apply (follows_bindC [] [apkUpdate r; apkAddBase r]); [apply follows_file | intros _ _].
    apply (follows_bindC [] [apkUpdate r; apkAddBase r]); [apply follows_file | intros _ _].
    apply (follows_bindC [apkUpdate r] [apkAddBase r]); [apply follows_command | intros _ _].
    apply follows_command. }
  intros _ _.
  match goal with
  | |- context [bindC ?c ?k] => apply (follows_bindC_found [] tail6 c k)
  end.
  { unfold configureMkinitfs. apply (follows_bindC [] []); [apply follows_file|].
    intros; apply follows_file. }
  intros _ _. apply Hlast.
Qed.

(** X17. generateInitramfs takes as kernel version the name of the first
    directory below lib/modules whose name contains lts; when there is
    none it takes the first entry, whatever it is, also a plain file. With
    no entry the version is empty. With an empty version generateInitramfs
    fails and runs nothing; otherwise the one command it runs is mkinitfs
    for that version, in the chroot. *)
Theorem kernelVersionOf_prefers_lts (entries : list (string * bool)) :
  (entries = [] -> kernelVersionOf entries = EmptyString) /\
  (forall before name after,
      entries = (before ++ (name, true) :: after)%list ->
      Forall (fun e => snd e && Contains (fst e) "lts" = false) before ->
      Contains name "lts" = true ->
      kernelVersionOf entries = name) /\
  (forall name isDir rest,
      entries = (name, isDir) :: rest ->
      Forall (fun e => snd e && Contains (fst e) "lts" = false) entries ->
      kernelVersionOf entries = name) /\
  (forall sh r w,
      dirEntries (Join [Path r; "lib"; "modules"]) w = Some entries ->
      if String.eqb (kernelVersionOf entries) EmptyString
      then generateInitramfs sh r w
           = (inl ("no kernel modules found in " +:+ Join [Path r; "lib"; "modules"]), [], w)
      else map fst (snd (fst (generateInitramfs sh r w)))
           = [mkinitfs r (kernelVersionOf entries)]).
Proof.
  split; [intros ->; reflexivity|]. split; [|split].
  - intros before name after -> Hb Hn. unfold kernelVersionOf.
    assert (Hf : firstLts (before ++ (name, true) :: after) = name).
    { induction Hb as [|[n d] l Hx _ IH]; simpl in *; [now rewrite Hn | now rewrite Hx]. }
    rewrite Hf. destruct (String.eqb name EmptyString) eqn:He; [|reflexivity].
    apply String.eqb_eq in He. subst. discriminate.
  - intros name isDir rest -> Hall. unfold kernelVersionOf.
    assert (Hf : firstLts ((name, isDir) :: rest) = EmptyString).
    { induction Hall as [|[n d] l Hx _ IH]; simpl in *; [reflexivity | now rewrite Hx]. }
    now rewrite Hf.
  - intros sh r w Hdir. unfold generateInitramfs, bindC. rewrite Hdir.
    destruct (String.eqb (kernelVersionOf entries) EmptyString); [reflexivity|].
    unfold command. destruct (run sh _ w) as [ok w1]. reflexivity.
Qed.

(** X24. The URL that minirootfsURL builds, a function nothing calls, is
    the URL that downloadMinirootfs asks first, whatever happens next, for
    the handle that Bootstrap makes. *)
Theorem downloadMinirootfs_asks_minirootfsURL_first (goarch tmpDir name dest : string)
    (net : Net) (w : World) :
  exists rest,
    requested (downloadMinirootfs (rootfsFor goarch tmpDir name) dest net w)
    = minirootfsURL goarch :: rest.
Proof.
  unfold requested, downloadMinirootfs, minirootfsURL, rootfsFor. cbn [arch].
  rewrite <- sapp_assoc.
  destruct (httpGet net _) as [[code [body|]]|]; simpl; eauto;
    destruct (negb _); simpl; eauto.
  destruct (yamlUnmarshal net body) as [releases|]; eauto.
  destruct (String.eqb _ _); eauto.
  destruct (httpGet net _) as [[code2 body2]|]; simpl; eauto.
  destruct (negb _); simpl; eauto.
  destruct (Create dest w) as [[e|u] w1]; eauto.
  destruct body2; eauto.
  destruct (writeThrough dest _ _ w1) as [[e|u'] w2]; eauto.
Qed.

End BootstrappingFacts.
(** ** runBuild: how a run ends *)

Module RunBuildFacts.
Import Host Rootfs Main.



End RunBuildFacts.
(** ** downloadMinirootfs: what is stored *)

Module DownloadStoreFacts.
Import GoString Host HostFs Rootfs Download Scenarios Examples InitramfsFacts DownloadFacts
       Bootloader BootloaderFacts.

(** X19. When downloadMinirootfs returns nil, both requests were answered
    with status 200, the second one for the file of the index, and the
    destination is a regular file holding the body of that answer. *)
Theorem downloadMinirootfs_stores_tarball (r : Rootfs) (dest : string) (net : Net)
    (w w' : World) (urls : list string)
    (Hok : downloadMinirootfs r dest net w = (None, urls, w')) :
  let baseURL := "https://dl-cdn.alpinelinux.org/alpine/latest-stable/releases/" +:+ arch r in
  exists body releases tarball m,
    httpGet net (baseURL +:+ "/latest-releases.yaml") = Some (mkResponse 200 (Some body)) /\
    yamlUnmarshal net body = Some releases /\
    findMinirootfs releases <> EmptyString /\
    httpGet net (baseURL +:+ "/" +:+ findMinirootfs releases)
    = Some (mkResponse 200 (Some tarball)) /\
    urls = [ baseURL +:+ "/latest-releases.yaml";
             baseURL +:+ "/" +:+ findMinirootfs releases ] /\
    lookupPath w' dest = Some (Regular m (Bytes tarball)).
Proof.
  cbv zeta. unfold downloadMinirootfs, StatusOK in Hok.
  destruct (httpGet net _) as [[code [body|]]|] eqn:Hindex; simpl in Hok;
    try discriminate; try (destruct (negb _); discriminate).
  destruct (code =? 200)%nat eqn:Hcode; simpl in Hok; [|discriminate].
  apply Nat.eqb_eq in Hcode. subst code.
  destruct (yamlUnmarshal net body) as [releases|] eqn:Hyaml; [|discriminate].
  destruct (String.eqb (findMinirootfs releases) EmptyString) eqn:Hname; [discriminate|].
  apply String.eqb_neq in Hname.
  match type of Hok with
  | context [match httpGet net ?u with _ => _ end] =>
      destruct (httpGet net u) as [[code2 body2]|] eqn:Hget; [|discriminate]
  end.
  simpl in Hok. destruct (code2 =? 200)%nat eqn:Hcode2; simpl in Hok; [|discriminate].
  apply Nat.eqb_eq in Hcode2. subst code2.
  destruct (Create dest w) as [[e|[]] w1]; [discriminate|].
  destruct body2 as [tarball|]; [|discriminate].
  destruct (writeThrough dest (Bytes tarball) 438 w1) as [[e|[]] w2] eqn:Hwrite; [discriminate|].
  inversion Hok; subst. apply writeThrough_lookup in Hwrite as [m Hm].
  exists body, releases, tarball, m. auto 10.
Qed.

(** X20. The first record of the index with the minirootfs flavor decides.
    When it names no file, downloadMinirootfs fails after the index request
    alone and leaves the host as it was, also when a later record of that
    flavor names a file. *)
Theorem downloadMinirootfs_first_record_decides (r : Rootfs) (dest : string) (net : Net)
    (w : World) (body : string) (before after : list alpineRelease) (rel : alpineRelease)
    (Hindex : httpGet net (("https://dl-cdn.alpinelinux.org/alpine/latest-stable/releases/"
                            +:+ arch r) +:+ "/latest-releases.yaml")
              = Some (mkResponse 200 (Some body)))
    (Hyaml : yamlUnmarshal net body = Some (before ++ rel :: after)%list)
    (Hbefore : Forall (fun x => Flavor x <> minirootfs) before)
    (Hflavor : Flavor rel = minirootfs)
    (Hfile : File rel = EmptyString) :
  downloadMinirootfs r dest net w
  = (Some "minirootfs entry not found in releases index",
     [ ("https://dl-cdn.alpinelinux.org/alpine/latest-stable/releases/" +:+ arch r)
       +:+ "/latest-releases.yaml" ],
     w).
Proof.
  unfold downloadMinirootfs.
  rewrite Hindex. simpl. rewrite Hyaml, (findMinirootfs_first _ _ _ Hbefore Hflavor), Hfile.
  reflexivity.
Qed.

Lemma downloadMinirootfs_stores_tarball_witness :
  exists body releases tarball m,
    httpGet exampleNet (exampleBase +:+ "/latest-releases.yaml")
    = Some (mkResponse 200 (Some body)) /\
    yamlUnmarshal exampleNet body = Some releases /\
    findMinirootfs releases <> EmptyString /\
    httpGet exampleNet (exampleBase +:+ "/" +:+ findMinirootfs releases)
    = Some (mkResponse 200 (Some tarball)) /\
    requested (downloadMinirootfs rootfsLive tarballLive exampleNet exampleHost)
    = [ exampleBase +:+ "/latest-releases.yaml";
        exampleBase +:+ "/" +:+ findMinirootfs releases ] /\
    lookupPath (snd (downloadMinirootfs rootfsLive tarballLive exampleNet exampleHost)) tarballLive
    = Some (Regular m (Bytes tarball)).
Proof.
  apply (downloadMinirootfs_stores_tarball rootfsLive tarballLive exampleNet exampleHost).
  vm_compute. reflexivity.
Defined.

Lemma downloadMinirootfs_first_record_decides_witness :
  downloadMinirootfs rootfsLive tarballLive netEmptyFile exampleHost
  = (Some "minirootfs entry not found in releases index",
     [ exampleBase +:+ "/latest-releases.yaml" ], exampleHost).
Proof.
  apply (downloadMinirootfs_first_record_decides rootfsLive tarballLive netEmptyFile exampleHost
           "index" [mkRelease "alpine-standard" "alpine-standard-3.19.iso"]
           [mkRelease "alpine-minirootfs" "minirootfs-3.19.tar.gz"]
           (mkRelease "alpine-minirootfs" EmptyString)).
  - vm_compute. reflexivity.
  - vm_compute. reflexivity.
  - constructor; [|constructor]. vm_compute. discriminate.
  - reflexivity.
  - reflexivity.
Defined.

End DownloadStoreFacts.
(** ** CleanupRootfs on a host without mounts *)

Module CleanupSafetyFacts.
Import GoString GoStringFacts LineFacts UnmountFacts Host Rootfs PathForm Scenarios.






















(** *** RemoveAll and CleanupRootfs *)



















End CleanupSafetyFacts.
